(** * A shallow embedding of the SPI flash driver (spiflash.c / spiflash.h)

    The driver is a state machine over one control block, [spiflash_t].
    Every public request seeds the control block and runs the engine, which
    talks to the chip through three host functions (chip select, transfer,
    wait).  The embedding keeps the control block as a record, the host
    functions as an oracle that answers from the history of calls, and the
    engine as state-passing code in a small state monad. *)

From Stdlib Require Import ZArith Lia Bool Sorted.
From stdpp Require Import base list.

Open Scope Z_scope.

(** ** Machine integers *)

Definition wrap8 (z : Z) : Z := z mod 2 ^ 8.
Definition wrap16 (z : Z) : Z := z mod 2 ^ 16.
Definition wrap32 (z : Z) : Z := z mod 2 ^ 32.

(** ** Result codes (spiflash.h) *)

Definition _SPIFLASH_ERR_BASE : Z := -24000.
Definition SPIFLASH_OK : Z := 0.
Definition SPIFLASH_ERR_INTERNAL : Z := _SPIFLASH_ERR_BASE - 1.
Definition SPIFLASH_ERR_BAD_STATE : Z := _SPIFLASH_ERR_BASE - 2.
Definition SPIFLASH_ERR_HW_BUSY : Z := _SPIFLASH_ERR_BASE - 3.
Definition SPIFLASH_ERR_BUSY : Z := _SPIFLASH_ERR_BASE - 4.
Definition SPIFLASH_ERR_ERASE_UNALIGNED : Z := _SPIFLASH_ERR_BASE - 5.
Definition SPIFLASH_ERR_BAD_CONFIG : Z := _SPIFLASH_ERR_BASE - 6.

Definition SPIFLASH_SYNCHRONOUS : Z := 0.
Definition SPIFLASH_ASYNCHRONOUS : Z := 1.
Definition SPIFLASH_ENDIANNESS_LITTLE : Z := 0.
Definition SPIFLASH_ENDIANNESS_BIG : Z := 1.

(** ** Busy-check-wait sub-states (spiflash.c) *)

Definition BCW_IDLE : Z := 0.
Definition BCW_WAIT : Z := 1.
Definition BCW_READ_SR : Z := 2.
Definition BCW_CHECK : Z := 3.

(** DECR_WAIT(_ms): halve, never below one. *)
Definition DECR_WAIT (ms : Z) : Z :=
  if (1 * ms / 2 =? 0) then 1 else 1 * ms / 2.

(** ** Configuration records *)

Record spiflash_cmd_tbl_t := {
  write_disable : Z;
  write_enable : Z;
  page_program : Z;
  read_data : Z;
  read_data_fast : Z;
  write_sr : Z;
  read_sr : Z;
  block_erase_4 : Z;
  block_erase_8 : Z;
  block_erase_16 : Z;
  block_erase_32 : Z;
  block_erase_64 : Z;
  chip_erase : Z;
  device_id : Z;
  jedec_id : Z;
  sr_busy_bit : Z
}.

Definition SPIFLASH_CMD_TBL_STANDARD : spiflash_cmd_tbl_t := {|
  write_disable := 0x04;
  write_enable := 0x06;
  page_program := 0x02;
  read_data := 0x03;
  read_data_fast := 0x0b;
  write_sr := 0x01;
  read_sr := 0x05;
  block_erase_4 := 0x20;
  block_erase_8 := 0x00;
  block_erase_16 := 0x00;
  block_erase_32 := 0x52;
  block_erase_64 := 0xd8;
  chip_erase := 0xc7;
  device_id := 0x90;
  jedec_id := 0x9f;
  sr_busy_bit := 0x01
|}.

Record spiflash_config_t := {
  sz : Z;
  page_sz : Z;
  addr_sz : Z;
  addr_dummy_sz : Z;
  addr_endian : Z;
  sr_write_ms : Z;
  page_program_ms : Z;
  block_erase_4_ms : Z;
  block_erase_8_ms : Z;
  block_erase_16_ms : Z;
  block_erase_32_ms : Z;
  block_erase_64_ms : Z;
  chip_erase_ms : Z
}.

(** ** Operation states *)

Inductive spiflash_op_t :=
  | SPIFLASH_OP_IDLE
  | SPIFLASH_OP_ERASE_BLOCK_sWREN
  | SPIFLASH_OP_ERASE_BLOCK_sERAS
  | SPIFLASH_OP_ERASE_CHIP_sWREN
  | SPIFLASH_OP_ERASE_CHIP_sERAS
  | SPIFLASH_OP_WRITE_sWREN
  | SPIFLASH_OP_WRITE_sADDR
  | SPIFLASH_OP_WRITE_sDATA
  | SPIFLASH_OP_WRITE_SR_sWREN
  | SPIFLASH_OP_WRITE_SR_sDATA
  | SPIFLASH_OP_WRITE_REG_sWREN
  | SPIFLASH_OP_WRITE_REG_sDATAWAIT
  | SPIFLASH_OP_WRITE_REG_DATA
  | SPIFLASH_OP_READ
  | SPIFLASH_OP_FAST_READ
  | SPIFLASH_OP_READ_SR
  | SPIFLASH_OP_READ_SR_BUSY
  | SPIFLASH_OP_READ_JEDEC
  | SPIFLASH_OP_READ_PRODUCT
  | SPIFLASH_OP_READ_REG.

Definition is_idle (o : spiflash_op_t) : bool :=
  match o with SPIFLASH_OP_IDLE => true | _ => false end.

(** ** Host interface

    A call of the host is recorded with its arguments.  The transmit pointer
    is recorded as the bytes it points to, the receive pointer as the place
    it designates: nothing, the driver's own [sr_data], or caller memory. *)

Inductive rx_target :=
  | RxNone
  | RxSrData
  | RxCaller (p : Z).

Inductive hal_event :=
  | HalCs (cs : Z)
  | HalTxrx (tx : list Z) (rx : rx_target) (rx_len : Z)
  | HalWait (ms : Z).

(** What a transfer answers: its return code and the bytes it received. *)
Definition hal_reply : Type := Z * list Z.

(** A deterministic host: the answer to a transfer is a function of all
    host calls made so far, the transfer itself last. *)
Definition spiflash_hal_t : Type := list hal_event -> hal_reply.

(** ** The control block

    The three unions of the C struct are one field each; the other member
    names are aliases of it.  [sr_data] and [reg_nbr] are byte 0 of
    [tx_internal_buf]. *)

Record spiflash_t := {
  cfg : spiflash_config_t;
  cmd_tbl : spiflash_cmd_tbl_t;
  hal : spiflash_hal_t;
  async_cb : bool;
  async : Z;
  op : spiflash_op_t;
  wait_period_ms : Z;
  addr : Z;
  wr_len : Z;
  wr_buf : Z;
  could_be_busy : Z;
  busy_pre_check : Z;
  busy_check_wait : Z;
  tx_internal_buf : list Z
}.

Definition rd_len := wr_len.
Definition erase_len := wr_len.
Definition rd_buf := wr_buf.
Definition sr_dst := wr_buf.
Definition reg_dst := wr_buf.
Definition id_dst := wr_buf.
Definition sr_data (spi : spiflash_t) : Z := nth 0 (tx_internal_buf spi) 0.
Definition reg_nbr := sr_data.

Definition set_async (v : Z) (s : spiflash_t) : spiflash_t :=
  {| cfg := cfg s; cmd_tbl := cmd_tbl s; hal := hal s; async_cb := async_cb s;
     async := v; op := op s; wait_period_ms := wait_period_ms s;
     addr := addr s; wr_len := wr_len s; wr_buf := wr_buf s;
     could_be_busy := could_be_busy s; busy_pre_check := busy_pre_check s;
     busy_check_wait := busy_check_wait s;
     tx_internal_buf := tx_internal_buf s |}.

Definition set_async_cb (v : bool) (s : spiflash_t) : spiflash_t :=
  {| cfg := cfg s; cmd_tbl := cmd_tbl s; hal := hal s; async_cb := v;
     async := async s; op := op s; wait_period_ms := wait_period_ms s;
     addr := addr s; wr_len := wr_len s; wr_buf := wr_buf s;
     could_be_busy := could_be_busy s; busy_pre_check := busy_pre_check s;
     busy_check_wait := busy_check_wait s;
     tx_internal_buf := tx_internal_buf s |}.

Definition set_op (v : spiflash_op_t) (s : spiflash_t) : spiflash_t :=
  {| cfg := cfg s; cmd_tbl := cmd_tbl s; hal := hal s; async_cb := async_cb s;
     async := async s; op := v; wait_period_ms := wait_period_ms s;
     addr := addr s; wr_len := wr_len s; wr_buf := wr_buf s;
     could_be_busy := could_be_busy s; busy_pre_check := busy_pre_check s;
     busy_check_wait := busy_check_wait s;
     tx_internal_buf := tx_internal_buf s |}.

Definition set_wait_period_ms (v : Z) (s : spiflash_t) : spiflash_t :=
  {| cfg := cfg s; cmd_tbl := cmd_tbl s; hal := hal s; async_cb := async_cb s;
     async := async s; op := op s; wait_period_ms := v;
     addr := addr s; wr_len := wr_len s; wr_buf := wr_buf s;
     could_be_busy := could_be_busy s; busy_pre_check := busy_pre_check s;
     busy_check_wait := busy_check_wait s;
     tx_internal_buf := tx_internal_buf s |}.

Definition set_addr (v : Z) (s : spiflash_t) : spiflash_t :=
  {| cfg := cfg s; cmd_tbl := cmd_tbl s; hal := hal s; async_cb := async_cb s;
     async := async s; op := op s; wait_period_ms := wait_period_ms s;
     addr := v; wr_len := wr_len s; wr_buf := wr_buf s;
     could_be_busy := could_be_busy s; busy_pre_check := busy_pre_check s;
     busy_check_wait := busy_check_wait s;
     tx_internal_buf := tx_internal_buf s |}.

Definition set_wr_len (v : Z) (s : spiflash_t) : spiflash_t :=
  {| cfg := cfg s; cmd_tbl := cmd_tbl s; hal := hal s; async_cb := async_cb s;
     async := async s; op := op s; wait_period_ms := wait_period_ms s;
     addr := addr s; wr_len := v; wr_buf := wr_buf s;
     could_be_busy := could_be_busy s; busy_pre_check := busy_pre_check s;
     busy_check_wait := busy_check_wait s;
     tx_internal_buf := tx_internal_buf s |}.

Definition set_wr_buf (v : Z) (s : spiflash_t) : spiflash_t :=
  {| cfg := cfg s; cmd_tbl := cmd_tbl s; hal := hal s; async_cb := async_cb s;
     async := async s; op := op s; wait_period_ms := wait_period_ms s;
     addr := addr s; wr_len := wr_len s; wr_buf := v;
     could_be_busy := could_be_busy s; busy_pre_check := busy_pre_check s;
     busy_check_wait := busy_check_wait s;
     tx_internal_buf := tx_internal_buf s |}.

Definition set_could_be_busy (v : Z) (s : spiflash_t) : spiflash_t :=
  {| cfg := cfg s; cmd_tbl := cmd_tbl s; hal := hal s; async_cb := async_cb s;
     async := async s; op := op s; wait_period_ms := wait_period_ms s;
     addr := addr s; wr_len := wr_len s; wr_buf := wr_buf s;
     could_be_busy := v; busy_pre_check := busy_pre_check s;
     busy_check_wait := busy_check_wait s;
     tx_internal_buf := tx_internal_buf s |}.

Definition set_busy_pre_check (v : Z) (s : spiflash_t) : spiflash_t :=
  {| cfg := cfg s; cmd_tbl := cmd_tbl s; hal := hal s; async_cb := async_cb s;
     async := async s; op := op s; wait_period_ms := wait_period_ms s;
     addr := addr s; wr_len := wr_len s; wr_buf := wr_buf s;
     could_be_busy := could_be_busy s; busy_pre_check := v;
     busy_check_wait := busy_check_wait s;
     tx_internal_buf := tx_internal_buf s |}.

Definition set_busy_check_wait (v : Z) (s : spiflash_t) : spiflash_t :=
  {| cfg := cfg s; cmd_tbl := cmd_tbl s; hal := hal s; async_cb := async_cb s;
     async := async s; op := op s; wait_period_ms := wait_period_ms s;
     addr := addr s; wr_len := wr_len s; wr_buf := wr_buf s;
     could_be_busy := could_be_busy s; busy_pre_check := busy_pre_check s;
     busy_check_wait := v;
     tx_internal_buf := tx_internal_buf s |}.

Definition set_tx_internal_buf (v : list Z) (s : spiflash_t) : spiflash_t :=
  {| cfg := cfg s; cmd_tbl := cmd_tbl s; hal := hal s; async_cb := async_cb s;
     async := async s; op := op s; wait_period_ms := wait_period_ms s;
     addr := addr s; wr_len := wr_len s; wr_buf := wr_buf s;
     could_be_busy := could_be_busy s; busy_pre_check := busy_pre_check s;
     busy_check_wait := busy_check_wait s;
     tx_internal_buf := v |}.

(** tx_internal_buf[i] = v.  The array has 16 bytes; a store past its end
    is out of bounds in C and is dropped here. *)
Definition set_tx (i : Z) (v : Z) (s : spiflash_t) : spiflash_t :=
  if i <? 0 then s
  else set_tx_internal_buf (<[Z.to_nat i := wrap8 v]> (tx_internal_buf s)) s.

Definition set_sr_data (v : Z) (s : spiflash_t) : spiflash_t := set_tx 0 v s.
Definition set_reg_nbr := set_sr_data.

(** ** Pure helpers of spiflash.c *)

Definition MultiplyDeBruijnBitPosition : list Z :=
  [ 32; 1; 28; 2; 29; 14; 24; 3; 30; 22; 20; 15; 25; 17; 4; 8;
    31; 27; 13; 23; 21; 19; 16; 7; 26; 12; 18; 6; 11; 5; 10; 9 ].

(** [v] is a uint32_t; [-v] and the product wrap at 32 bits. *)
Definition _spiflash_clz (v : Z) : Z :=
  nth (Z.to_nat (Z.shiftr (wrap32 (Z.land v (wrap32 (- v)) * 0x077CB531)) 27))
      MultiplyDeBruijnBitPosition 0.

Definition _spiflash_is_hwbusy (spi : spiflash_t) (sr : Z) : Z :=
  Z.land sr (sr_busy_bit (cmd_tbl spi)).

(** The byte [_spiflash_compose_address] stores at [buf[i]].  A shift by
    32 or more bits (an address of more than four bytes) is undefined in C;
    here it yields 0. *)
Definition address_byte (c : spiflash_config_t) (a : Z) (i : Z) : Z :=
  Z.land
    (if addr_endian c =? 0
     then Z.shiftr a (8 * i)
     else Z.shiftr a (8 * ((addr_sz c - 1) - i)))
    0xff.

(** The for loop of [_spiflash_compose_address], [n] turns left, writing
    to [tx_internal_buf[off + i]]. *)
Fixpoint compose_loop (n : nat) (i : Z) (a : Z) (off : Z) (s : spiflash_t)
    : spiflash_t :=
  match n with
  | O => s
  | S n' =>
      compose_loop n' (i + 1) a off (set_tx (off + i) (address_byte (cfg s) a i) s)
  end.

(** [_spiflash_compose_address spi addr &spi->tx_internal_buf[off]]. *)
Definition _spiflash_compose_address (a : Z) (off : Z) (s : spiflash_t)
    : spiflash_t :=
  compose_loop (Z.to_nat (addr_sz (cfg s))) 0 a off s.

(** The address as the list of bytes on the wire. *)
Definition address_bytes (c : spiflash_config_t) (a : Z) : list Z :=
  map (address_byte c a) (seqZ 0 (addr_sz c)).

Definition _spiflash_finalize (s : spiflash_t) : spiflash_t :=
  set_busy_check_wait BCW_IDLE (set_busy_pre_check 0 (set_wait_period_ms 0 s)).

Definition _spiflash_get_supported_block_mask (c : spiflash_cmd_tbl_t) : Z :=
  Z.lor (Z.lor (Z.lor (Z.lor (Z.lor 0
    (if block_erase_4 c =? 0 then 0 else Z.shiftl 1 4))
    (if block_erase_8 c =? 0 then 0 else Z.shiftl 1 5))
    (if block_erase_16 c =? 0 then 0 else Z.shiftl 1 6))
    (if block_erase_32 c =? 0 then 0 else Z.shiftl 1 7))
    (if block_erase_64 c =? 0 then 0 else Z.shiftl 1 8).

(** The while loop of [_spiflash_get_largest_erase_area].  [bm] is a
    uint16_t that is shifted right at least once per turn, so sixteen
    turns always reach [bm = 0]. *)
Fixpoint erase_area_loop (fuel : nat) (bm bm_lz addr_lz len res : Z) : Z :=
  if bm =? 0 then res
  else
    match fuel with
    | O => res
    | S fuel' =>
        let res :=
          if (addr_lz >=? bm_lz) && (len >=? wrap32 (Z.shiftl 1 bm_lz))
          then wrap32 (Z.shiftl 1 bm_lz) else res in
        let bm := Z.shiftr bm 1 in
        let bm_lz := wrap8 (bm_lz + 1) in
        let new_bm_lz := _spiflash_clz bm in
        let new_bm_lz := if new_bm_lz =? 32 then 0 else new_bm_lz in
        erase_area_loop fuel' (Z.shiftr bm new_bm_lz)
          (wrap8 (bm_lz + new_bm_lz)) addr_lz len res
    end.

(** With no erase opcode at all the C code shifts by 32 and by 40 bits,
    which is undefined; the shifts are the mathematical ones here. *)
Definition _spiflash_get_largest_erase_area (c : spiflash_cmd_tbl_t)
    (a len : Z) : Z :=
  let bm := _spiflash_get_supported_block_mask c in
  let bm_lz := _spiflash_clz bm in
  let addr_lz := _spiflash_clz a in
  let bm := wrap16 (Z.shiftr bm bm_lz) in
  let bm_lz := wrap8 (bm_lz + 8) in
  if negb (Z.land len (wrap32 (Z.shiftl 1 bm_lz - 1)) =? 0) then 0
  else erase_area_loop 16 bm bm_lz addr_lz len 0.

Definition _spiflash_get_erase_cmd (c : spiflash_cmd_tbl_t) (len : Z) : Z :=
  if (len =? 4 * 1024) && negb (block_erase_4 c =? 0) then block_erase_4 c
  else if (len =? 8 * 1024) && negb (block_erase_8 c =? 0) then block_erase_8 c
  else if (len =? 16 * 1024) && negb (block_erase_16 c =? 0) then block_erase_16 c
  else if (len =? 32 * 1024) && negb (block_erase_32 c =? 0) then block_erase_32 c
  else if (len =? 64 * 1024) && negb (block_erase_64 c =? 0) then block_erase_64 c
  else 0.

Definition _spiflash_get_erase_time (c : spiflash_config_t) (len : Z) : Z :=
  if len =? 4 * 1024 then block_erase_4_ms c
  else if len =? 8 * 1024 then block_erase_8_ms c
  else if len =? 16 * 1024 then block_erase_16_ms c
  else if len =? 32 * 1024 then block_erase_32_ms c
  else if len =? 64 * 1024 then block_erase_64_ms c
  else 0.

(** ** The world the engine runs in

    The control block, the caller's memory (what the buffer and
    destination pointers point into), the host calls made so far, and the
    completion callbacks delivered so far. *)

Record world := {
  w_spi : spiflash_t;
  w_mem : Z -> Z;
  w_trace : list hal_event;
  w_cb : list (spiflash_op_t * Z)
}.

Definition M (A : Type) : Type := world -> A * world.

Definition ret {A : Type} (a : A) : M A := fun w => (a, w).

Definition bind {A B : Type} (m : M A) (k : A -> M B) : M B :=
  fun w => let p := m w in k (fst p) (snd p).

Notation "x <- m ;; k" := (bind m (fun x => k))
  (at level 100, m at next level, right associativity).
Notation "m ;; k" := (bind m (fun _ => k))
  (at level 100, right associativity).

Definition get_spi : M spiflash_t := fun w => (w_spi w, w).

Definition upd_spi (f : spiflash_t -> spiflash_t) : M unit :=
  fun w => (tt, {| w_spi := f (w_spi w); w_mem := w_mem w;
                   w_trace := w_trace w; w_cb := w_cb w |}).

Definition get_mem : M (Z -> Z) := fun w => (w_mem w, w).

Definition upd_mem (f : (Z -> Z) -> Z -> Z) : M unit :=
  fun w => (tt, {| w_spi := w_spi w; w_mem := f (w_mem w);
                   w_trace := w_trace w; w_cb := w_cb w |}).

Definition emit (e : hal_event) : M unit :=
  fun w => (tt, {| w_spi := w_spi w; w_mem := w_mem w;
                   w_trace := w_trace w ++ [e]; w_cb := w_cb w |}).

Definition call_cb (o : spiflash_op_t) (res : Z) : M unit :=
  fun w => (tt, {| w_spi := w_spi w; w_mem := w_mem w;
                   w_trace := w_trace w; w_cb := w_cb w ++ [(o, res)] |}).

(** [n] bytes of caller memory from [p] on. *)
Definition mem_bytes (m : Z -> Z) (p n : Z) : list Z :=
  map (fun i => m (p + i)) (seqZ 0 n).

(** Caller memory after [n] received bytes were stored from [p] on. *)
Definition mem_store (p n : Z) (data : list Z) (m : Z -> Z) : Z -> Z :=
  fun a =>
    if (p <=? a) && (a <? p + n)
    then wrap8 (nth (Z.to_nat (a - p)) data 0)
    else m a.

(** hal->_spiflash_spi_cs *)
Definition hal_cs (cs : Z) : M unit := emit (HalCs cs).

(** hal->_spiflash_wait *)
Definition hal_wait (ms : Z) : M unit := emit (HalWait ms).

(** hal->_spiflash_spi_txrx: the call is recorded, the host answers from
    the history, the received bytes land where the receive pointer says. *)
Definition hal_txrx (tx : list Z) (rx : rx_target) (rx_len : Z) : M Z :=
  emit (HalTxrx tx rx rx_len) ;;
  spi <- get_spi ;;
  tr <- (fun w => (w_trace w, w)) ;;
  let r := hal spi tr in
  match rx with
  | RxNone => ret (fst r)
  | RxSrData =>
      (if 0 <? rx_len then upd_spi (set_sr_data (nth 0 (snd r) 0)) else ret tt) ;;
      ret (fst r)
  | RxCaller p => upd_mem (mem_store p rx_len (snd r)) ;; ret (fst r)
  end.

(** The first [n] bytes of the scratch buffer, as a transmit argument. *)
Definition tx_frame (n : Z) (s : spiflash_t) : list Z :=
  take (Z.to_nat n) (tx_internal_buf s).

(** ** The engine *)

Definition _spiflash_begin_async : M Z :=
  spi <- get_spi ;;
  if is_idle (op spi) then ret SPIFLASH_ERR_BAD_STATE
  else if negb (busy_pre_check spi =? 0) then
    (* busy check: issue read sr *)
    hal_cs 1 ;;
    hal_txrx [read_sr (cmd_tbl spi)] RxSrData 1
  else
    match op spi with
    | SPIFLASH_OP_WRITE_sWREN =>
        hal_cs 1 ;;
        hal_txrx [write_enable (cmd_tbl spi)] RxNone 0
    | SPIFLASH_OP_WRITE_sADDR =>
        hal_cs 1 ;;
        upd_spi (set_tx 0 (page_program (cmd_tbl spi))) ;;
        upd_spi (_spiflash_compose_address (addr spi) 1) ;;
        spi <- get_spi ;;
        hal_txrx
          (tx_frame (1 + addr_sz (cfg spi) + addr_dummy_sz (cfg spi)) spi)
          RxNone 0
    | SPIFLASH_OP_WRITE_sDATA =>
        let rem_pg_sz :=
          wrap32 (page_sz (cfg spi)
                  - Z.land (addr spi) (wrap32 (page_sz (cfg spi) - 1))) in
        let wr_sz := if wr_len spi <? rem_pg_sz then wr_len spi else rem_pg_sz in
        let wr_buf0 := wr_buf spi in
        upd_spi (set_wr_buf (wr_buf spi + wr_sz)) ;;
        upd_spi (set_wr_len (wrap32 (wr_len spi - wr_sz))) ;;
        upd_spi (set_addr (wrap32 (addr spi + wr_sz))) ;;
        upd_spi (set_wait_period_ms (page_program_ms (cfg spi))) ;;
        upd_spi (set_busy_check_wait BCW_WAIT) ;;
        mem <- get_mem ;;
        hal_txrx (mem_bytes mem wr_buf0 wr_sz) RxNone 0
    | SPIFLASH_OP_ERASE_BLOCK_sWREN =>
        hal_cs 1 ;;
        hal_txrx [write_enable (cmd_tbl spi)] RxNone 0
    | SPIFLASH_OP_ERASE_BLOCK_sERAS =>
        let era_sz :=
          _spiflash_get_largest_erase_area (cmd_tbl spi) (addr spi)
            (erase_len spi) in
        hal_cs 1 ;;
        let cmd := _spiflash_get_erase_cmd (cmd_tbl spi) era_sz in
        let era_time := _spiflash_get_erase_time (cfg spi) era_sz in
        if cmd =? 0 then ret SPIFLASH_ERR_BAD_CONFIG
        else
          upd_spi (set_tx 0 cmd) ;;
          upd_spi (_spiflash_compose_address (addr spi) 1) ;;
          upd_spi (set_addr (wrap32 (addr spi + era_sz))) ;;
          upd_spi (set_wr_len (wrap32 (erase_len spi - era_sz))) ;;
          upd_spi (set_wait_period_ms era_time) ;;
          upd_spi (set_busy_check_wait BCW_WAIT) ;;
          spi <- get_spi ;;
          hal_txrx
            (tx_frame (1 + addr_sz (cfg spi) + addr_dummy_sz (cfg spi)) spi)
            RxNone 0
    | SPIFLASH_OP_WRITE_SR_sWREN =>
        hal_cs 1 ;;
        hal_txrx [write_enable (cmd_tbl spi)] RxNone 0
    | SPIFLASH_OP_WRITE_SR_sDATA =>
        upd_spi (set_tx 1 (sr_data spi)) ;;
        upd_spi (set_tx 0 (write_sr (cmd_tbl spi))) ;;
        hal_cs 1 ;;
        upd_spi (set_wait_period_ms (sr_write_ms (cfg spi))) ;;
        upd_spi (set_busy_check_wait BCW_WAIT) ;;
        spi <- get_spi ;;
        hal_txrx (tx_frame 2 spi) RxNone 0
    | SPIFLASH_OP_ERASE_CHIP_sWREN =>
        hal_cs 1 ;;
        hal_txrx [write_enable (cmd_tbl spi)] RxNone 0
    | SPIFLASH_OP_ERASE_CHIP_sERAS =>
        hal_cs 1 ;;
        upd_spi (set_tx 0 (chip_erase (cmd_tbl spi))) ;;
        upd_spi (set_wait_period_ms (chip_erase_ms (cfg spi))) ;;
        upd_spi (set_busy_check_wait BCW_WAIT) ;;
        spi <- get_spi ;;
        hal_txrx (tx_frame 1 spi) RxNone 0
    | SPIFLASH_OP_READ =>
        hal_cs 1 ;;
        upd_spi (set_tx 0 (read_data (cmd_tbl spi))) ;;
        upd_spi (_spiflash_compose_address (addr spi) 1) ;;
        spi <- get_spi ;;
        hal_txrx
          (tx_frame (1 + addr_sz (cfg spi) + addr_dummy_sz (cfg spi)) spi)
          (RxCaller (rd_buf spi)) (rd_len spi)
    | SPIFLASH_OP_FAST_READ =>
        hal_cs 1 ;;
        upd_spi (set_tx 0 (read_data_fast (cmd_tbl spi))) ;;
        upd_spi (_spiflash_compose_address (addr spi) 1) ;;
        upd_spi (set_tx (1 + addr_sz (cfg spi) + 1) 0) ;; (* dummy for fast read *)
        spi <- get_spi ;;
        hal_txrx
          (tx_frame (1 + addr_sz (cfg spi) + 1 + addr_dummy_sz (cfg spi)) spi)
          (RxCaller (rd_buf spi)) (rd_len spi)
    | SPIFLASH_OP_READ_JEDEC =>
        hal_cs 1 ;;
        hal_txrx [jedec_id (cmd_tbl spi)] (RxCaller (id_dst spi)) 3
    | SPIFLASH_OP_READ_PRODUCT =>
        hal_cs 1 ;;
        hal_txrx [device_id (cmd_tbl spi)] (RxCaller (id_dst spi)) 3
    | SPIFLASH_OP_READ_SR
    | SPIFLASH_OP_READ_SR_BUSY =>
        hal_cs 1 ;;
        hal_txrx [read_sr (cmd_tbl spi)] (RxCaller (sr_dst spi)) 1
    | SPIFLASH_OP_READ_REG =>
        hal_cs 1 ;;
        hal_txrx [reg_nbr spi] (RxCaller (reg_dst spi)) 1
    | SPIFLASH_OP_WRITE_REG_sWREN =>
        hal_cs 1 ;;
        hal_txrx [write_enable (cmd_tbl spi)] RxNone 0
    | SPIFLASH_OP_WRITE_REG_DATA =>
        hal_cs 1 ;;
        upd_spi (set_busy_check_wait BCW_IDLE) ;;
        spi <- get_spi ;;
        hal_txrx (tx_frame 2 spi) RxNone 0
    | SPIFLASH_OP_WRITE_REG_sDATAWAIT =>
        hal_cs 1 ;;
        upd_spi (set_busy_check_wait BCW_WAIT) ;;
        spi <- get_spi ;;
        hal_txrx (tx_frame 2 spi) RxNone 0
    | SPIFLASH_OP_IDLE => ret SPIFLASH_ERR_INTERNAL
    end.

(** The second switch of [_spiflash_end_async] ("handle results") and the
    lines after it. *)
Definition end_async_results (res : Z) : M Z :=
  spi <- get_spi ;;
  res <-
    match op spi with
    | SPIFLASH_OP_WRITE_sWREN =>
        hal_cs 0 ;; upd_spi (set_op SPIFLASH_OP_WRITE_sADDR) ;; ret res
    | SPIFLASH_OP_WRITE_sADDR =>
        upd_spi (set_op SPIFLASH_OP_WRITE_sDATA) ;; ret res
    | SPIFLASH_OP_WRITE_sDATA =>
        (if wr_len spi =? 0
         then upd_spi (set_op SPIFLASH_OP_IDLE)
         else upd_spi (set_op SPIFLASH_OP_WRITE_sWREN)) ;;
        ret res
    | SPIFLASH_OP_ERASE_BLOCK_sWREN =>
        hal_cs 0 ;; upd_spi (set_op SPIFLASH_OP_ERASE_BLOCK_sERAS) ;; ret res
    | SPIFLASH_OP_ERASE_BLOCK_sERAS =>
        (if erase_len spi =? 0
         then upd_spi (set_op SPIFLASH_OP_IDLE)
         else upd_spi (set_op SPIFLASH_OP_ERASE_BLOCK_sWREN)) ;;
        ret res
    | SPIFLASH_OP_WRITE_SR_sWREN =>
        hal_cs 0 ;; upd_spi (set_op SPIFLASH_OP_WRITE_SR_sDATA) ;; ret res
    | SPIFLASH_OP_WRITE_SR_sDATA =>
        upd_spi (set_op SPIFLASH_OP_IDLE) ;; ret res
    | SPIFLASH_OP_ERASE_CHIP_sWREN =>
        hal_cs 0 ;; upd_spi (set_op SPIFLASH_OP_ERASE_CHIP_sERAS) ;; ret res
    | SPIFLASH_OP_ERASE_CHIP_sERAS =>
        upd_spi (set_op SPIFLASH_OP_IDLE) ;; ret res
    | SPIFLASH_OP_READ =>
        upd_spi (set_op SPIFLASH_OP_IDLE) ;; ret res
    | SPIFLASH_OP_FAST_READ =>
        upd_spi (set_op SPIFLASH_OP_IDLE) ;; ret res
    | SPIFLASH_OP_READ_JEDEC =>
        upd_spi (set_op SPIFLASH_OP_IDLE) ;; ret res
    | SPIFLASH_OP_READ_PRODUCT =>
        upd_spi (set_op SPIFLASH_OP_IDLE) ;; ret res
    | SPIFLASH_OP_READ_SR_BUSY =>
        (* the byte at sr_dst becomes (byte & sr_busy_bit) != 0 *)
        upd_mem (fun m a =>
          if a =? sr_dst spi
          then (if Z.land (m (sr_dst spi)) (sr_busy_bit (cmd_tbl spi)) =? 0
                then 0 else 1)
          else m a) ;;
        upd_spi (set_op SPIFLASH_OP_IDLE) ;; ret res
    | SPIFLASH_OP_READ_SR =>
        upd_spi (set_op SPIFLASH_OP_IDLE) ;; ret res
    | SPIFLASH_OP_WRITE_REG_sWREN =>
        hal_cs 0 ;; upd_spi (set_op SPIFLASH_OP_WRITE_REG_sDATAWAIT) ;; ret res
    | SPIFLASH_OP_WRITE_REG_sDATAWAIT
    | SPIFLASH_OP_WRITE_REG_DATA =>
        upd_spi (set_op SPIFLASH_OP_IDLE) ;; ret res
    | SPIFLASH_OP_READ_REG =>
        upd_spi (set_op SPIFLASH_OP_IDLE) ;; ret res
    | SPIFLASH_OP_IDLE => ret SPIFLASH_ERR_INTERNAL
    end ;;
  spi <- get_spi ;;
  if (res =? SPIFLASH_OK) && negb (is_idle (op spi)) then
    (* moar to do *)
    _spiflash_begin_async
  else
    (* finished or error *)
    hal_cs 0 ;;
    upd_spi _spiflash_finalize ;;
    ret res.

Definition _spiflash_end_async (res : Z) : M Z :=
  (* handle early termination *)
  if negb (res =? SPIFLASH_OK) then
    upd_spi _spiflash_finalize ;; ret res
  else
    spi <- get_spi ;;
    (* handle busy pre check *)
    if negb (busy_pre_check spi =? 0) then
      if negb (_spiflash_is_hwbusy spi (sr_data spi) =? 0) then
        hal_cs 0 ;; ret SPIFLASH_ERR_HW_BUSY
      else
        upd_spi (set_busy_pre_check 0) ;; _spiflash_begin_async
    (* handle busy-check-wait states *)
    else if busy_check_wait spi =? BCW_WAIT then
      hal_cs 0 ;;
      upd_spi (set_busy_check_wait
                 (if wait_period_ms spi =? 0 then BCW_IDLE else BCW_READ_SR)) ;;
      hal_wait (wait_period_ms spi) ;;
      ret SPIFLASH_OK
    else if busy_check_wait spi =? BCW_READ_SR then
      upd_spi (set_busy_check_wait BCW_CHECK) ;;
      hal_cs 1 ;;
      hal_txrx [read_sr (cmd_tbl spi)] RxSrData 1
    else if busy_check_wait spi =? BCW_CHECK then
      hal_cs 0 ;;
      if negb (_spiflash_is_hwbusy spi (sr_data spi) =? 0) then
        upd_spi (set_wait_period_ms (DECR_WAIT (wait_period_ms spi))) ;;
        upd_spi (set_busy_check_wait BCW_READ_SR) ;;
        hal_wait (DECR_WAIT (wait_period_ms spi)) ;;
        ret SPIFLASH_OK
      else
        upd_spi (set_busy_check_wait BCW_IDLE) ;;
        end_async_results res
    else
      end_async_results res.

Definition SPIFLASH_async_trigger (err_code : Z) : M Z :=
  res <- _spiflash_end_async err_code ;;
  spi <- get_spi ;;
  let op0 := op spi in
  (if negb (res =? SPIFLASH_OK) || is_idle op0 then
     (if negb (res =? SPIFLASH_OK)
      then upd_spi (set_op SPIFLASH_OP_IDLE) else ret tt) ;;
     (if negb (async spi =? 0) && async_cb spi
      then call_cb op0 res else ret tt)
   else ret tt) ;;
  ret res.

(** The while loop of the blocking branch of [_spiflash_exe].  The loop
    has no bound of its own (a chip that never reports ready keeps it
    running); [None] is a run that needs more than [fuel] turns. *)
Fixpoint exe_loop (fuel : nat) (res : Z) (w : world) : option (Z * world) :=
  if (res =? SPIFLASH_OK) && negb (is_idle (op (w_spi w))) then
    match fuel with
    | O => None
    | S fuel' =>
        let p := SPIFLASH_async_trigger res w in
        exe_loop fuel' (fst p) (snd p)
    end
  else Some (res, w).

Definition _spiflash_exe (fuel : nat) (w : world) : option (Z * world) :=
  let w :=
    if negb (could_be_busy (w_spi w) =? 0)
    then snd (upd_spi (set_busy_pre_check 1) w) else w in
  if negb (async (w_spi w) =? 0) then
    (* asynchronous *)
    Some (_spiflash_begin_async w)
  else
    (* blocking *)
    let p := _spiflash_begin_async w in
    match exe_loop fuel (fst p) (snd p) with
    | None => None
    | Some (res, w') => Some (res, snd (upd_spi _spiflash_finalize w'))
    end.

(** ** Public operations *)

(** memset of the control block, then the captured references. *)
Definition SPIFLASH_init (c : spiflash_config_t) (cmd : spiflash_cmd_tbl_t)
    (h : spiflash_hal_t) (cb : bool) (async_mode : Z) : spiflash_t :=
  {| cfg := c; cmd_tbl := cmd; hal := h; async_cb := cb;
     async := async_mode; op := SPIFLASH_OP_IDLE; wait_period_ms := 0;
     addr := 0; wr_len := 0; wr_buf := 0;
     could_be_busy := 0; busy_pre_check := 0; busy_check_wait := 0;
     tx_internal_buf := replicate 16 0 |}.

Definition SPIFLASH_write (a len buf : Z) (fuel : nat) (w : world)
    : option (Z * world) :=
  if negb (is_idle (op (w_spi w))) then Some (SPIFLASH_ERR_BUSY, w)
  else
    _spiflash_exe fuel
      (snd ((upd_spi (set_addr a) ;;
             upd_spi (set_wr_buf buf) ;;
             upd_spi (set_wr_len len) ;;
             upd_spi (set_op SPIFLASH_OP_WRITE_sWREN)) w)).

Definition SPIFLASH_read (a len buf : Z) (fuel : nat) (w : world)
    : option (Z * world) :=
  if negb (is_idle (op (w_spi w))) then Some (SPIFLASH_ERR_BUSY, w)
  else
    _spiflash_exe fuel
      (snd ((upd_spi (set_addr a) ;;
             upd_spi (set_wr_buf buf) ;;
             upd_spi (set_wr_len len) ;;
             upd_spi (set_op SPIFLASH_OP_READ)) w)).

Definition SPIFLASH_fast_read (a len buf : Z) (fuel : nat) (w : world)
    : option (Z * world) :=
  if negb (is_idle (op (w_spi w))) then Some (SPIFLASH_ERR_BUSY, w)
  else
    _spiflash_exe fuel
      (snd ((upd_spi (set_addr a) ;;
             upd_spi (set_wr_buf buf) ;;
             upd_spi (set_wr_len len) ;;
             upd_spi (set_op
               (if read_data_fast (cmd_tbl (w_spi w)) =? 0
                then SPIFLASH_OP_READ else SPIFLASH_OP_FAST_READ))) w)).

Definition SPIFLASH_read_jedec_id (jedec : Z) (fuel : nat) (w : world)
    : option (Z * world) :=
  if negb (is_idle (op (w_spi w))) then Some (SPIFLASH_ERR_BUSY, w)
  else
    _spiflash_exe fuel
      (snd ((upd_spi (set_wr_buf jedec) ;;
             upd_spi (set_op SPIFLASH_OP_READ_JEDEC)) w)).

Definition SPIFLASH_read_product_id (prod : Z) (fuel : nat) (w : world)
    : option (Z * world) :=
  if negb (is_idle (op (w_spi w))) then Some (SPIFLASH_ERR_BUSY, w)
  else
    _spiflash_exe fuel
      (snd ((upd_spi (set_wr_buf prod) ;;
             upd_spi (set_op SPIFLASH_OP_READ_PRODUCT)) w)).

Definition SPIFLASH_read_sr (sr : Z) (fuel : nat) (w : world)
    : option (Z * world) :=
  if negb (is_idle (op (w_spi w))) then Some (SPIFLASH_ERR_BUSY, w)
  else
    _spiflash_exe fuel
      (snd ((upd_spi (set_wr_buf sr) ;;
             upd_spi (set_op SPIFLASH_OP_READ_SR)) w)).

Definition SPIFLASH_read_sr_busy (busy : Z) (fuel : nat) (w : world)
    : option (Z * world) :=
  if negb (is_idle (op (w_spi w))) then Some (SPIFLASH_ERR_BUSY, w)
  else
    _spiflash_exe fuel
      (snd ((upd_spi (set_wr_buf busy) ;;
             upd_spi (set_op SPIFLASH_OP_READ_SR_BUSY)) w)).

Definition SPIFLASH_write_sr (sr : Z) (fuel : nat) (w : world)
    : option (Z * world) :=
  if negb (is_idle (op (w_spi w))) then Some (SPIFLASH_ERR_BUSY, w)
  else
    _spiflash_exe fuel
      (snd ((upd_spi (set_sr_data sr) ;;
             upd_spi (set_op SPIFLASH_OP_WRITE_SR_sWREN)) w)).

Definition SPIFLASH_read_reg (reg data : Z) (fuel : nat) (w : world)
    : option (Z * world) :=
  if negb (is_idle (op (w_spi w))) then Some (SPIFLASH_ERR_BUSY, w)
  else
    _spiflash_exe fuel
      (snd ((upd_spi (set_reg_nbr reg) ;;
             upd_spi (set_wr_buf data) ;;
             upd_spi (set_op SPIFLASH_OP_READ_REG)) w)).

Definition SPIFLASH_write_reg (reg data write_en wait_ms : Z) (fuel : nat)
    (w : world) : option (Z * world) :=
  if negb (is_idle (op (w_spi w))) then Some (SPIFLASH_ERR_BUSY, w)
  else
    _spiflash_exe fuel
      (snd ((upd_spi (set_tx 0 reg) ;;
             upd_spi (set_tx 1 data) ;;
             upd_spi (set_op (if write_en =? 0
                              then SPIFLASH_OP_WRITE_REG_DATA
                              else SPIFLASH_OP_WRITE_REG_sWREN)) ;;
             (if write_en =? 0 then ret tt
              else upd_spi (set_wait_period_ms wait_ms))) w)).

Definition SPIFLASH_erase (a len : Z) (fuel : nat) (w : world)
    : option (Z * world) :=
  if negb (is_idle (op (w_spi w))) then Some (SPIFLASH_ERR_BUSY, w)
  else
    let era_sz :=
      _spiflash_get_largest_erase_area (cmd_tbl (w_spi w)) a len in
    if era_sz =? 0 then Some (SPIFLASH_ERR_ERASE_UNALIGNED, w)
    else
      _spiflash_exe fuel
        (snd ((upd_spi (set_addr a) ;;
               upd_spi (set_wr_len len) ;;
               upd_spi (set_op SPIFLASH_OP_ERASE_BLOCK_sWREN)) w)).

Definition SPIFLASH_chip_erase (fuel : nat) (w : world)
    : option (Z * world) :=
  if negb (is_idle (op (w_spi w))) then Some (SPIFLASH_ERR_BUSY, w)
  else
    _spiflash_exe fuel
      (snd (upd_spi (set_op SPIFLASH_OP_ERASE_CHIP_sWREN) w)).

Definition SPIFLASH_is_busy (w : world) : Z :=
  if is_idle (op (w_spi w)) then SPIFLASH_OK else SPIFLASH_ERR_BUSY.

(** A public request with its arguments. *)
Inductive request :=
  | ReqWrite (a len buf : Z)
  | ReqRead (a len buf : Z)
  | ReqFastRead (a len buf : Z)
  | ReqErase (a len : Z)
  | ReqChipErase
  | ReqWriteSr (sr : Z)
  | ReqReadSr (sr : Z)
  | ReqReadSrBusy (busy : Z)
  | ReqReadJedecId (jedec : Z)
  | ReqReadProductId (prod : Z)
  | ReqReadReg (reg data : Z)
  | ReqWriteReg (reg data write_en wait_ms : Z).

Definition run_request (r : request) : nat -> world -> option (Z * world) :=
  match r with
  | ReqWrite a len buf => SPIFLASH_write a len buf
  | ReqRead a len buf => SPIFLASH_read a len buf
  | ReqFastRead a len buf => SPIFLASH_fast_read a len buf
  | ReqErase a len => SPIFLASH_erase a len
  | ReqChipErase => SPIFLASH_chip_erase
  | ReqWriteSr sr => SPIFLASH_write_sr sr
  | ReqReadSr sr => SPIFLASH_read_sr sr
  | ReqReadSrBusy busy => SPIFLASH_read_sr_busy busy
  | ReqReadJedecId jedec => SPIFLASH_read_jedec_id jedec
  | ReqReadProductId prod => SPIFLASH_read_product_id prod
  | ReqReadReg reg data => SPIFLASH_read_reg reg data
  | ReqWriteReg reg data write_en wait_ms =>
      SPIFLASH_write_reg reg data write_en wait_ms
  end.

(** A fresh world around an initialised control block. *)
Definition init_world (s : spiflash_t) (m : Z -> Z) : world :=
  {| w_spi := s; w_mem := m; w_trace := []; w_cb := [] |}.

(** ** Reference definitions for the statements

    What the erase planner is meant to compute, in terms of the table of
    supported block sizes rather than of a bit mask. *)

(** Exponents [k] of the supported erase sizes [2^k], ascending. *)
Definition supported_logs (c : spiflash_cmd_tbl_t) : list Z :=
  (if block_erase_4 c =? 0 then [] else [12]) ++
  (if block_erase_8 c =? 0 then [] else [13]) ++
  (if block_erase_16 c =? 0 then [] else [14]) ++
  (if block_erase_32 c =? 0 then [] else [15]) ++
  (if block_erase_64 c =? 0 then [] else [16]).

Definition supported_blocks (c : spiflash_cmd_tbl_t) : list Z :=
  map (fun k => 2 ^ k) (supported_logs c).

Definition smallest_supported_block (c : spiflash_cmd_tbl_t) : option Z :=
  head (supported_blocks c).

(** One pass over the supported sizes, smallest first, keeping the last
    size that passes the alignment and length tests. *)
Fixpoint scan_blocks (ks : list Z) (addr_lz len res : Z) : Z :=
  match ks with
  | [] => res
  | k :: ks' =>
      scan_blocks ks' addr_lz len
        (if (addr_lz >=? k) && (len >=? 2 ^ k) then 2 ^ k else res)
  end.

(** ** Driving the engine and describing the host

    [triggers k w]: [k] completions in a row, each reported with
    [SPIFLASH_async_trigger(spi, 0)] while the operation is in flight and
    each answered with OK.  This is what the blocking loop of
    [_spiflash_exe] does, and what a host does in asynchronous mode. *)
Fixpoint triggers (k : nat) (w : world) : option world :=
  match k with
  | O => Some w
  | S k' =>
      if is_idle (op (w_spi w)) then None
      else
        let p := SPIFLASH_async_trigger SPIFLASH_OK w in
        if fst p =? SPIFLASH_OK then triggers k' (snd p) else None
  end.

(** What a statement asks of the answer to a transfer: success, and for a
    status-register read additionally a busy or a ready chip. *)
Inductive expect := ExpOk | ExpBusy | ExpReady.

Definition reply_meets (busy_bit : Z) (x : expect) (r : hal_reply) : Prop :=
  fst r = SPIFLASH_OK /\
  match x with
  | ExpOk => True
  | ExpBusy => Z.land (wrap8 (nth 0 (snd r) 0)) busy_bit <> 0
  | ExpReady => Z.land (wrap8 (nth 0 (snd r) 0)) busy_bit = 0
  end.

(** The host answers as the script expects when the driver makes the calls
    of the script, in order, after the calls [tr].  Chip select and wait
    return nothing, so nothing is asked of them. *)
Fixpoint hal_follows (h : spiflash_hal_t) (busy_bit : Z)
    (tr : list hal_event) (sc : list (hal_event * expect)) : Prop :=
  match sc with
  | [] => True
  | (e, x) :: sc' =>
      match e with
      | HalTxrx _ _ _ => reply_meets busy_bit x (h (tr ++ [e]))
      | _ => True
      end /\ hal_follows h busy_bit (tr ++ [e]) sc'
  end.

(** The durations passed to the wait function, in order. *)
Definition waits_of (tr : list hal_event) : list Z :=
  omap (fun e => match e with HalWait ms => Some ms | _ => None end) tr.

(** ** Busy-wait backoff, as the specification words it *)

(** Half of the previous wait, rounded down, but at least one. *)
Definition halve_floor1 (ms : Z) : Z := Z.max 1 (ms / 2).

(** T, T/2, T/4, ...: the nominal wait and one more wait per busy poll. *)
Fixpoint backoff_waits (n : nat) (t : Z) : list Z :=
  match n with
  | O => [t]
  | S n' => t :: backoff_waits n' (halve_floor1 t)
  end.

(** The wait period in force after [n] busy polls. *)
Fixpoint backoff (n : nat) (t : Z) : Z :=
  match n with
  | O => t
  | S n' => backoff n' (DECR_WAIT t)
  end.

(** Status polls after a wait of [t]: [n] busy answers, each followed by
    the release of chip select and a shorter wait, then a ready answer. *)
Fixpoint poll_script (rdsr t : Z) (n : nat) : list (hal_event * expect) :=
  match n with
  | O => [(HalCs 1, ExpOk); (HalTxrx [rdsr] RxSrData 1, ExpReady)]
  | S n' =>
      [(HalCs 1, ExpOk); (HalTxrx [rdsr] RxSrData 1, ExpBusy);
       (HalCs 0, ExpOk); (HalWait (DECR_WAIT t), ExpOk)]
      ++ poll_script rdsr (DECR_WAIT t) n'
  end.

(** The whole busy wait of a step with nominal time [t]. *)
Definition backoff_script (rdsr t : Z) (n : nat) : list (hal_event * expect) :=
  [(HalCs 0, ExpOk); (HalWait t, ExpOk)] ++ poll_script rdsr t n.

(** ** Asynchronous sessions

    The host of an asynchronous driver: after an accepted request every
    completion (of a transfer or of a wait) is reported at once with
    [SPIFLASH_async_trigger(spi, 0)], until the trigger reports the end of
    the operation (an error, or [op] idle), which is when the callback
    fires.  [None] is a session that needs more than [fuel] completions. *)
Fixpoint async_drive (fuel : nat) (w : world) : option (Z * world) :=
  match fuel with
  | O => None
  | S fuel' =>
      let p := SPIFLASH_async_trigger SPIFLASH_OK w in
      if negb (fst p =? SPIFLASH_OK) || is_idle (op (w_spi (snd p)))
      then Some p
      else async_drive fuel' (snd p)
  end.

(** A request whose entry point returns an error has nothing in flight:
    there is no completion to report. *)
Definition after_entry (fuel : nat) (x : option (Z * world))
    : option (Z * world) :=
  match x with
  | None => None
  | Some (res, w) =>
      if res =? SPIFLASH_OK then async_drive fuel w else Some (res, w)
  end.

Definition async_session (r : request) (fuel : nat) (w : world)
    : option (Z * world) :=
  after_entry fuel (run_request r fuel w).

(** The same world with the driver set up as blocking, and as asynchronous
    with a completion callback. *)
Definition sync_world (w : world) : world :=
  snd (upd_spi (set_async SPIFLASH_SYNCHRONOUS) w).

Definition async_world (w : world) : world :=
  snd (upd_spi (fun s => set_async_cb true (set_async SPIFLASH_ASYNCHRONOUS s)) w).

(** How an asynchronous session delivers its result code [res]: through
    the callback, once, when the entry point accepted the request (returned
    OK); as the entry point's own return value, with no callback, when it
    did not. *)
Definition delivered (entry : option (Z * world))
    (la : list (spiflash_op_t * Z)) (res : Z) (wa : world) : Prop :=
  match entry with
  | Some (res0, _) =>
      if res0 =? SPIFLASH_OK
      then exists o, w_cb wa = la ++ [(o, res)]
      else res0 = res /\ w_cb wa = la
  | None => False
  end.

(** The blocking loop and the asynchronous host end alike. *)
Definition same_run (x y : option (Z * world))
    (la : list (spiflash_op_t * Z)) : Prop :=
  match x, y with
  | Some (r1, w1), Some (r2, w2) =>
      r1 = r2 /\ w_trace w1 = w_trace w2 /\
      exists o, w_cb w2 = la ++ [(o, r2)]
  | None, None => True
  | _, _ => False
  end.

Definition agree (fuel : nat) (x_sync x_entry : option (Z * world))
    (la : list (spiflash_op_t * Z)) : Prop :=
  match x_sync, after_entry fuel x_entry with
  | Some (res_s, ws), Some (res_a, wa) =>
      res_s = res_a /\ w_trace ws = w_trace wa /\
      delivered x_entry la res_a wa
  | None, None => True
  | _, _ => False
  end.

(** The world with another mode, callback flag and callback log. *)
Definition remode (a : Z) (cb : bool) (l : list (spiflash_op_t * Z))
    (w : world) : world :=
  {| w_spi := set_async_cb cb (set_async a (w_spi w));
     w_mem := w_mem w; w_trace := w_trace w; w_cb := l |}.

(** The callback entries one trigger adds in the given mode. *)
Definition trigger_callback (a : Z) (cb : bool) (e : Z) (w : world)
    : list (spiflash_op_t * Z) :=
  let p := _spiflash_end_async e w in
  if (negb (fst p =? SPIFLASH_OK) || is_idle (op (w_spi (snd p))))
     && (negb (a =? 0) && cb)
  then [(op (w_spi (snd p)), fst p)] else [].

(** What the address loop does to the scratch buffer alone. *)
Fixpoint compose_buf (c : spiflash_config_t) (n : nat) (i a off : Z)
    (buf : list Z) : list Z :=
  match n with
  | O => buf
  | S n' =>
      compose_buf c n' (i + 1) a off
        (if off + i <? 0 then buf
         else <[Z.to_nat (off + i) := wrap8 (address_byte c a i)]> buf)
  end.

(** ** Page programming, as the specification words it

    [a, a+len) split at each multiple of the page size [P]: the chunks as
    (start, size), in order.  Every chunk has at least one byte, so [len]
    turns are enough. *)
Fixpoint page_split (fuel : nat) (P a len : Z) : list (Z * Z) :=
  match fuel with
  | O => []
  | S fuel' =>
      if len <=? 0 then []
      else
        let n := Z.min len (P - a mod P) in
        (a, n) :: page_split fuel' P (a + n) (len - n)
  end.

Definition page_chunks (P a len : Z) : list (Z * Z) :=
  page_split (Z.to_nat len) P a len.

(** What it means for [chs] to be that split: the chunks follow one
    another from [a] on, none is empty, none crosses a multiple of [P],
    every chunk but the last ends on one, and together they cover [len]
    bytes. *)
Fixpoint split_at_pages (P a len : Z) (chs : list (Z * Z)) : Prop :=
  match chs with
  | [] => len = 0
  | (s, n) :: chs' =>
      s = a /\ 0 < n /\ a mod P + n <= P /\
      (chs' <> [] -> (a + n) mod P = 0) /\
      split_at_pages P (a + n) (len - n) chs'
  end.

(** The host calls of one page program of [size] bytes from caller memory
    at [p] to flash address [start], with [n] busy status polls: write
    enable, opcode and address (and dummy bytes), the data, the nominal
    wait and the polls. *)
Definition chunk_script (c : spiflash_config_t) (cmd : spiflash_cmd_tbl_t)
    (dummy : list Z) (m : Z -> Z) (p : Z) (ch : Z * Z) (n : nat)
    : list (hal_event * expect) :=
  [(HalCs 1, ExpOk); (HalTxrx [write_enable cmd] RxNone 0, ExpOk);
   (HalCs 0, ExpOk);
   (HalCs 1, ExpOk);
   (HalTxrx (page_program cmd :: address_bytes c (fst ch) ++ dummy) RxNone 0,
    ExpOk);
   (HalTxrx (mem_bytes m p (snd ch)) RxNone 0, ExpOk);
   (HalCs 0, ExpOk); (HalWait (page_program_ms c), ExpOk)]
  ++ (if page_program_ms c =? 0 then []
      else poll_script (read_sr cmd) (page_program_ms c) n
           ++ [(HalCs 0, ExpOk)]).

Fixpoint chunks_script (c : spiflash_config_t) (cmd : spiflash_cmd_tbl_t)
    (dummy : list Z) (m : Z -> Z) (p : Z) (chs : list (Z * Z))
    (polls : list nat) : list (hal_event * expect) :=
  match chs with
  | [] => []
  | ch :: chs' =>
      chunk_script c cmd dummy m p ch (hd 0%nat polls)
      ++ chunks_script c cmd dummy m (p + snd ch) chs' (tl polls)
  end.

(** The bytes of the scratch buffer sent as address dummies: the engine
    never writes them. *)
Definition dummy_bytes (c : spiflash_config_t) (scratch : list Z) : list Z :=
  take (Z.to_nat (addr_dummy_sz c)) (drop (Z.to_nat (1 + addr_sz c)) scratch).

Definition write_script (c : spiflash_config_t) (cmd : spiflash_cmd_tbl_t)
    (scratch : list Z) (m : Z -> Z) (a len buf : Z) (polls : list nat)
    : list (hal_event * expect) :=
  chunks_script c cmd (dummy_bytes c scratch) m buf
    (page_chunks (page_sz c) a len) polls
  ++ [(HalCs 0, ExpOk)].

(** The sizes of the page-program payloads in a list of host calls: a
    payload is the transfer that follows the opcode-and-address transfer
    with chip select held, that is, a transfer right after a transfer. *)
Fixpoint payload_sizes (after_txrx : bool) (tr : list hal_event) : list Z :=
  match tr with
  | [] => []
  | HalTxrx tx _ _ :: tr' =>
      (if after_txrx then [Z.of_nat (length tx)] else [])
      ++ payload_sizes true tr'
  | _ :: tr' => payload_sizes false tr'
  end.


(** The two tests of the planner for the size [2^k]: the address has at
    least [k] trailing zeros by the driver's count, and the length is not
    smaller than the size. *)
Definition passes (alz len k : Z) : bool := (alz >=? k) && (len >=? 2 ^ k).

(** ** The scratch buffer between requests

    Reference definitions for what the frames of the read commands rely
    on: the bytes of [tx_internal_buf] after the address stay as
    [SPIFLASH_init] left them. *)

(** The scratch buffer has its 16 bytes and is zero after the address. *)
Definition scratch_ok (c : spiflash_config_t) (buf : list Z) : Prop :=
  length buf = 16%nat /\
  Forall (fun x => x = 0) (drop (Z.to_nat (1 + addr_sz c)) buf).

Definition world_ok (c : spiflash_config_t) (w : world) : Prop :=
  cfg (w_spi w) = c /\ scratch_ok c (tx_internal_buf (w_spi w)).



(** A control block at rest: no operation, no busy check pending. *)
Definition quiescent (s : spiflash_t) : Prop :=
  op s = SPIFLASH_OP_IDLE /\ could_be_busy s = 0 /\
  busy_pre_check s = 0 /\ busy_check_wait s = BCW_IDLE.

(** The fast-read frame: opcode, address, the mandatory dummy byte and the
    [addr_dummy_sz] dummy bytes, all dummies zero. *)
Definition fast_read_frame (c : spiflash_config_t) (cmd : spiflash_cmd_tbl_t)
    (a : Z) : list Z :=
  wrap8 (read_data_fast cmd)
  :: address_bytes c a ++ replicate (Z.to_nat (1 + addr_dummy_sz c)) 0.

(** What a host does with a driver: it issues requests and reports
    completions. *)
Inductive host_step : world -> world -> Prop :=
  | host_request r fuel w res w' :
      run_request r fuel w = Some (res, w') -> host_step w w'
  | host_trigger e w :
      host_step w (snd (SPIFLASH_async_trigger e w)).

Inductive reachable (w0 : world) : world -> Prop :=
  | reach_start : reachable w0 w0
  | reach_step w w' : reachable w0 w -> host_step w w' -> reachable w0 w'.

(** The number a list of bytes stands for, least significant byte first
    and most significant byte first. *)
Fixpoint le_value (bs : list Z) : Z :=
  match bs with
  | [] => 0
  | b :: bs' => b + 256 * le_value bs'
  end.

Fixpoint be_value_from (acc : Z) (bs : list Z) : Z :=
  match bs with
  | [] => acc
  | b :: bs' => be_value_from (256 * acc + b) bs'
  end.

Definition be_value (bs : list Z) : Z := be_value_from 0 bs.

(** The erase blocks of an erase of [len] bytes from [a] on, as the engine
    asks the planner for them: one block per erase step, the cursor and
    the remaining length updated as in the step, until nothing remains. *)
Fixpoint erase_plan (fuel : nat) (c : spiflash_cmd_tbl_t) (a len : Z)
    : list (Z * Z) :=
  match fuel with
  | O => []
  | S fuel' =>
      if len =? 0 then []
      else
        let blk := _spiflash_get_largest_erase_area c a len in
        (a, blk) :: erase_plan fuel' c (wrap32 (a + blk)) (wrap32 (len - blk))
  end.

(** What it means for [plan] to cover [len] bytes from [a] on with
    supported erase blocks: the blocks follow one another, each is a
    supported size not larger than what remains, on an even cursor each is
    the largest supported size that divides the cursor and fits, and
    together they cover [len] bytes. *)
Fixpoint erase_cover (c : spiflash_cmd_tbl_t) (a len : Z)
    (plan : list (Z * Z)) : Prop :=
  match plan with
  | [] => len = 0
  | (s, blk) :: plan' =>
      s = a /\ In blk (supported_blocks c) /\ blk <= len /\
      (Z.even a = true ->
       a mod blk = 0 /\
       forall blk', In blk' (supported_blocks c) ->
                    a mod blk' = 0 -> blk' <= len -> blk' <= blk) /\
      erase_cover c (wrap32 (a + blk)) (len - blk) plan'
  end.

(** The part of the control block that [SPIFLASH_init] sets and that no
    operation is meant to change. *)
Definition fixed_part (s : spiflash_t)
    : spiflash_config_t * spiflash_cmd_tbl_t * spiflash_hal_t * bool * Z * Z :=
  (cfg s, cmd_tbl s, hal s, async_cb s, async s, could_be_busy s).

(** Where the operation in flight stores what it receives in caller
    memory: start and length, length 0 for an operation that receives
    nothing there. *)
Definition rx_window (s : spiflash_t) : Z * Z :=
  match op s with
  | SPIFLASH_OP_READ | SPIFLASH_OP_FAST_READ => (rd_buf s, rd_len s)
  | SPIFLASH_OP_READ_JEDEC | SPIFLASH_OP_READ_PRODUCT => (id_dst s, 3)
  | SPIFLASH_OP_READ_SR | SPIFLASH_OP_READ_SR_BUSY | SPIFLASH_OP_READ_REG =>
      (sr_dst s, 1)
  | _ => (0, 0)
  end.

(** The destination a request names: the read buffer with its length, one
    byte for a status or register read, three bytes for an id. *)
Definition request_window (r : request) : Z * Z :=
  match r with
  | ReqRead _ len buf | ReqFastRead _ len buf => (buf, len)
  | ReqReadSr p | ReqReadSrBusy p | ReqReadReg _ p => (p, 1)
  | ReqReadJedecId p | ReqReadProductId p => (p, 3)
  | _ => (0, 0)
  end.

Definition in_window (p : Z * Z) (x : Z) : Prop :=
  fst p <= x < fst p + snd p.

(** The operations that are one transfer long: the engine is done when
    the transfer has completed. *)
Definition single_transfer (o : spiflash_op_t) : bool :=
  match o with
  | SPIFLASH_OP_READ | SPIFLASH_OP_FAST_READ | SPIFLASH_OP_READ_SR
  | SPIFLASH_OP_READ_JEDEC | SPIFLASH_OP_READ_PRODUCT | SPIFLASH_OP_READ_REG
  | SPIFLASH_OP_WRITE_REG_DATA => true
  | _ => false
  end.

(** The frame of a read: opcode, address, [addr_dummy_sz] zero bytes. *)
Definition read_frame (c : spiflash_config_t) (cmd : spiflash_cmd_tbl_t)
    (a : Z) : list Z :=
  wrap8 (read_data cmd)
  :: address_bytes c a ++ replicate (Z.to_nat (addr_dummy_sz c)) 0.

(** The host calls of a blocking request that is one transfer long, after
    the calls [tr]: chip select, the transfer, and the release of chip
    select when the transfer succeeded. *)
Definition transfer_calls (h : spiflash_hal_t) (tr : list hal_event)
    (tx : list Z) (rx : rx_target) (n : Z) : list hal_event :=
  [HalCs 1; HalTxrx tx rx n]
  ++ (if fst (h (tr ++ [HalCs 1; HalTxrx tx rx n])) =? SPIFLASH_OK
      then [HalCs 0] else []).

(** What the host answers to that transfer. *)
Definition transfer_reply (h : spiflash_hal_t) (tr : list hal_event)
    (tx : list Z) (rx : rx_target) (n : Z) : hal_reply :=
  h (tr ++ [HalCs 1; HalTxrx tx rx n]).

(** The states whose step is the last of the operation, given the length
    that remains after the step. *)
Definition last_step (o : spiflash_op_t) (l : Z) : bool :=
  match o with
  | SPIFLASH_OP_WRITE_SR_sDATA | SPIFLASH_OP_ERASE_CHIP_sERAS
  | SPIFLASH_OP_WRITE_REG_sDATAWAIT => true
  | SPIFLASH_OP_ERASE_BLOCK_sERAS | SPIFLASH_OP_WRITE_sDATA => l =? 0
  | _ => false
  end.

(** The host calls of the busy wait after a command with nominal time
    [t]: release of chip select and the wait; then, unless [t] is 0, the
    status polls with [n] busy answers and the release of chip select. *)
Definition wait_script (rdsr t : Z) (n : nat) : list (hal_event * expect) :=
  [(HalCs 0, ExpOk); (HalWait t, ExpOk)]
  ++ (if t =? 0 then []
      else poll_script rdsr t n ++ [(HalCs 0, ExpOk)]).

(** The host calls of a command under write enable: the write-enable
    frame, the command frame, the busy wait. *)
Definition command_script (cmd : spiflash_cmd_tbl_t) (frame : list Z)
    (t : Z) (n : nat) : list (hal_event * expect) :=
  [(HalCs 1, ExpOk); (HalTxrx [write_enable cmd] RxNone 0, ExpOk);
   (HalCs 0, ExpOk);
   (HalCs 1, ExpOk); (HalTxrx frame RxNone 0, ExpOk)]
  ++ wait_script (read_sr cmd) t n.

(** The host calls of one erase step: write enable, the erase opcode of
    the block size with the address of the cursor (and dummy bytes), the
    wait of the nominal time of that size with [n] busy status polls. *)
Definition erase_block_script (c : spiflash_config_t)
    (cmd : spiflash_cmd_tbl_t) (dummy : list Z) (blk : Z * Z) (n : nat)
    : list (hal_event * expect) :=
  command_script cmd
    (wrap8 (_spiflash_get_erase_cmd cmd (snd blk))
     :: address_bytes c (fst blk) ++ dummy)
    (_spiflash_get_erase_time c (snd blk)) n.

Fixpoint erase_blocks_script (c : spiflash_config_t)
    (cmd : spiflash_cmd_tbl_t) (dummy : list Z) (plan : list (Z * Z))
    (polls : list nat) : list (hal_event * expect) :=
  match plan with
  | [] => []
  | blk :: plan' =>
      erase_block_script c cmd dummy blk (hd 0%nat polls)
      ++ erase_blocks_script c cmd dummy plan' (tl polls)
  end.

Definition erase_script (c : spiflash_config_t) (cmd : spiflash_cmd_tbl_t)
    (scratch : list Z) (a len : Z) (polls : list nat)
    : list (hal_event * expect) :=
  erase_blocks_script c cmd (dummy_bytes c scratch)
    (erase_plan (Z.to_nat (len / 4096)) cmd a len) polls
  ++ [(HalCs 0, ExpOk)].

(** A host whose transfers all succeed and whose chip always reports
    busy. *)
Definition always_busy (h : spiflash_hal_t) (busy_bit : Z) : Prop :=
  forall tr,
    fst (h tr) = SPIFLASH_OK /\
    Z.land (wrap8 (nth 0 (snd (h tr)) 0)) busy_bit <> 0.

(** Whether the entry point of a request takes it: the driver is idle
    and, for an erase, the planner has an answer. *)
Definition accepted (r : request) (w : world) : bool :=
  is_idle (op (w_spi w)) &&
  match r with
  | ReqErase a len =>
      negb (_spiflash_get_largest_erase_area (cmd_tbl (w_spi w)) a len =? 0)
  | _ => true
  end.

(** The page-program payloads in a list of host calls, as the bytes
    sent: a payload is a transfer right after a transfer (see
    [payload_sizes]). *)
Fixpoint payload_data (after_txrx : bool) (tr : list hal_event)
    : list (list Z) :=
  match tr with
  | [] => []
  | HalTxrx tx _ _ :: tr' =>
      (if after_txrx then [tx] else []) ++ payload_data true tr'
  | _ :: tr' => payload_data false tr'
  end.

(** ** Concrete configurations used in examples *)

(** Three address bytes, big-endian, 256-byte pages. *)
Definition cfg_be3 : spiflash_config_t := {|
  sz := 1048576; page_sz := 256; addr_sz := 3; addr_dummy_sz := 0;
  addr_endian := SPIFLASH_ENDIANNESS_BIG;
  sr_write_ms := 10; page_program_ms := 3;
  block_erase_4_ms := 100; block_erase_8_ms := 0; block_erase_16_ms := 0;
  block_erase_32_ms := 300; block_erase_64_ms := 600; chip_erase_ms := 5000
|}.

(** The same chip with the address sent least significant byte first. *)
Definition cfg_le3 : spiflash_config_t := {|
  sz := 1048576; page_sz := 256; addr_sz := 3; addr_dummy_sz := 0;
  addr_endian := SPIFLASH_ENDIANNESS_LITTLE;
  sr_write_ms := 10; page_program_ms := 3;
  block_erase_4_ms := 100; block_erase_8_ms := 0; block_erase_16_ms := 0;
  block_erase_32_ms := 300; block_erase_64_ms := 600; chip_erase_ms := 5000
|}.

(** A host whose transfers succeed and whose chip is never busy. *)
Definition hal_ready : spiflash_hal_t := fun _ => (0, [0]).

(** A host whose transfers all fail with code -1. *)
Definition hal_failing : spiflash_hal_t := fun _ => (-1, []).

Definition caller_mem : Z -> Z := fun a => a mod 256.

Definition world_be3 : world :=
  init_world
    (SPIFLASH_init cfg_be3 SPIFLASH_CMD_TBL_STANDARD hal_ready false
       SPIFLASH_SYNCHRONOUS)
    caller_mem.

Definition world_le3 : world :=
  init_world
    (SPIFLASH_init cfg_le3 SPIFLASH_CMD_TBL_STANDARD hal_ready false
       SPIFLASH_SYNCHRONOUS)
    caller_mem.

(** A driver in the middle of a write. *)
Definition world_writing : world :=
  snd (upd_spi (set_op SPIFLASH_OP_WRITE_sDATA) world_be3).

(** A chip that reports busy on the first two status polls. *)
Definition hal_busy_twice : spiflash_hal_t :=
  fun tr => (0, [if (length tr <=? 8)%nat then 1 else 0]).

(** A driver that has just sent the data of a page program and is about
    to wait the nominal 10 ms. *)
Definition world_after_program : world :=
  init_world
    (set_busy_check_wait BCW_WAIT
       (set_wait_period_ms 10
          (set_op SPIFLASH_OP_WRITE_sDATA
             (SPIFLASH_init cfg_be3 SPIFLASH_CMD_TBL_STANDARD hal_busy_twice
                false SPIFLASH_SYNCHRONOUS))))
    caller_mem.

(** A blocking driver on a bus whose transfers fail. *)
Definition world_failing_sync : world :=
  init_world
    (SPIFLASH_init cfg_be3 SPIFLASH_CMD_TBL_STANDARD hal_failing false
       SPIFLASH_SYNCHRONOUS)
    caller_mem.

(** An asynchronous driver, with a callback, that was told the chip may
    still be busy, on a chip that is. *)
Definition hal_busy : spiflash_hal_t := fun _ => (0, [1]).

Definition world_busy_async : world :=
  init_world
    (set_could_be_busy 1
       (SPIFLASH_init cfg_be3 SPIFLASH_CMD_TBL_STANDARD hal_busy true
          SPIFLASH_ASYNCHRONOUS))
    caller_mem.

(** A chip addressed with no address bytes at all. *)
Definition cfg_addr0 : spiflash_config_t := {|
  sz := 1048576; page_sz := 256; addr_sz := 0; addr_dummy_sz := 0;
  addr_endian := SPIFLASH_ENDIANNESS_BIG;
  sr_write_ms := 10; page_program_ms := 3;
  block_erase_4_ms := 100; block_erase_8_ms := 0; block_erase_16_ms := 0;
  block_erase_32_ms := 300; block_erase_64_ms := 600; chip_erase_ms := 5000
|}.

Definition world_addr0 : world :=
  init_world
    (SPIFLASH_init cfg_addr0 SPIFLASH_CMD_TBL_STANDARD hal_ready false
       SPIFLASH_SYNCHRONOUS)
    caller_mem.

(** The result code and the new host calls of a finished request. *)
Definition outcome (r : option (Z * world)) : option (Z * list hal_event) :=
  match r with
  | Some (res, w) => Some (res, w_trace w)
  | None => None
  end.

(** [r1] then [r2], the second on the world the first one left. *)
Definition then_request (r1 r2 : request) (fuel : nat) (w : world)
    : option (Z * world) :=
  match run_request r1 fuel w with
  | Some (_, w') => run_request r2 fuel w'
  | None => None
  end.

(** A chip with 264-byte pages. *)
Definition cfg_page264 : spiflash_config_t := {|
  sz := 1081344; page_sz := 264; addr_sz := 3; addr_dummy_sz := 0;
  addr_endian := SPIFLASH_ENDIANNESS_BIG;
  sr_write_ms := 10; page_program_ms := 3;
  block_erase_4_ms := 100; block_erase_8_ms := 0; block_erase_16_ms := 0;
  block_erase_32_ms := 300; block_erase_64_ms := 600; chip_erase_ms := 5000
|}.

Definition world_page264 : world :=
  init_world
    (SPIFLASH_init cfg_page264 SPIFLASH_CMD_TBL_STANDARD hal_ready false
       SPIFLASH_SYNCHRONOUS)
    caller_mem.

(** A blocking driver on a chip that stays busy. *)
Definition world_stuck : world :=
  init_world
    (SPIFLASH_init cfg_be3 SPIFLASH_CMD_TBL_STANDARD hal_busy false
       SPIFLASH_SYNCHRONOUS)
    caller_mem.

(** The same driver, told that the chip could be busy. *)
Definition world_could_be_busy : world :=
  init_world
    (set_could_be_busy 1
       (SPIFLASH_init cfg_be3 SPIFLASH_CMD_TBL_STANDARD hal_busy false
          SPIFLASH_SYNCHRONOUS))
    caller_mem.

(** An asynchronous driver with a callback on a ready chip. *)
Definition world_async_ready : world :=
  init_world
    (SPIFLASH_init cfg_be3 SPIFLASH_CMD_TBL_STANDARD hal_ready true
       SPIFLASH_ASYNCHRONOUS)
    caller_mem.


(** * Properties *)

(** ** Address frame encoder *)

Lemma sixteen_bytes (l : list Z) :
  length l = 16%nat ->
  exists b0 b1 b2 b3 b4 b5 b6 b7 b8 b9 b10 b11 b12 b13 b14 b15,
    l = [b0; b1; b2; b3; b4; b5; b6; b7; b8; b9; b10; b11; b12; b13; b14; b15].
Proof.
  intros H.
  do 16 (destruct l as [|? l]; [discriminate H|]).
  destruct l; [|discriminate H].
  repeat eexists.
Qed.

(** C4 (as amended): with addr = 0x01020304 and addr_sz = 3 the address
    bytes placed after the opcode are 02 03 04 in the big-endian
    configuration and 04 03 02 in the little-endian one; in both the high
    byte 01 is the one dropped. *)
Theorem compose_address_endianness (s : spiflash_t) :
  length (tx_internal_buf s) = 16%nat ->
  addr_sz (cfg s) = 3 ->
  (addr_endian (cfg s) = SPIFLASH_ENDIANNESS_BIG ->
   take 3 (drop 1 (tx_internal_buf (_spiflash_compose_address 0x01020304 1 s)))
   = [0x02; 0x03; 0x04]) /\
  (addr_endian (cfg s) = SPIFLASH_ENDIANNESS_LITTLE ->
   take 3 (drop 1 (tx_internal_buf (_spiflash_compose_address 0x01020304 1 s)))
   = [0x04; 0x03; 0x02]).
Proof.
  intros Hlen Hsz.
  destruct (sixteen_bytes _ Hlen) as (b0 & b1 & b2 & b3 & b4 & b5 & b6 & b7
    & b8 & b9 & b10 & b11 & b12 & b13 & b14 & b15 & Hbuf).
  destruct s as [c ? ? ? ? ? ? ? ? ? ? ? ? buf], c; cbn in Hsz, Hbuf |- *.
  subst.
  split; intros ->; reflexivity.
Qed.

Lemma compose_address_endianness_witness :
  take 3 (drop 1 (tx_internal_buf
    (_spiflash_compose_address 0x01020304 1 (w_spi world_be3))))
  = [0x02; 0x03; 0x04] /\
  take 3 (drop 1 (tx_internal_buf
    (_spiflash_compose_address 0x01020304 1 (w_spi world_le3))))
  = [0x04; 0x03; 0x02].
Proof.
  split.
  - apply (compose_address_endianness (w_spi world_be3)); reflexivity.
  - apply (compose_address_endianness (w_spi world_le3)); reflexivity.
Defined.

(** C4 as stated fails: the big-endian frame of 0x01020304 with three
    address bytes is not 01 02 03. *)
Lemma compose_address_big_endian_not_010203 :
  take 3 (drop 1 (tx_internal_buf
    (_spiflash_compose_address 0x01020304 1 (w_spi world_be3))))
  <> [0x01; 0x02; 0x03].
Proof. vm_compute. discriminate. Qed.

(** ** Erase planner *)

(** The bit-mask scan of [_spiflash_get_largest_erase_area] is one pass
    over the supported sizes; with no supported size it answers 0. *)
Lemma largest_erase_area_scan (c : spiflash_cmd_tbl_t) (a len : Z) :
  _spiflash_get_largest_erase_area c a len =
  match supported_logs c with
  | [] => 0
  | k0 :: _ =>
      if negb (Z.land len (Z.ones k0) =? 0) then 0
      else scan_blocks (supported_logs c) (_spiflash_clz a) len 0
  end.
Proof.
  unfold _spiflash_get_largest_erase_area, _spiflash_get_supported_block_mask,
    supported_logs.
  generalize (_spiflash_clz a); intros alz.
  destruct (block_erase_4 c =? 0), (block_erase_8 c =? 0),
    (block_erase_16 c =? 0), (block_erase_32 c =? 0),
    (block_erase_64 c =? 0);
    try reflexivity.
  change ((if negb (Z.land len (2 ^ 32 - 1) =? 0) then 0 else 0) = 0).
  destruct (negb _); reflexivity.
Qed.

Lemma supported_logs_range (c : spiflash_cmd_tbl_t) (k : Z) :
  In k (supported_logs c) -> 12 <= k <= 16.
Proof.
  unfold supported_logs.
  destruct (block_erase_4 c =? 0), (block_erase_8 c =? 0),
    (block_erase_16 c =? 0), (block_erase_32 c =? 0),
    (block_erase_64 c =? 0); cbn; intuition lia.
Qed.

Lemma scan_blocks_zero_len (ks : list Z) (alz res : Z) :
  (forall k, In k ks -> 0 <= k) ->
  scan_blocks ks alz 0 res = res.
Proof.
  revert res. induction ks as [|k ks IH]; intros res Hk; cbn [scan_blocks].
  - reflexivity.
  - assert (0 < 2 ^ k) by (apply Z.pow_pos_nonneg; [lia | apply Hk; left; reflexivity]).
    replace (0 >=? 2 ^ k) with false
      by (symmetry; rewrite Z.geb_leb; apply Z.leb_gt; lia).
    rewrite andb_false_r. apply IH. intros k' Hin. apply Hk. right. exact Hin.
Qed.

(** C7: an erase whose length is not a multiple of the smallest supported
    erase block returns ErasureUnaligned; the world (control block, caller
    memory, host calls made, callbacks) is the one before the call. *)
Theorem erase_unaligned_rejected (w : world) (a len blk : Z) (fuel : nat) :
  op (w_spi w) = SPIFLASH_OP_IDLE ->
  smallest_supported_block (cmd_tbl (w_spi w)) = Some blk ->
  len mod blk <> 0 ->
  SPIFLASH_erase a len fuel w = Some (SPIFLASH_ERR_ERASE_UNALIGNED, w).
Proof.
  intros Hop Hblk Hmod.
  unfold SPIFLASH_erase. rewrite Hop. cbn [is_idle negb].
  rewrite largest_erase_area_scan.
  unfold smallest_supported_block, supported_blocks in Hblk.
  pose proof (supported_logs_range (cmd_tbl (w_spi w))) as Hrange.
  destruct (supported_logs (cmd_tbl (w_spi w))) as [|k0 ks]; [discriminate Hblk|].
  cbn in Hblk. injection Hblk as <-.
  assert (12 <= k0 <= 16) as Hk0 by (apply Hrange; left; reflexivity).
  rewrite Z.land_ones by lia.
  destruct (len mod 2 ^ k0 =? 0) eqn:E.
  - apply Z.eqb_eq in E. contradiction.
  - reflexivity.
Qed.

Lemma erase_unaligned_rejected_witness :
  SPIFLASH_erase 0 0x1800 0 world_be3
  = Some (SPIFLASH_ERR_ERASE_UNALIGNED, world_be3).
Proof.
  apply (erase_unaligned_rejected world_be3 0 0x1800 4096 0).
  - reflexivity.
  - reflexivity.
  - vm_compute. discriminate.
Defined.

(** C10: erase(addr, 0) on an idle driver returns ErasureUnaligned and
    leaves the world as it was (no host call): the planner answers 0 for a
    zero length, whatever the address and the command table, and the entry
    point turns the 0 into ErasureUnaligned. *)
Theorem erase_zero_length_rejected (w : world) (a : Z) (fuel : nat) :
  op (w_spi w) = SPIFLASH_OP_IDLE ->
  _spiflash_get_largest_erase_area (cmd_tbl (w_spi w)) a 0 = 0 /\
  SPIFLASH_erase a 0 fuel w = Some (SPIFLASH_ERR_ERASE_UNALIGNED, w).
Proof.
  intros Hop.
  assert (_spiflash_get_largest_erase_area (cmd_tbl (w_spi w)) a 0 = 0) as H0.
  { rewrite largest_erase_area_scan.
    pose proof (supported_logs_range (cmd_tbl (w_spi w))) as Hrange.
    destruct (supported_logs (cmd_tbl (w_spi w))) as [|k0 ks] eqn:E; [reflexivity|].
    destruct (negb _); [reflexivity|].
    apply scan_blocks_zero_len. intros k Hin. apply Hrange in Hin. lia. }
  split; [exact H0|].
  unfold SPIFLASH_erase. rewrite Hop, H0. reflexivity.
Qed.

Lemma erase_zero_length_rejected_witness :
  _spiflash_get_largest_erase_area (cmd_tbl (w_spi world_be3)) 0x3000 0 = 0 /\
  SPIFLASH_erase 0x3000 0 5 world_be3
  = Some (SPIFLASH_ERR_ERASE_UNALIGNED, world_be3).
Proof.
  apply (erase_zero_length_rejected world_be3 0x3000 5). reflexivity.
Defined.

Lemma debruijn_entry_range (i : nat) :
  0 <= nth i MultiplyDeBruijnBitPosition 0 <= 32.
Proof.
  do 32 (destruct i as [|i]; [cbn; lia|]).
  destruct i; cbn; lia.
Qed.

Lemma clz_range (v : Z) : 0 <= _spiflash_clz v <= 32.
Proof. apply debruijn_entry_range. Qed.

(** Sixteen turns are enough for the scan of a 16-bit mask: the loop has
    ended by then, so more fuel changes nothing. *)
Lemma erase_area_loop_fuel (fuel : nat) :
  forall extra bm bm_lz addr_lz len res,
    0 <= bm < 2 ^ Z.of_nat fuel ->
    erase_area_loop (fuel + extra) bm bm_lz addr_lz len res
    = erase_area_loop fuel bm bm_lz addr_lz len res.
Proof.
  induction fuel as [|fuel IH]; intros extra bm bm_lz addr_lz len res Hbm.
  - assert (bm = 0) as -> by (cbn in Hbm; lia).
    destruct extra; reflexivity.
  - cbn [Nat.add erase_area_loop].
    destruct (bm =? 0) eqn:E; [reflexivity|].
    apply Z.eqb_neq in E.
    apply IH.
    set (new := if _spiflash_clz (Z.shiftr bm 1) =? 32 then 0
                else _spiflash_clz (Z.shiftr bm 1)).
    assert (0 <= new) as Hnew.
    { subst new. pose proof (clz_range (Z.shiftr bm 1)).
      destruct (_ =? 32); lia. }
    rewrite Nat2Z.inj_succ, Z.pow_succ_r in Hbm by lia.
    rewrite !Z.shiftr_div_pow2 by lia.
    assert (0 < 2 ^ new) by (apply Z.pow_pos_nonneg; lia).
    assert (0 <= bm / 2 ^ 1 < 2 ^ Z.of_nat fuel).
    { change (2 ^ 1) with 2. split.
      - apply Z.div_pos; lia.
      - apply Z.div_lt_upper_bound; lia. }
    split.
    + apply Z.div_pos; lia.
    + apply Z.le_lt_trans with (bm / 2 ^ 1); [|lia].
      apply Z.div_le_upper_bound; [lia|]. nia.
Qed.

(** ** The trailing-zero count *)

Lemma lowest_bit_of_odd (m : Z) : Z.odd m = true -> Z.land m (- m) = 1.
Proof.
  intros Hodd.
  assert (m = 2 * (m / 2) + 1) as Hm.
  { rewrite (Z.div_mod m 2) at 1 by lia. rewrite Zmod_odd, Hodd. reflexivity. }
  set (q := m / 2) in Hm. clearbody q. subst m.
  apply Z.bits_inj'. intros n Hn.
  rewrite Z.land_spec.
  destruct (Z.eq_dec n 0) as [->|Hpos].
  - rewrite !Z.bit0_odd, Z.odd_opp, Hodd. reflexivity.
  - replace n with (Z.succ (n - 1)) by lia.
    replace (- (2 * q + 1)) with (Z.lnot (2 * q)) by (unfold Z.lnot; lia).
    rewrite Z.lnot_spec by lia.
    rewrite Z.testbit_odd_succ, Z.testbit_even_succ by lia.
    rewrite andb_negb_r.
    change 1 with (2 * 0 + 1). rewrite Z.testbit_odd_succ by lia.
    rewrite Z.bits_0. reflexivity.
Qed.

Lemma lowest_bit (j m : Z) :
  0 <= j < 32 -> Z.odd m = true ->
  Z.land (2 ^ j * m) (wrap32 (- (2 ^ j * m))) = 2 ^ j.
Proof.
  intros Hj Hodd. unfold wrap32.
  rewrite <- Z.land_ones by lia.
  rewrite Z.land_assoc.
  replace (2 ^ j * m) with (Z.shiftl m j) by (rewrite Z.shiftl_mul_pow2; lia).
  replace (- Z.shiftl m j) with (Z.shiftl (- m) j)
    by (rewrite !Z.shiftl_mul_pow2; lia).
  rewrite <- Z.shiftl_land, lowest_bit_of_odd by exact Hodd.
  rewrite Z.shiftl_1_l, Z.land_ones by lia.
  apply Z.mod_small. split; [apply Z.pow_nonneg; lia|].
  apply Z.pow_lt_mono_r; lia.
Qed.

Lemma pos_odd_part (p : positive) :
  exists j m, 0 <= j /\ Z.odd m = true /\ 0 < m /\ Z.pos p = 2 ^ j * m.
Proof.
  induction p as [p IH|p IH|].
  - exists 0, (Z.pos p~1). repeat split; lia.
  - destruct IH as (j & m & Hj & Hodd & Hm & Hp).
    exists (j + 1), m. repeat split; [lia|exact Hodd|lia|].
    rewrite Z.pow_add_r, Pos2Z.inj_xO, Hp by lia. lia.
  - exists 0, 1. repeat split; lia.
Qed.

Lemma debruijn_lookup (n : nat) :
  (n < 32)%nat ->
  nth (Z.to_nat (Z.shiftr (wrap32 (2 ^ Z.of_nat n * 0x077CB531)) 27))
    MultiplyDeBruijnBitPosition 0
  = if (n =? 0)%nat then 32 else Z.of_nat n.
Proof.
  intros Hn.
  do 32 (destruct n as [|n]; [vm_compute; reflexivity|]).
  lia.
Qed.

(** For a value that is not odd, [_spiflash_clz] is the number of
    trailing zero bits, and 32 for 0. *)
Lemma clz_even (j m : Z) :
  1 <= j -> Z.odd m = true -> 0 < m -> 2 ^ j * m < 2 ^ 32 ->
  _spiflash_clz (2 ^ j * m) = j.
Proof.
  intros Hj Hodd Hm Hlt.
  assert (j < 32) as Hj32.
  { destruct (Z.lt_ge_cases j 32) as [|Hge]; [assumption|].
    assert (2 ^ 32 <= 2 ^ j) by (apply Z.pow_le_mono_r; lia). nia. }
  unfold _spiflash_clz. rewrite lowest_bit by (try exact Hodd; lia).
  rewrite <- (Z2Nat.id j) by lia.
  rewrite debruijn_lookup by lia.
  destruct (Z.to_nat j =? 0)%nat eqn:E; [|reflexivity].
  apply Nat.eqb_eq in E. lia.
Qed.

(** The alignment test of the planner is right for every address that is
    not odd. *)
Lemma clz_alignment (a k : Z) :
  Z.even a = true -> 0 <= a < 2 ^ 32 -> 1 <= k <= 31 ->
  (_spiflash_clz a >=? k) = (a mod 2 ^ k =? 0).
Proof.
  intros Heven Ha Hk.
  assert (0 < 2 ^ k) as Hpk by (apply Z.pow_pos_nonneg; lia).
  destruct a as [|p|p]; [| |lia].
  - rewrite Z.mod_0_l by lia. change (_spiflash_clz 0) with 32.
    rewrite Z.geb_leb, Z.eqb_refl. apply Z.leb_le. lia.
  - destruct (pos_odd_part p) as (j & m & Hj & Hodd & Hm & Hp).
    rewrite Hp in *.
    assert (1 <= j) as Hj1.
    { destruct (Z.eq_dec j 0) as [->|]; [|lia].
      rewrite Z.pow_0_r, Z.mul_1_l in Heven.
      rewrite <- Z.negb_odd, Hodd in Heven. discriminate Heven. }
    rewrite clz_even by (try assumption; lia).
    rewrite Z.geb_leb.
    destruct (Z.le_gt_cases k j) as [Hle|Hgt].
    + replace (2 ^ j * m) with (2 ^ (j - k) * m * 2 ^ k)
        by (replace j with ((j - k) + k) at 2 by lia;
            rewrite Z.pow_add_r by lia; ring).
      rewrite Z.mod_mul by lia.
      rewrite Z.eqb_refl. apply Z.leb_le. exact Hle.
    + replace (k <=? j) with false by (symmetry; apply Z.leb_gt; lia).
      symmetry. apply Z.eqb_neq. intros Hmod.
      apply Z.mod_divide in Hmod; [|lia].
      destruct Hmod as [q Hq].
      replace (2 ^ k) with (2 ^ (k - j) * 2 ^ j) in Hq
        by (rewrite <- Z.pow_add_r by lia; f_equal; lia).
      assert (0 < 2 ^ j) by (apply Z.pow_pos_nonneg; lia).
      assert (m = q * 2 ^ (k - j)) as Hmq by nia.
      replace (k - j) with (Z.succ (k - j - 1)) in Hmq by lia.
      rewrite Z.pow_succ_r in Hmq by lia.
      rewrite Hmq in Hodd.
      replace (q * (2 * 2 ^ (k - j - 1))) with (2 * (q * 2 ^ (k - j - 1))) in Hodd by ring.
      rewrite Z.odd_mul in Hodd. discriminate Hodd.
Qed.

Lemma scan_blocks_spec (alz len : Z) (ks : list Z) :
  forall res,
    StronglySorted Z.lt ks ->
    (scan_blocks ks alz len res = res /\
     forall k, In k ks -> passes alz len k = false) \/
    (exists k,
       In k ks /\ scan_blocks ks alz len res = 2 ^ k /\
       passes alz len k = true /\
       forall k', In k' ks -> passes alz len k' = true -> k' <= k).
Proof.
  induction ks as [|k ks IH]; intros res Hsorted.
  - left. split; [reflexivity|]. intros k [].
  - inversion Hsorted as [|? ? Hs Hlt]; subst.
    cbn [scan_blocks]. fold (passes alz len k).
    destruct (IH (if passes alz len k then 2 ^ k else res) Hs)
      as [[Hr Hnone]|(k1 & Hin & Hr & Hpass & Hmax)].
    + rewrite Hr. destruct (passes alz len k) eqn:E.
      * right. exists k. split; [left; reflexivity|].
        split; [reflexivity|]. split; [exact E|].
        intros k' [->|Hin'] Hp; [lia|].
        rewrite (Hnone k' Hin') in Hp. discriminate Hp.
      * left. split; [reflexivity|].
        intros k' [->|Hin']; [exact E|apply Hnone; exact Hin'].
    + right. exists k1. split; [right; exact Hin|].
      split; [exact Hr|]. split; [exact Hpass|].
      intros k' [->|Hin'] Hp.
      * rewrite Forall_forall in Hlt. specialize (Hlt k1).
        assert (k' < k1); [|lia]. apply Hlt.
        apply list_elem_of_In. exact Hin.
      * apply Hmax; assumption.
Qed.

Lemma supported_logs_sorted (c : spiflash_cmd_tbl_t) :
  StronglySorted Z.lt (supported_logs c).
Proof.
  unfold supported_logs.
  destruct (block_erase_4 c =? 0), (block_erase_8 c =? 0),
    (block_erase_16 c =? 0), (block_erase_32 c =? 0),
    (block_erase_64 c =? 0); cbn;
    repeat (constructor; [|repeat (constructor; try lia)]); constructor.
Qed.

(** For an address that is not odd the planner's answer, when it is
    not 0, is the largest supported erase size that divides the address
    and is not larger than the length. *)
Lemma planner_choice_even_address (c : spiflash_cmd_tbl_t) (a len : Z) :
  Z.even a = true -> 0 <= a < 2 ^ 32 ->
  _spiflash_get_largest_erase_area c a len <> 0 ->
  exists blk,
    _spiflash_get_largest_erase_area c a len = blk /\
    In blk (supported_blocks c) /\ a mod blk = 0 /\ blk <= len /\
    forall blk',
      In blk' (supported_blocks c) -> a mod blk' = 0 -> blk' <= len ->
      blk' <= blk.
Proof.
  intros Heven Ha Hnz.
  rewrite largest_erase_area_scan in Hnz |- *.
  pose proof (supported_logs_range c) as Hrange.
  pose proof (supported_logs_sorted c) as Hsorted.
  unfold supported_blocks.
  destruct (supported_logs c) as [|k0 ks] eqn:Eks; [contradiction|].
  destruct (negb (Z.land len (Z.ones k0) =? 0)); [contradiction|].
  destruct (scan_blocks_spec (_spiflash_clz a) len (k0 :: ks) 0 Hsorted)
    as [[Hr _]|(k & Hin & Hr & Hpass & Hmax)]; [contradiction|].
  exists (2 ^ k). split; [exact Hr|].
  unfold passes in Hpass. apply andb_prop in Hpass. destruct Hpass as [Hal Hle].
  pose proof (Hrange k Hin) as Hk.
  rewrite clz_alignment in Hal by (try assumption; lia).
  apply Z.eqb_eq in Hal. rewrite Z.geb_leb in Hle. apply Z.leb_le in Hle.
  split; [apply in_map; exact Hin|]. split; [exact Hal|]. split; [exact Hle|].
  intros blk' Hin' Hmod' Hle'.
  apply in_map_iff in Hin'. destruct Hin' as (k' & <- & Hink').
  pose proof (Hrange k' Hink') as Hk'.
  apply Z.pow_le_mono_r; [lia|]. apply Hmax; [exact Hink'|].
  unfold passes. rewrite clz_alignment by (try assumption; lia).
  apply andb_true_intro. split.
  - apply Z.eqb_eq. exact Hmod'.
  - rewrite Z.geb_leb. apply Z.leb_le. exact Hle'.
Qed.

(** ** Serialization of requests *)

(** C9: every public request made while an operation is in flight returns
    BusyDriver and leaves the world (every field of the control block, the
    caller's memory, the host calls made, the callbacks) as it was. *)
Theorem request_while_busy_rejected (r : request) (fuel : nat) (w : world) :
  op (w_spi w) <> SPIFLASH_OP_IDLE ->
  run_request r fuel w = Some (SPIFLASH_ERR_BUSY, w).
Proof.
  intros Hop.
  assert (is_idle (op (w_spi w)) = false) as Hidle
    by (destruct (op (w_spi w)); [contradiction|reflexivity..]).
  destruct r; cbn [run_request];
    unfold SPIFLASH_write, SPIFLASH_read, SPIFLASH_fast_read, SPIFLASH_erase,
      SPIFLASH_chip_erase, SPIFLASH_write_sr, SPIFLASH_read_sr,
      SPIFLASH_read_sr_busy, SPIFLASH_read_jedec_id, SPIFLASH_read_product_id,
      SPIFLASH_read_reg, SPIFLASH_write_reg;
    rewrite Hidle; reflexivity.
Qed.

Lemma request_while_busy_rejected_witness :
  run_request (ReqErase 0 4096) 3 world_writing
  = Some (SPIFLASH_ERR_BUSY, world_writing).
Proof.
  apply (request_while_busy_rejected (ReqErase 0 4096) 3 world_writing).
  vm_compute. discriminate.
Defined.

(** ** One completion at a time

    The control block as a literal, so that a step of the engine computes. *)

Arguments wrap8 : simpl never.
Arguments wrap32 : simpl never.
Arguments DECR_WAIT : simpl never.

Lemma is_idle_false (o : spiflash_op_t) :
  o <> SPIFLASH_OP_IDLE -> is_idle o = false.
Proof. destruct o; [contradiction|reflexivity..]. Qed.

Lemma triggers_step (k : nat) (w w' : world) :
  is_idle (op (w_spi w)) = false ->
  SPIFLASH_async_trigger SPIFLASH_OK w = (SPIFLASH_OK, w') ->
  triggers (S k) w = triggers k w'.
Proof. intros Hi Ht. cbn [triggers]. rewrite Hi, Ht. reflexivity. Qed.

Lemma triggers_add (j k : nat) (w w' : world) :
  triggers j w = Some w' ->
  triggers (j + k) w = triggers k w'.
Proof.
  revert w. induction j as [|j IH]; intros w H.
  - injection H as ->. reflexivity.
  - cbn [triggers Nat.add] in H |- *.
    destruct (is_idle (op (w_spi w))); [discriminate H|].
    destruct (fst (SPIFLASH_async_trigger SPIFLASH_OK w) =? SPIFLASH_OK);
      [|discriminate H].
    apply IH. exact H.
Qed.

Section Steps.
Variables (c : spiflash_config_t) (cmd : spiflash_cmd_tbl_t)
  (h : spiflash_hal_t) (acb : bool) (amode : Z).

(** The control block with its constant part fixed. *)
Local Abbreviation st := (Build_spiflash_t c cmd h acb amode).

Lemma trigger_bcw_wait o wp a l p cbb buf m tr cbl :
  is_idle o = false ->
  SPIFLASH_async_trigger SPIFLASH_OK
    (Build_world (st o wp a l p cbb 0 BCW_WAIT buf) m tr cbl)
  = (SPIFLASH_OK,
     Build_world
       (st o wp a l p cbb 0 (if wp =? 0 then BCW_IDLE else BCW_READ_SR) buf)
       m ((tr ++ [HalCs 0]) ++ [HalWait wp]) cbl).
Proof.
  intros Hi.
  unfold SPIFLASH_async_trigger, _spiflash_end_async, bind. cbn.
  rewrite Hi. reflexivity.
Qed.

Lemma trigger_bcw_read_sr o wp a l p cbb b0 rest m tr cbl :
  is_idle o = false ->
  fst (h ((tr ++ [HalCs 1]) ++ [HalTxrx [read_sr cmd] RxSrData 1]))
    = SPIFLASH_OK ->
  SPIFLASH_async_trigger SPIFLASH_OK
    (Build_world (st o wp a l p cbb 0 BCW_READ_SR (b0 :: rest)) m tr cbl)
  = (SPIFLASH_OK,
     Build_world
       (st o wp a l p cbb 0 BCW_CHECK
          (wrap8 (nth 0 (snd (h ((tr ++ [HalCs 1])
                                 ++ [HalTxrx [read_sr cmd] RxSrData 1]))) 0)
           :: rest))
       m ((tr ++ [HalCs 1]) ++ [HalTxrx [read_sr cmd] RxSrData 1]) cbl).
Proof.
  intros Hi Hok.
  unfold SPIFLASH_async_trigger, _spiflash_end_async, bind. cbn.
  rewrite Hok. cbn. rewrite Hi. reflexivity.
Qed.

Lemma trigger_bcw_check_busy o wp a l p cbb b0 rest m tr cbl :
  is_idle o = false ->
  Z.land b0 (sr_busy_bit cmd) <> 0 ->
  SPIFLASH_async_trigger SPIFLASH_OK
    (Build_world (st o wp a l p cbb 0 BCW_CHECK (b0 :: rest)) m tr cbl)
  = (SPIFLASH_OK,
     Build_world
       (st o (DECR_WAIT wp) a l p cbb 0 BCW_READ_SR (b0 :: rest))
       m ((tr ++ [HalCs 0]) ++ [HalWait (DECR_WAIT wp)]) cbl).
Proof.
  intros Hi Hbusy. apply Z.eqb_neq in Hbusy.
  unfold SPIFLASH_async_trigger, _spiflash_end_async, bind. cbn.
  unfold _spiflash_is_hwbusy, sr_data. cbn. rewrite Hbusy. cbn.
  rewrite Hi. reflexivity.
Qed.

(** A ready chip at the check: chip select is released, the sub-machine
    goes idle and the main machine handles the result of its step. *)
Lemma end_async_bcw_check_ready o wp a l p cbb b0 rest m tr cbl :
  Z.land b0 (sr_busy_bit cmd) = 0 ->
  _spiflash_end_async SPIFLASH_OK
    (Build_world (st o wp a l p cbb 0 BCW_CHECK (b0 :: rest)) m tr cbl)
  = end_async_results SPIFLASH_OK
      (Build_world (st o wp a l p cbb 0 BCW_IDLE (b0 :: rest))
         m (tr ++ [HalCs 0]) cbl).
Proof.
  intros Hrdy. apply Z.eqb_eq in Hrdy.
  unfold _spiflash_end_async, bind. cbn.
  unfold _spiflash_is_hwbusy, sr_data. cbn. rewrite Hrdy. reflexivity.
Qed.

Lemma end_async_bcw_idle o wp a l p cbb buf m tr cbl :
  _spiflash_end_async SPIFLASH_OK
    (Build_world (st o wp a l p cbb 0 BCW_IDLE buf) m tr cbl)
  = end_async_results SPIFLASH_OK
      (Build_world (st o wp a l p cbb 0 BCW_IDLE buf) m tr cbl).
Proof. reflexivity. Qed.

(** The polls of the busy wait: [2n+1] completions take the sub-machine
    from ReadSR, through [n] busy answers, to Check with a ready status
    byte in [sr_data]. *)
Lemma poll_loop (n : nat) :
  forall o wp a l p cbb b0 rest m tr cbl,
    is_idle o = false ->
    hal_follows h (sr_busy_bit cmd) tr (poll_script (read_sr cmd) wp n) ->
    exists srb,
      Z.land srb (sr_busy_bit cmd) = 0 /\
      triggers (2 * n + 1)
        (Build_world (st o wp a l p cbb 0 BCW_READ_SR (b0 :: rest)) m tr cbl)
      = Some (Build_world
                (st o (backoff n wp) a l p cbb 0 BCW_CHECK (srb :: rest))
                m (tr ++ map fst (poll_script (read_sr cmd) wp n)) cbl).
Proof.
  induction n as [|n IH]; intros o wp a l p cbb b0 rest m tr cbl Hi Hf.
  - cbn in Hf. destruct Hf as (_ & [Hok Hrdy] & _).
    eexists. split; [exact Hrdy|].
    change (2 * 0 + 1)%nat with 1%nat.
    erewrite triggers_step
      by first [exact Hi | apply trigger_bcw_read_sr; assumption].
    cbn [triggers poll_script map fst backoff].
    rewrite <- app_assoc. reflexivity.
  - cbn [poll_script app hal_follows] in Hf.
    destruct Hf as (_ & [Hok Hbusy] & _ & _ & Hf).
    replace (2 * S n + 1)%nat with (S (S (2 * n + 1))) by lia.
    erewrite triggers_step
      by first [exact Hi | apply trigger_bcw_read_sr; assumption].
    erewrite triggers_step
      by first [exact Hi | apply trigger_bcw_check_busy; assumption].
    match goal with
    | |- context [triggers _ (Build_world
           (Build_spiflash_t _ _ _ _ _ _ _ _ _ _ _ _ _ (?b :: _)) _ ?t _)] =>
        destruct (IH o (DECR_WAIT wp) a l p cbb b rest m t cbl Hi Hf)
          as (srb & Hrdy & Hrun)
    end.
    exists srb. split; [exact Hrdy|].
    rewrite Hrun. cbn [poll_script map fst app backoff].
    rewrite <- !app_assoc. reflexivity.
Qed.
End Steps.

(** ** Busy-wait backoff *)

Lemma DECR_WAIT_halve (t : Z) : 0 <= t -> DECR_WAIT t = halve_floor1 t.
Proof.
  intros Ht. unfold DECR_WAIT, halve_floor1. rewrite Z.mul_1_l.
  assert (0 <= t / 2) by (apply Z.div_pos; lia).
  destruct (t / 2 =? 0) eqn:E.
  - apply Z.eqb_eq in E. lia.
  - apply Z.eqb_neq in E. lia.
Qed.

Lemma halve_floor1_pos (t : Z) : 0 < halve_floor1 t.
Proof. unfold halve_floor1. lia. Qed.

Lemma waits_of_poll_script (rdsr : Z) (n : nat) :
  forall t, 0 < t ->
    t :: waits_of (map fst (poll_script rdsr t n)) = backoff_waits n t.
Proof.
  induction n as [|n IH]; intros t Ht.
  - reflexivity.
  - cbn [poll_script map fst app waits_of omap backoff_waits].
    rewrite DECR_WAIT_halve by lia.
    f_equal. apply IH. apply halve_floor1_pos.
Qed.

(** C5: a step that enters the busy wait with nominal time T > 0, on a
    chip whose status reads answer busy n times and then ready, makes the
    host calls of [backoff_script]: the waits are T, T/2, T/4, ..., each
    the floor-half of the one before and at least 1; the last status read
    leaves a byte with the busy bit clear in [sr_data]; and the next
    completion releases chip select, sets the sub-machine idle and hands
    over to the result handling of the main machine. *)
Theorem busy_wait_backoff (w : world) (t : Z) (n : nat) :
  length (tx_internal_buf (w_spi w)) = 16%nat ->
  op (w_spi w) <> SPIFLASH_OP_IDLE ->
  busy_pre_check (w_spi w) = 0 ->
  busy_check_wait (w_spi w) = BCW_WAIT ->
  wait_period_ms (w_spi w) = t ->
  0 < t ->
  hal_follows (hal (w_spi w)) (sr_busy_bit (cmd_tbl (w_spi w))) (w_trace w)
    (backoff_script (read_sr (cmd_tbl (w_spi w))) t n) ->
  exists w',
    triggers (2 * n + 2) w = Some w' /\
    w_trace w'
      = w_trace w
        ++ map fst (backoff_script (read_sr (cmd_tbl (w_spi w))) t n) /\
    waits_of (map fst (backoff_script (read_sr (cmd_tbl (w_spi w))) t n))
      = backoff_waits n t /\
    busy_check_wait (w_spi w') = BCW_CHECK /\
    _spiflash_is_hwbusy (w_spi w') (sr_data (w_spi w')) = 0 /\
    _spiflash_end_async SPIFLASH_OK w'
      = end_async_results SPIFLASH_OK
          (snd ((hal_cs 0 ;; upd_spi (set_busy_check_wait BCW_IDLE)) w')).
Proof.
  destruct w as [s m tr cbl].
  destruct s as [c cmd h acb amode o wp a l p cbb pre bcw buf].
  cbn [w_spi w_trace tx_internal_buf op busy_pre_check busy_check_wait
       wait_period_ms hal cmd_tbl].
  intros Hlen Hop -> -> -> Ht Hf.
  destruct buf as [|b0 rest]; [discriminate Hlen|].
  apply is_idle_false in Hop.
  cbn [backoff_script app hal_follows] in Hf.
  destruct Hf as (_ & _ & Hf).
  destruct (poll_loop c cmd h acb amode n o t a l p cbb b0 rest m
              ((tr ++ [HalCs 0]) ++ [HalWait t]) cbl Hop Hf)
    as (srb & Hrdy & Hrun).
  eexists. split; [|split; [|split; [|split; [|split]]]].
  - replace (2 * n + 2)%nat with (S (2 * n + 1)) by lia.
    erewrite triggers_step by first [exact Hop | apply trigger_bcw_wait; exact Hop].
    replace (t =? 0) with false by (symmetry; apply Z.eqb_neq; lia).
    exact Hrun.
  - cbn [w_trace backoff_script map fst app]. rewrite <- !app_assoc. reflexivity.
  - cbn [backoff_script map fst app waits_of omap].
    apply waits_of_poll_script. exact Ht.
  - reflexivity.
  - exact Hrdy.
  - apply end_async_bcw_check_ready. exact Hrdy.
Qed.

Lemma busy_wait_backoff_witness :
  exists w',
    triggers 6 world_after_program = Some w' /\
    w_trace w'
      = [HalCs 0; HalWait 10;
         HalCs 1; HalTxrx [0x05] RxSrData 1; HalCs 0; HalWait 5;
         HalCs 1; HalTxrx [0x05] RxSrData 1; HalCs 0; HalWait 2;
         HalCs 1; HalTxrx [0x05] RxSrData 1] /\
    waits_of (map fst (backoff_script 0x05 10 2)) = [10; 5; 2] /\
    busy_check_wait (w_spi w') = BCW_CHECK /\
    _spiflash_is_hwbusy (w_spi w') (sr_data (w_spi w')) = 0 /\
    _spiflash_end_async SPIFLASH_OK w'
      = end_async_results SPIFLASH_OK
          (snd ((hal_cs 0 ;; upd_spi (set_busy_check_wait BCW_IDLE)) w')).
Proof.
  apply (busy_wait_backoff world_after_program 10 2).
  - reflexivity.
  - discriminate.
  - reflexivity.
  - reflexivity.
  - reflexivity.
  - lia.
  - vm_compute. repeat split; discriminate.
Defined.

(** ** Error exits *)

(** C2 fails on the blocking path when the very first transfer of a
    request fails: [_spiflash_exe] skips its loop, runs
    [_spiflash_finalize], which does not touch [op], and returns the error.
    The driver stays in WRITE_sWREN and the next request is rejected with
    BusyDriver. *)
Theorem sync_first_transfer_error_keeps_driver_busy :
  match SPIFLASH_write 0x1000 10 0 5 world_failing_sync with
  | Some (res, w') =>
      res = -1 /\
      op (w_spi w') = SPIFLASH_OP_WRITE_sWREN /\
      wait_period_ms (w_spi w') = 0 /\
      busy_pre_check (w_spi w') = 0 /\
      busy_check_wait (w_spi w') = BCW_IDLE /\
      SPIFLASH_is_busy w' = SPIFLASH_ERR_BUSY /\
      SPIFLASH_read 0 16 0 5 w' = Some (SPIFLASH_ERR_BUSY, w')
  | None => False
  end.
Proof. vm_compute. repeat split. Qed.

(** In asynchronous mode a busy pre-check reaches the callback with HwBusy
    and [op] idle, but [busy_pre_check] is still set: the HwBusy exit of
    [_spiflash_end_async] does not finalize. *)
Lemma async_hw_busy_keeps_pre_check :
  match SPIFLASH_write 0x1000 10 0 0 world_busy_async with
  | Some (res, w1) =>
      res = SPIFLASH_OK /\
      let p := SPIFLASH_async_trigger SPIFLASH_OK w1 in
      fst p = SPIFLASH_ERR_HW_BUSY /\
      w_cb (snd p) = [(SPIFLASH_OP_WRITE_sWREN, SPIFLASH_ERR_HW_BUSY)] /\
      op (w_spi (snd p)) = SPIFLASH_OP_IDLE /\
      busy_pre_check (w_spi (snd p)) = 1
  | None => False
  end.
Proof. vm_compute. repeat split. Qed.

(** ** Fast read frame *)

(** Outside the documented address sizes: the fast-read step clears
    [tx_internal_buf[1 + addr_sz + 1]], the byte after the mandatory
    dummy, and sends [tx_internal_buf[1 + addr_sz]] as it finds it.  With
    [addr_sz = 0] that byte is the data byte of an earlier register write;
    with an address of one byte or more nothing writes it after
    [SPIFLASH_init] (see [world_ok_reachable]). *)
Theorem fast_read_dummy_not_cleared :
  outcome (then_request (ReqWriteReg 0x11 0xff 0 0) (ReqFastRead 0 4 0x100)
             5 world_addr0)
  = Some (SPIFLASH_OK,
          [HalCs 1; HalTxrx [0x11; 0xff] RxNone 0; HalCs 0;
           HalCs 1; HalTxrx [0x0b; 0xff] (RxCaller 0x100) 4; HalCs 0]).
Proof. vm_compute. reflexivity. Qed.

(** ** Erase of an odd address *)

(** C1 fails for odd addresses: [_spiflash_clz] answers 32 for every odd
    value (index 0 of the lookup table was changed from 0 to 32 to cover
    the value 0), so an odd address passes every alignment test.  The
    request is accepted and a 4K erase is issued at address 1, which is a
    multiple of no erase size. *)
Theorem erase_odd_address_accepted :
  _spiflash_clz 1 = 32 /\
  _spiflash_get_largest_erase_area SPIFLASH_CMD_TBL_STANDARD 1 4096 = 4096 /\
  1 mod 4096 <> 0 /\
  outcome (SPIFLASH_erase 1 4096 10 world_be3)
  = Some (SPIFLASH_OK,
          [HalCs 1; HalTxrx [0x06] RxNone 0; HalCs 0;
           HalCs 1; HalTxrx [0x20; 0x00; 0x00; 0x01] RxNone 0; HalCs 0;
           HalWait 100;
           HalCs 1; HalTxrx [0x05] RxSrData 1; HalCs 0; HalCs 0]).
Proof.
  split; [vm_compute; reflexivity|].
  split; [vm_compute; reflexivity|].
  split; [vm_compute; discriminate|].
  vm_compute. reflexivity.
Qed.

(** ** The engine does not look at the mode

    Apart from the branch in [_spiflash_exe] and the callback in
    [SPIFLASH_async_trigger], no code reads [async] or [async_cb]: a step
    of the engine commutes with a change of mode. *)

Lemma compose_loop_buf (n : nat) :
  forall i a off s,
    compose_loop n i a off s
    = set_tx_internal_buf
        (compose_buf (cfg s) n i a off (tx_internal_buf s)) s.
Proof.
  induction n as [|n IH]; intros i a off s.
  - destruct s; reflexivity.
  - cbn [compose_loop compose_buf]. rewrite IH.
    unfold set_tx. destruct (off + i <? 0); destruct s; reflexivity.
Qed.

Ltac engine_cbn :=
  cbn -[_spiflash_begin_async end_async_results compose_loop
        _spiflash_get_largest_erase_area
        _spiflash_get_erase_cmd _spiflash_get_erase_time].

Ltac begin_cbn :=
  cbn -[compose_loop _spiflash_get_largest_erase_area
        _spiflash_get_erase_cmd _spiflash_get_erase_time].

Lemma begin_async_remode a cb l w :
  _spiflash_begin_async (remode a cb l w)
  = (fst (_spiflash_begin_async w),
     remode a cb l (snd (_spiflash_begin_async w))).
Proof.
  destruct w as [s m tr cbl].
  destruct s as [c cmd h acb amode o wp ad ln p cbb pre bcw buf].
  unfold _spiflash_begin_async, bind, remode, _spiflash_compose_address.
  destruct o, (negb (pre =? 0)) eqn:Epre;
    begin_cbn; rewrite ?Epre; begin_cbn; try reflexivity.
  all: try destruct (_spiflash_get_erase_cmd _ _ =? 0); try reflexivity.
  all: begin_cbn; rewrite !compose_loop_buf; unfold set_tx;
    try destruct (1 + addr_sz c + 1 <? 0); reflexivity.
Qed.

Lemma begin_async_op w :
  op (w_spi (snd (_spiflash_begin_async w))) = op (w_spi w).
Proof.
  destruct w as [s m tr cbl].
  destruct s as [c cmd h acb amode o wp ad ln p cbb pre bcw buf].
  unfold _spiflash_begin_async, bind, _spiflash_compose_address.
  destruct o, (negb (pre =? 0)) eqn:Epre;
    begin_cbn; rewrite ?Epre; begin_cbn; try reflexivity.
  all: try destruct (_spiflash_get_erase_cmd _ _ =? 0); try reflexivity.
  all: begin_cbn; rewrite !compose_loop_buf; unfold set_tx;
    try destruct (1 + addr_sz c + 1 <? 0); reflexivity.
Qed.

Lemma begin_async_idle w :
  is_idle (op (w_spi w)) = true ->
  _spiflash_begin_async w = (SPIFLASH_ERR_BAD_STATE, w).
Proof.
  intros E. unfold _spiflash_begin_async, bind, get_spi. cbn [fst snd].
  rewrite E. reflexivity.
Qed.

Lemma begin_async_ok_in_flight w :
  fst (_spiflash_begin_async w) = SPIFLASH_OK ->
  is_idle (op (w_spi (snd (_spiflash_begin_async w)))) = false.
Proof.
  intros Hok. rewrite begin_async_op.
  destruct (is_idle (op (w_spi w))) eqn:E; [|reflexivity].
  rewrite (begin_async_idle w E) in Hok. discriminate Hok.
Qed.

Lemma end_async_results_remode a cb l r w :
  end_async_results r (remode a cb l w)
  = (fst (end_async_results r w),
     remode a cb l (snd (end_async_results r w))).
Proof.
  destruct w as [s m tr cbl].
  destruct s as [c cmd h acb amode o wp ad ln p cbb pre bcw buf].
  unfold end_async_results, bind, remode.
  destruct o, (r =? SPIFLASH_OK) eqn:Er; engine_cbn; rewrite ?Er; engine_cbn;
    try reflexivity.
  all: try (destruct (ln =? 0); engine_cbn; rewrite ?Er; engine_cbn;
            try reflexivity).
  all: match goal with
       | |- _ = (fst (_spiflash_begin_async ?w2), _) =>
           exact (begin_async_remode a cb l w2)
       end.
Qed.

Lemma end_async_remode a cb l e w :
  _spiflash_end_async e (remode a cb l w)
  = (fst (_spiflash_end_async e w),
     remode a cb l (snd (_spiflash_end_async e w))).
Proof.
  destruct w as [s m tr cbl].
  destruct s as [c cmd h acb amode o wp ad ln p cbb pre bcw buf].
  unfold _spiflash_end_async, bind, remode, _spiflash_is_hwbusy, sr_data.
  destruct (negb (e =? SPIFLASH_OK)); [reflexivity|].
  engine_cbn.
  destruct (negb (pre =? 0)).
  { destruct (negb (Z.land (nth 0 buf 0) (sr_busy_bit cmd) =? 0));
      [reflexivity|].
    match goal with
    | |- _ = (fst (_spiflash_begin_async ?w2), _) =>
        exact (begin_async_remode a cb l w2)
    end. }
  destruct (bcw =? BCW_WAIT); [reflexivity|].
  destruct (bcw =? BCW_READ_SR); [reflexivity|].
  destruct (bcw =? BCW_CHECK).
  - engine_cbn.
    destruct (negb (Z.land (nth 0 buf 0) (sr_busy_bit cmd) =? 0));
      [reflexivity|].
    match goal with
    | |- _ = (fst (end_async_results _ ?w2), _) =>
        exact (end_async_results_remode a cb l e w2)
    end.
  - match goal with
    | |- _ = (fst (end_async_results _ ?w2), _) =>
        exact (end_async_results_remode a cb l e w2)
    end.
Qed.

Lemma trigger_remode a cb l e w :
  SPIFLASH_async_trigger e (remode a cb l w)
  = (fst (SPIFLASH_async_trigger e w),
     remode a cb (l ++ trigger_callback a cb e w)
       (snd (SPIFLASH_async_trigger e w))).
Proof.
  unfold SPIFLASH_async_trigger, trigger_callback, bind.
  rewrite end_async_remode.
  destruct (_spiflash_end_async e w) as [res [s m tr cbl]].
  destruct s as [c cmd h acb amode o wp ad ln p cbb pre bcw buf].
  cbn.
  destruct (negb (res =? SPIFLASH_OK)), (is_idle o), (negb (a =? 0)), cb,
    (negb (amode =? 0)), acb; cbn; rewrite ?app_nil_r; reflexivity.
Qed.

Lemma remode_op a cb l w : op (w_spi (remode a cb l w)) = op (w_spi w).
Proof. reflexivity. Qed.

Lemma trigger_callback_sync cb e w : trigger_callback 0 cb e w = [].
Proof. unfold trigger_callback. cbn. rewrite andb_false_r. reflexivity. Qed.

(** After a trigger [op] is idle exactly when the trigger reported the end
    of the operation. *)
Lemma trigger_stop e w :
  let p := _spiflash_end_async e w in
  let q := SPIFLASH_async_trigger e w in
  fst q = fst p /\
  is_idle (op (w_spi (snd q)))
  = negb (fst p =? SPIFLASH_OK) || is_idle (op (w_spi (snd p))).
Proof.
  unfold SPIFLASH_async_trigger, bind.
  destruct (_spiflash_end_async e w) as [res [s m tr cbl]].
  destruct s as [c cmd h acb amode o wp ad ln p cbb pre bcw buf].
  cbn.
  destruct (negb (res =? SPIFLASH_OK)), (is_idle o) eqn:E,
    (negb (amode =? 0)), acb;
    cbn; rewrite ?E; split; reflexivity.
Qed.

Lemma trigger_callback_async e w :
  let q := SPIFLASH_async_trigger e w in
  trigger_callback 1 true e w
  = if negb (fst q =? SPIFLASH_OK) || is_idle (op (w_spi (snd q)))
    then [(op (w_spi (snd (_spiflash_end_async e w))), fst q)] else [].
Proof.
  destruct (trigger_stop e w) as [Hres Hstop]. cbv zeta in Hres, Hstop |- *.
  unfold trigger_callback. rewrite Hres, Hstop. cbn [negb Z.eqb andb].
  rewrite andb_true_r.
  destruct (negb (fst (_spiflash_end_async e w) =? SPIFLASH_OK)); reflexivity.
Qed.

Lemma exe_loop_done fuel res w :
  (res =? SPIFLASH_OK) && negb (is_idle (op (w_spi w))) = false ->
  exe_loop fuel res w = Some (res, w).
Proof. intros H. destruct fuel; cbn [exe_loop]; rewrite H; reflexivity. Qed.

Lemma exe_loop_more fuel res w :
  (res =? SPIFLASH_OK) && negb (is_idle (op (w_spi w))) = true ->
  exe_loop (S fuel) res w
  = exe_loop fuel (fst (SPIFLASH_async_trigger res w))
      (snd (SPIFLASH_async_trigger res w)).
Proof. intros H. cbn [exe_loop]. rewrite H. reflexivity. Qed.

(** ** Blocking and asynchronous execution *)

Lemma loops_agree (fuel : nat) :
  forall w cbs ls la,
    is_idle (op (w_spi w)) = false ->
    same_run
      (exe_loop fuel SPIFLASH_OK (remode 0 cbs ls w))
      (async_drive fuel (remode 1 true la w)) la.
Proof.
  induction fuel as [|fuel IH]; intros w cbs ls la Hi.
  - cbn. rewrite Hi. cbn. exact I.
  - rewrite exe_loop_more by (rewrite remode_op, Hi; reflexivity).
    cbn [async_drive].
    rewrite !trigger_remode. cbn [fst snd]. rewrite !remode_op.
    rewrite trigger_callback_sync, app_nil_r, trigger_callback_async.
    cbv zeta.
    set (q := SPIFLASH_async_trigger SPIFLASH_OK w).
    destruct (fst q =? SPIFLASH_OK) eqn:Eres;
      [destruct (is_idle (op (w_spi (snd q)))) eqn:Eidle|]; cbn [negb orb].
    + rewrite exe_loop_done by (rewrite remode_op, Eres, Eidle; reflexivity).
      cbn. repeat split. eexists. reflexivity.
    + rewrite app_nil_r. apply Z.eqb_eq in Eres. rewrite Eres.
      apply IH. exact Eidle.
    + rewrite exe_loop_done by (rewrite Eres; reflexivity).
      cbn. repeat split. eexists. reflexivity.
Qed.

Lemma exe_agree fuel w cbs ls la :
  agree fuel (_spiflash_exe fuel (remode 0 cbs ls w))
    (_spiflash_exe fuel (remode 1 true la w)) la.
Proof.
  unfold _spiflash_exe.
  set (w1 := if negb (could_be_busy (w_spi w) =? 0)
             then snd (upd_spi (set_busy_pre_check 1) w) else w).
  assert (forall a cb l,
    (if negb (could_be_busy (w_spi (remode a cb l w)) =? 0)
     then snd (upd_spi (set_busy_pre_check 1) (remode a cb l w))
     else remode a cb l w) = remode a cb l w1) as Hseed.
  { intros a cb l. subst w1. destruct w as [s m tr cbl], s.
    cbn. destruct (negb (_ =? 0)); reflexivity. }
  rewrite !Hseed.
  change (negb (async (w_spi (remode 0 cbs ls w1)) =? 0)) with false.
  change (negb (async (w_spi (remode 1 true la w1)) =? 0)) with true.
  cbv iota. rewrite !begin_async_remode. cbn [fst snd].
  set (p := _spiflash_begin_async w1).
  unfold agree, after_entry, delivered.
  destruct (fst p =? SPIFLASH_OK) eqn:Eres.
  - pose proof (proj1 (Z.eqb_eq _ _) Eres) as Hres.
    pose proof (begin_async_ok_in_flight w1 Hres) as Hi. fold p in Hi.
    rewrite Hres.
    pose proof (loops_agree fuel (snd p) cbs ls la Hi) as Hrun.
    unfold same_run in Hrun.
    destruct (exe_loop fuel SPIFLASH_OK (remode 0 cbs ls (snd p)))
      as [[r1 w1']|],
      (async_drive fuel (remode 1 true la (snd p))) as [[r2 w2']|];
      exact Hrun.
  - rewrite exe_loop_done by (rewrite Eres; reflexivity).
    cbn. repeat split.
Qed.

Lemma sync_world_remode w :
  sync_world w = remode 0 (async_cb (w_spi w)) (w_cb w) w.
Proof. destruct w as [s m tr cbl], s. reflexivity. Qed.

Lemma async_world_remode w : async_world w = remode 1 true (w_cb w) w.
Proof. destruct w as [s m tr cbl], s. reflexivity. Qed.

Ltac seed_cbv :=
  cbv [remode set_op set_wr_len set_wr_buf set_addr set_async_cb set_async
       set_tx set_sr_data set_reg_nbr set_tx_internal_buf set_wait_period_ms
       w_spi w_mem w_trace w_cb cfg cmd_tbl hal async_cb async op
       wait_period_ms addr wr_len wr_buf could_be_busy busy_pre_check
       busy_check_wait tx_internal_buf];
  cbn.

Ltac unfold_entry :=
  cbn [run_request];
  unfold SPIFLASH_write, SPIFLASH_read, SPIFLASH_fast_read, SPIFLASH_erase,
    SPIFLASH_chip_erase, SPIFLASH_write_sr, SPIFLASH_read_sr,
    SPIFLASH_read_sr_busy, SPIFLASH_read_jedec_id, SPIFLASH_read_product_id,
    SPIFLASH_read_reg, SPIFLASH_write_reg.

(** Every entry point either rejects the request, in whatever mode, or
    seeds the control block and runs [_spiflash_exe]. *)
Lemma run_request_remode (r : request) (fuel : nat) (w : world) :
  (exists code, (code =? SPIFLASH_OK) = false /\
     forall a cb l,
       run_request r fuel (remode a cb l w) = Some (code, remode a cb l w)) \/
  (exists w', forall a cb l,
       run_request r fuel (remode a cb l w)
       = _spiflash_exe fuel (remode a cb l w')).
Proof.
  destruct w as [s m tr cbl].
  destruct s as [c cmd h acb amode o wp ad ln p cbb pre bcw buf].
  destruct (is_idle o) eqn:Ei.
  - destruct r; unfold_entry;
      cbn -[_spiflash_exe _spiflash_get_largest_erase_area]; rewrite Ei;
      cbn -[_spiflash_exe _spiflash_get_largest_erase_area].
    4: { destruct (_spiflash_get_largest_erase_area cmd a len =? 0).
         - left. exists SPIFLASH_ERR_ERASE_UNALIGNED. split; [reflexivity|].
           intros; reflexivity.
         - right.
           eexists (Build_world
                      (Build_spiflash_t c cmd h acb amode _ _ _ _ _ cbb pre bcw _)
                      m tr cbl).
           intros. apply f_equal. seed_cbv. reflexivity. }
    11: destruct (write_en =? 0).
    all: right;
      eexists (Build_world
                 (Build_spiflash_t c cmd h acb amode _ _ _ _ _ cbb pre bcw _)
                 m tr cbl);
      intros; apply f_equal; seed_cbv; reflexivity.
  - left. exists SPIFLASH_ERR_BUSY. split; [reflexivity|].
    intros a cb l.
    destruct r; unfold_entry;
      cbn -[_spiflash_exe _spiflash_get_largest_erase_area]; rewrite Ei;
      reflexivity.
Qed.

(** C8 (as amended): for every request, every starting world and every
    deterministic host, the blocking driver and the asynchronous driver
    whose host reports every completion at once with async_trigger(0) make
    the same host calls, with the same arguments in the same order, and
    end with the same result code (or both need more than [fuel]
    completions).  In asynchronous mode the code reaches the callback,
    exactly one callback, when the entry point accepted the request; when
    the entry point itself returns an error (BusyDriver, ErasureUnaligned,
    a failing first transfer) that return value is the result and no
    callback fires. *)
Theorem async_session_matches_sync (r : request) (fuel : nat) (w : world) :
  match run_request r fuel (sync_world w),
        async_session r fuel (async_world w) with
  | Some (res_s, ws), Some (res_a, wa) =>
      res_s = res_a /\ w_trace ws = w_trace wa /\
      delivered (run_request r fuel (async_world w)) (w_cb w) res_a wa
  | None, None => True
  | _, _ => False
  end.
Proof.
  unfold async_session.
  rewrite sync_world_remode, async_world_remode.
  destruct (run_request_remode r fuel w) as [(code & Hcode & Hrej)|(w' & Hrun)].
  - rewrite !Hrej. unfold after_entry, delivered. rewrite Hcode.
    repeat split.
  - rewrite !Hrun. apply exe_agree.
Qed.

(** C8 as stated fails: a request whose first transfer fails returns the
    error from the entry point in both modes, and in asynchronous mode no
    callback ever carries it. *)
Lemma async_callback_not_always_fired :
  ~ (forall (r : request) (fuel : nat) (w : world) (res : Z) (ws : world),
       run_request r fuel (sync_world w) = Some (res, ws) ->
       exists wa o,
         async_session r fuel (async_world w) = Some (res, wa) /\
         w_trace ws = w_trace wa /\
         w_cb wa = w_cb w ++ [(o, res)]).
Proof.
  intros H.
  destruct (run_request (ReqWrite 0x1000 10 0) 5 (sync_world world_failing_sync))
    as [[res ws]|] eqn:E; [|vm_compute in E; discriminate E].
  destruct (H _ _ _ _ _ E) as (wa & o & Ha & _ & Hcb).
  vm_compute in Ha. injection Ha as _ <-.
  cbn in Hcb. discriminate Hcb.
Qed.

(** Should the host report a completion with async_trigger(0) all the same
    after the failed entry, the engine takes the failed write-enable for
    done and goes on with the page-program frame. *)
Lemma trigger_after_failed_entry_goes_on :
  match SPIFLASH_write 0x1000 10 0 0 (async_world world_failing_sync) with
  | Some (res, w1) =>
      res = -1 /\
      w_trace w1 = [HalCs 1; HalTxrx [0x06] RxNone 0] /\
      w_trace (snd (SPIFLASH_async_trigger SPIFLASH_OK w1))
      = [HalCs 1; HalTxrx [0x06] RxNone 0; HalCs 0;
         HalCs 1; HalTxrx [0x02; 0x00; 0x10; 0x00] RxNone 0]
  | None => False
  end.
Proof. vm_compute. repeat split. Qed.

(** ** Page-program planner *)

Lemma wrap8_small z : 0 <= z < 256 -> wrap8 z = z.
Proof. intros H. unfold wrap8. apply Z.mod_small. lia. Qed.

Lemma wrap32_small z : 0 <= z < 2 ^ 32 -> wrap32 z = z.
Proof. intros H. unfold wrap32. apply Z.mod_small. lia. Qed.

Lemma address_byte_range c a i : 0 <= address_byte c a i < 256.
Proof.
  unfold address_byte.
  change 255 with (Z.ones 8). rewrite Z.land_ones by lia.
  apply Z.mod_pos_bound. lia.
Qed.

Lemma seqZ_S (i : Z) (n : nat) :
  seqZ i (Z.of_nat (S n)) = i :: seqZ (i + 1) (Z.of_nat n).
Proof.
  rewrite Nat2Z.inj_succ. rewrite seqZ_cons by lia.
  f_equal. f_equal; lia.
Qed.

(** The address loop overwrites [n] bytes from [off + i] on with the
    address bytes [i], [i+1], ... and leaves the rest of the buffer. *)
Lemma compose_buf_spec c a off (n : nat) :
  forall i pre mid post,
    0 <= off + i ->
    length pre = Z.to_nat (off + i) ->
    length mid = n ->
    compose_buf c n i a off (pre ++ mid ++ post)
    = pre ++ map (address_byte c a) (seqZ i (Z.of_nat n)) ++ post.
Proof.
  induction n as [|n IH]; intros i pre mid post Hoff Hpre Hmid.
  - destruct mid; [reflexivity|discriminate Hmid].
  - destruct mid as [|x mid]; [discriminate Hmid|].
    cbn [compose_buf]. rewrite seqZ_S. cbn [map].
    replace (off + i <? 0) with false by (symmetry; apply Z.ltb_ge; lia).
    rewrite <- Hpre.
    rewrite (insert_app_r_alt pre (x :: mid ++ post)) by lia.
    rewrite Nat.sub_diag. cbn [list_insert app insert].
    rewrite (wrap8_small (address_byte c a i)) by apply address_byte_range.
    specialize (IH (i + 1) (pre ++ [address_byte c a i]) mid post).
    rewrite <- !app_assoc in IH. cbn [app] in IH.
    rewrite IH.
    + reflexivity.
    + lia.
    + rewrite length_app. cbn [length]. lia.
    + injection Hmid as ->. reflexivity.
Qed.

Lemma length_address_bytes c a :
  0 <= addr_sz c -> length (address_bytes c a) = Z.to_nat (addr_sz c).
Proof. intros H. unfold address_bytes. rewrite length_map, length_seqZ. reflexivity. Qed.

(** Opcode and address in the scratch buffer: the bytes from
    [1 + addr_sz] on are left as they were. *)
Lemma command_frame_buf c a x rest :
  0 <= addr_sz c ->
  (Z.to_nat (addr_sz c) <= length rest)%nat ->
  compose_buf c (Z.to_nat (addr_sz c)) 0 a 1 (x :: rest)
  = x :: address_bytes c a ++ drop (Z.to_nat (addr_sz c)) rest.
Proof.
  intros Hsz Hlen.
  pose proof (compose_buf_spec c a 1 (Z.to_nat (addr_sz c)) 0 [x]
                (take (Z.to_nat (addr_sz c)) rest)
                (drop (Z.to_nat (addr_sz c)) rest)) as H.
  cbn [app] in H. rewrite take_drop, Z2Nat.id in H by lia.
  apply H; [lia | reflexivity | rewrite length_take; lia].
Qed.

Lemma command_frame c a x rest :
  0 <= addr_sz c -> 0 <= addr_dummy_sz c ->
  (Z.to_nat (addr_sz c) <= length rest)%nat ->
  take (Z.to_nat (1 + addr_sz c + addr_dummy_sz c))
    (x :: address_bytes c a ++ drop (Z.to_nat (addr_sz c)) rest)
  = x :: address_bytes c a
    ++ take (Z.to_nat (addr_dummy_sz c)) (drop (Z.to_nat (addr_sz c)) rest).
Proof.
  intros Hsz Hdz Hlen.
  replace (Z.to_nat (1 + addr_sz c + addr_dummy_sz c))
    with (S (Z.to_nat (addr_sz c) + Z.to_nat (addr_dummy_sz c))) by lia.
  cbn [take]. f_equal.
  rewrite take_app, length_address_bytes by lia.
  rewrite take_ge by (rewrite length_address_bytes; lia).
  f_equal. f_equal. lia.
Qed.

Lemma insert_head (v b : Z) (rest : list Z) :
  <[Z.to_nat 0 := v]> (b :: rest) = v :: rest.
Proof. reflexivity. Qed.

Lemma drop_address_bytes c a (t : list Z) :
  0 <= addr_sz c ->
  drop (Z.to_nat (addr_sz c)) (address_bytes c a ++ t) = t.
Proof.
  intros H. rewrite <- (length_address_bytes c a H). apply drop_app_length.
Qed.

Section WriteSteps.
Variables (c : spiflash_config_t) (cmd : spiflash_cmd_tbl_t)
  (h : spiflash_hal_t) (acb : bool) (amode : Z).

Local Abbreviation st := (Build_spiflash_t c cmd h acb amode).

Lemma trigger_write_wren wp a l p cbb b rest m tr cbl :
  fst (h ((((tr ++ [HalCs 0]) ++ [HalCs 1])
           ++ [HalTxrx
                 (take (Z.to_nat (1 + addr_sz c + addr_dummy_sz c))
                    (compose_buf c (Z.to_nat (addr_sz c)) 0 a 1
                       (wrap8 (page_program cmd) :: rest)))
                 RxNone 0])))
    = SPIFLASH_OK ->
  SPIFLASH_async_trigger SPIFLASH_OK
    (Build_world (st SPIFLASH_OP_WRITE_sWREN wp a l p cbb 0 BCW_IDLE (b :: rest))
       m tr cbl)
  = (SPIFLASH_OK,
     Build_world
       (st SPIFLASH_OP_WRITE_sADDR wp a l p cbb 0 BCW_IDLE
          (compose_buf c (Z.to_nat (addr_sz c)) 0 a 1
             (wrap8 (page_program cmd) :: rest)))
       m (((tr ++ [HalCs 0]) ++ [HalCs 1])
          ++ [HalTxrx
                (take (Z.to_nat (1 + addr_sz c + addr_dummy_sz c))
                   (compose_buf c (Z.to_nat (addr_sz c)) 0 a 1
                      (wrap8 (page_program cmd) :: rest)))
                RxNone 0])
       cbl).
Proof.
  intros Hok.
  unfold SPIFLASH_async_trigger, _spiflash_end_async, end_async_results,
    _spiflash_begin_async, _spiflash_compose_address, bind.
  cbn -[compose_loop]. rewrite !compose_loop_buf. cbn -[compose_loop].
  unfold tx_frame. cbn. rewrite !insert_head, Hok. reflexivity.
Qed.

Lemma trigger_write_addr wp a l p cbb buf m tr cbl :
  let rem_pg_sz :=
    wrap32 (page_sz c - Z.land a (wrap32 (page_sz c - 1))) in
  let wr_sz := if l <? rem_pg_sz then l else rem_pg_sz in
  fst (h (tr ++ [HalTxrx (mem_bytes m p wr_sz) RxNone 0])) = SPIFLASH_OK ->
  SPIFLASH_async_trigger SPIFLASH_OK
    (Build_world (st SPIFLASH_OP_WRITE_sADDR wp a l p cbb 0 BCW_IDLE buf)
       m tr cbl)
  = (SPIFLASH_OK,
     Build_world
       (st SPIFLASH_OP_WRITE_sDATA (page_program_ms c) (wrap32 (a + wr_sz))
          (wrap32 (l - wr_sz)) (p + wr_sz) cbb 0 BCW_WAIT buf)
       m (tr ++ [HalTxrx (mem_bytes m p wr_sz) RxNone 0]) cbl).
Proof.
  intros rem_pg_sz wr_sz Hok.
  unfold SPIFLASH_async_trigger, _spiflash_end_async, end_async_results,
    _spiflash_begin_async, bind.
  cbn. fold rem_pg_sz. fold wr_sz. rewrite Hok. reflexivity.
Qed.

Lemma results_write_data_more wp a l p cbb buf m tr cbl :
  l <> 0 ->
  end_async_results SPIFLASH_OK
    (Build_world (st SPIFLASH_OP_WRITE_sDATA wp a l p cbb 0 BCW_IDLE buf)
       m tr cbl)
  = (fst (h ((tr ++ [HalCs 1]) ++ [HalTxrx [write_enable cmd] RxNone 0])),
     Build_world (st SPIFLASH_OP_WRITE_sWREN wp a l p cbb 0 BCW_IDLE buf)
       m ((tr ++ [HalCs 1]) ++ [HalTxrx [write_enable cmd] RxNone 0]) cbl).
Proof.
  intros Hl. apply Z.eqb_neq in Hl.
  unfold end_async_results, _spiflash_begin_async, bind.
  cbn. rewrite Hl. reflexivity.
Qed.

Lemma results_write_data_done wp a p cbb buf m tr cbl :
  end_async_results SPIFLASH_OK
    (Build_world (st SPIFLASH_OP_WRITE_sDATA wp a 0 p cbb 0 BCW_IDLE buf)
       m tr cbl)
  = (SPIFLASH_OK,
     Build_world (st SPIFLASH_OP_IDLE 0 a 0 p cbb 0 BCW_IDLE buf)
       m (tr ++ [HalCs 0]) cbl).
Proof. reflexivity. Qed.

End WriteSteps.

Lemma hal_follows_app h bit sc1 : forall tr sc2,
  hal_follows h bit tr (sc1 ++ sc2) <->
  hal_follows h bit tr sc1 /\ hal_follows h bit (tr ++ map fst sc1) sc2.
Proof.
  induction sc1 as [|[e x] sc1 IH]; intros tr sc2.
  - cbn. rewrite app_nil_r. tauto.
  - cbn [app hal_follows map fst]. rewrite IH.
    rewrite <- app_assoc. cbn [app]. tauto.
Qed.

Lemma exe_loop_triggers (k : nat) : forall fuel w w',
  triggers k w = Some w' ->
  exe_loop (k + fuel) SPIFLASH_OK w = exe_loop fuel SPIFLASH_OK w'.
Proof.
  induction k as [|k IH]; intros fuel w w' H.
  - injection H as ->. reflexivity.
  - cbn [triggers] in H.
    destruct (is_idle (op (w_spi w))) eqn:Ei; [discriminate H|].
    destruct (fst (SPIFLASH_async_trigger SPIFLASH_OK w) =? SPIFLASH_OK) eqn:Er;
      [|discriminate H].
    change (S k + fuel)%nat with (S (k + fuel)).
    rewrite exe_loop_more by (rewrite Ei; reflexivity).
    apply Z.eqb_eq in Er. rewrite Er. apply IH. exact H.
Qed.

Lemma page_remainder (P a l k : Z) :
  0 <= k < 32 -> P = 2 ^ k -> 0 <= a < 2 ^ 32 -> 0 < l ->
  (if l <? wrap32 (P - Z.land a (wrap32 (P - 1)))
   then l else wrap32 (P - Z.land a (wrap32 (P - 1))))
  = Z.min l (P - a mod P).
Proof.
  intros Hk -> Ha Hl.
  assert (0 < 2 ^ k) by (apply Z.pow_pos_nonneg; lia).
  assert (2 ^ k <= 2 ^ 31) by (apply Z.pow_le_mono_r; lia).
  rewrite (wrap32_small (2 ^ k - 1)) by lia.
  change (2 ^ k - 1) with (Z.pred (2 ^ k)). rewrite <- Z.ones_equiv.
  rewrite Z.land_ones by lia.
  pose proof (Z.mod_pos_bound a (2 ^ k) ltac:(lia)).
  rewrite wrap32_small by lia.
  destruct (l <? 2 ^ k - a mod 2 ^ k) eqn:E.
  - apply Z.ltb_lt in E. lia.
  - apply Z.ltb_ge in E. lia.
Qed.

Section WriteLoop.
Variables (c : spiflash_config_t) (cmd : spiflash_cmd_tbl_t)
  (h : spiflash_hal_t) (acb : bool) (cbb : Z) (m : Z -> Z)
  (cbl : list (spiflash_op_t * Z)).

Local Abbreviation st0 := (Build_spiflash_t c cmd h acb 0).

Lemma trigger_write_data_more wp a l p buf tr :
  l <> 0 ->
  fst (h ((tr ++ [HalCs 1]) ++ [HalTxrx [write_enable cmd] RxNone 0]))
    = SPIFLASH_OK ->
  SPIFLASH_async_trigger SPIFLASH_OK
    (Build_world (st0 SPIFLASH_OP_WRITE_sDATA wp a l p cbb 0 BCW_IDLE buf)
       m tr cbl)
  = (SPIFLASH_OK,
     Build_world (st0 SPIFLASH_OP_WRITE_sWREN wp a l p cbb 0 BCW_IDLE buf)
       m ((tr ++ [HalCs 1]) ++ [HalTxrx [write_enable cmd] RxNone 0]) cbl).
Proof.
  intros Hl Hok. unfold SPIFLASH_async_trigger, bind.
  rewrite end_async_bcw_idle, results_write_data_more by exact Hl.
  cbn. rewrite Hok. reflexivity.
Qed.

Lemma trigger_write_data_done wp a p buf tr :
  SPIFLASH_async_trigger SPIFLASH_OK
    (Build_world (st0 SPIFLASH_OP_WRITE_sDATA wp a 0 p cbb 0 BCW_IDLE buf)
       m tr cbl)
  = (SPIFLASH_OK,
     Build_world (st0 SPIFLASH_OP_IDLE 0 a 0 p cbb 0 BCW_IDLE buf)
       m (tr ++ [HalCs 0]) cbl).
Proof. reflexivity. Qed.

Lemma trigger_write_check_more wp a l p b0 rest tr :
  l <> 0 ->
  Z.land b0 (sr_busy_bit cmd) = 0 ->
  fst (h (((tr ++ [HalCs 0]) ++ [HalCs 1])
          ++ [HalTxrx [write_enable cmd] RxNone 0]))
    = SPIFLASH_OK ->
  SPIFLASH_async_trigger SPIFLASH_OK
    (Build_world
       (st0 SPIFLASH_OP_WRITE_sDATA wp a l p cbb 0 BCW_CHECK (b0 :: rest))
       m tr cbl)
  = (SPIFLASH_OK,
     Build_world
       (st0 SPIFLASH_OP_WRITE_sWREN wp a l p cbb 0 BCW_IDLE (b0 :: rest))
       m (((tr ++ [HalCs 0]) ++ [HalCs 1])
          ++ [HalTxrx [write_enable cmd] RxNone 0]) cbl).
Proof.
  intros Hl Hrdy Hok. unfold SPIFLASH_async_trigger, bind.
  rewrite end_async_bcw_check_ready, results_write_data_more by assumption.
  cbn. rewrite Hok. reflexivity.
Qed.

Lemma trigger_write_check_done wp a p b0 rest tr :
  Z.land b0 (sr_busy_bit cmd) = 0 ->
  SPIFLASH_async_trigger SPIFLASH_OK
    (Build_world
       (st0 SPIFLASH_OP_WRITE_sDATA wp a 0 p cbb 0 BCW_CHECK (b0 :: rest))
       m tr cbl)
  = (SPIFLASH_OK,
     Build_world (st0 SPIFLASH_OP_IDLE 0 a 0 p cbb 0 BCW_IDLE (b0 :: rest))
       m ((tr ++ [HalCs 0]) ++ [HalCs 0]) cbl).
Proof.
  intros Hrdy. unfold SPIFLASH_async_trigger, bind.
  rewrite end_async_bcw_check_ready, results_write_data_done by assumption.
  reflexivity.
Qed.

End WriteLoop.

Lemma page_split_done fuel P a : page_split fuel P a 0 = [].
Proof. destruct fuel; reflexivity. Qed.

Lemma page_split_more fuel P a l :
  0 < l -> (Z.to_nat l <= fuel)%nat ->
  exists fuel',
    fuel = S fuel' /\
    page_split fuel P a l
    = (a, Z.min l (P - a mod P))
      :: page_split fuel' P (a + Z.min l (P - a mod P))
           (l - Z.min l (P - a mod P)).
Proof.
  intros Hl Hfuel. destruct fuel as [|fuel']; [lia|].
  exists fuel'. split; [reflexivity|].
  cbn [page_split].
  replace (l <=? 0) with false by (symmetry; apply Z.leb_gt; lia).
  reflexivity.
Qed.

Lemma triggers_one (w w' : world) :
  SPIFLASH_async_trigger SPIFLASH_OK w = (SPIFLASH_OK, w') ->
  is_idle (op (w_spi w)) = false ->
  triggers 1 w = Some w'.
Proof. intros Ht Hi. rewrite (triggers_step 0 w w' Hi Ht). reflexivity. Qed.

Lemma triggers_snoc (n : nat) (w w1 w2 : world) :
  triggers n w = Some w1 ->
  SPIFLASH_async_trigger SPIFLASH_OK w1 = (SPIFLASH_OK, w2) ->
  is_idle (op (w_spi w1)) = false ->
  triggers (n + 1) w = Some w2.
Proof.
  intros H Ht Hi. rewrite (triggers_add n 1 w w1 H).
  apply triggers_one; assumption.
Qed.

Lemma triggers_chain (n k : nat) (w w1 w2 : world) :
  triggers n w = Some w1 ->
  triggers k w1 = Some w2 ->
  triggers (n + k) w = Some w2.
Proof. intros H1 H2. rewrite (triggers_add n k w w1 H1). exact H2. Qed.

Lemma chunks_script_head c cmd dummy m p fuel P a l polls tail :
  0 < l -> (Z.to_nat l <= fuel)%nat ->
  exists sc,
    chunks_script c cmd dummy m p (page_split fuel P a l) polls ++ tail
    = (HalCs 1, ExpOk) :: (HalTxrx [write_enable cmd] RxNone 0, ExpOk) :: sc.
Proof.
  intros Hl Hfuel.
  destruct (page_split_more fuel P a l Hl Hfuel) as (fuel' & _ & ->).
  cbn [chunks_script chunk_script app]. eexists. reflexivity.
Qed.

Section WriteRun.
Variables (c : spiflash_config_t) (cmd : spiflash_cmd_tbl_t)
  (h : spiflash_hal_t) (acb : bool) (cbb : Z) (m : Z -> Z)
  (cbl : list (spiflash_op_t * Z)) (k : Z) (tailz : list Z).
Hypotheses (Hk : 0 <= k < 32) (HP : page_sz c = 2 ^ k)
  (Hasz : 0 <= addr_sz c) (Hdsz : 0 <= addr_dummy_sz c)
  (Hpp : 0 <= page_program cmd < 256).

Local Abbreviation st0 := (Build_spiflash_t c cmd h acb 0).
Local Abbreviation dz := (take (Z.to_nat (addr_dummy_sz c)) tailz).

Lemma chunk_size_bounds a l :
  0 < l -> 1 <= Z.min l (page_sz c - a mod page_sz c) <= l.
Proof.
  intros Hl. rewrite HP.
  assert (0 < 2 ^ k) by (apply Z.pow_pos_nonneg; lia).
  pose proof (Z.mod_pos_bound a (2 ^ k) ltac:(lia)). lia.
Qed.

Lemma write_loop (fuel : nat) :
  forall a l p wp b rest tr polls,
    0 <= a -> 0 < l -> a + l <= 2 ^ 32 -> (Z.to_nat l <= fuel)%nat ->
    (Z.to_nat (addr_sz c) <= length rest)%nat ->
    drop (Z.to_nat (addr_sz c)) rest = tailz ->
    hal_follows h (sr_busy_bit cmd) tr
      (chunks_script c cmd dz m p (page_split fuel (page_sz c) a l) polls
       ++ [(HalCs 0, ExpOk)]) ->
    exists n w',
      triggers n
        (Build_world
           (st0 SPIFLASH_OP_WRITE_sWREN wp a l p cbb 0 BCW_IDLE (b :: rest))
           m ((tr ++ [HalCs 1]) ++ [HalTxrx [write_enable cmd] RxNone 0]) cbl)
      = Some w' /\
      is_idle (op (w_spi w')) = true /\
      w_trace w'
      = tr ++ map fst
          (chunks_script c cmd dz m p (page_split fuel (page_sz c) a l) polls
           ++ [(HalCs 0, ExpOk)]).
Proof.
  induction fuel as [|fuel IH];
    intros a l p wp b rest tr polls Ha Hl Hend Hfuel Hrest Htail Hf; [lia|].
  cbn [page_split] in Hf |- *.
  replace (l <=? 0) with false in Hf |- * by (symmetry; apply Z.leb_gt; lia).
  set (cz := Z.min l (page_sz c - a mod page_sz c)) in *.
  pose proof (chunk_size_bounds a l Hl) as Hcz. fold cz in Hcz.
  set (T := page_program_ms c) in *.
  cbn [chunks_script chunk_script fst snd app hal_follows] in Hf.
  fold T in Hf.
  destruct Hf as (_ & [_ _] & _ & _ & [Hok_frame _] & [Hok_data _] & _ & _ & Hf).
  (* the frame in the scratch buffer *)
  assert (compose_buf c (Z.to_nat (addr_sz c)) 0 a 1
            (wrap8 (page_program cmd) :: rest)
          = page_program cmd :: address_bytes c a ++ tailz) as Hbuf.
  { rewrite command_frame_buf, wrap8_small, Htail by assumption. reflexivity. }
  assert (take (Z.to_nat (1 + addr_sz c + addr_dummy_sz c))
            (page_program cmd :: address_bytes c a ++ tailz)
          = page_program cmd :: address_bytes c a ++ dz) as Hframe.
  { rewrite <- Htail. apply command_frame; assumption. }
  pose proof (trigger_write_wren c cmd h acb 0 wp a l p cbb b rest m
                ((tr ++ [HalCs 1]) ++ [HalTxrx [write_enable cmd] RxNone 0]) cbl)
    as HA.
  rewrite Hbuf, Hframe in HA. specialize (HA Hok_frame).
  (* the data *)
  match type of HA with
  | _ = (_, Build_world (Build_spiflash_t _ _ _ _ _ _ _ _ _ _ _ _ _ ?buf1) _ ?tr1 _) =>
      pose proof (trigger_write_addr c cmd h acb 0 wp a l p cbb buf1 m tr1 cbl)
        as HB
  end.
  cbv zeta in HB.
  rewrite (page_remainder (page_sz c) a l k Hk HP) in HB by lia.
  fold cz in HB. specialize (HB Hok_data).
  rewrite (wrap32_small (l - cz)) in HB by lia.
  (* the wait *)
  match type of HB with
  | _ = (_, Build_world (Build_spiflash_t _ _ _ _ _ ?o ?wp1 ?a1 ?l1 ?p1 _ _ _ ?buf1) _ ?tr1 _) =>
      pose proof (trigger_bcw_wait c cmd h acb 0 o wp1 a1 l1 p1 cbb buf1 m tr1 cbl
                    eq_refl) as HC
  end.
  fold T in HB, HC.
  pose proof (triggers_one _ _ HA eq_refl) as R1.
  pose proof (triggers_snoc _ _ _ _ R1 HB eq_refl) as R2.
  pose proof (triggers_snoc _ _ _ _ R2 HC eq_refl) as R3.
  clear HA HB HC R1 R2.
  destruct (T =? 0) eqn:ET.
  - (* no status polls *)
    rewrite app_nil_l in Hf.
    destruct (Z.eq_dec (l - cz) 0) as [Hdone|Hmore].
    + rewrite Hdone in *. rewrite page_split_done in *.
      eexists. eexists. split; [|split].
      * eapply triggers_snoc; [exact R3 | | reflexivity].
        apply trigger_write_data_done.
      * reflexivity.
      * cbn [w_trace chunks_script chunk_script fst snd app map]. fold T.
        rewrite ET. cbn [app map fst]. rewrite <- !app_assoc. reflexivity.
    + assert (0 < l - cz) as Hl' by lia.
      assert (Z.to_nat (l - cz) <= fuel)%nat as Hfuel' by lia.
      rewrite (wrap32_small (a + cz)) in R3 by lia.
      destruct (chunks_script_head c cmd dz m (p + cz) fuel (page_sz c)
                  (a + cz) (l - cz) (tl polls) [(HalCs 0, ExpOk)] Hl' Hfuel')
        as (sc & Hsc).
      pose proof Hf as Hf2. rewrite Hsc in Hf2.
      cbn [hal_follows] in Hf2. destruct Hf2 as (_ & [Hok_wren _] & _).
      destruct (IH (a + cz) (l - cz) (p + cz) T (page_program cmd)
                  (address_bytes c a ++ tailz) _ (tl polls)
                  ltac:(lia) Hl' ltac:(lia) Hfuel'
                  ltac:(rewrite length_app, length_address_bytes by assumption; lia)
                  ltac:(apply drop_address_bytes; assumption)
                  Hf)
        as (n & w' & Hrun & Hidle & Htr).
      eexists. exists w'. split; [|split].
      * eapply triggers_chain; [|exact Hrun].
        eapply triggers_snoc; [exact R3 | | reflexivity].
        apply trigger_write_data_more; assumption.
      * exact Hidle.
      * rewrite Htr.
        cbn [chunks_script chunk_script fst snd app map]. fold T.
        rewrite ET. cbn [app map fst].
        rewrite !map_app. rewrite <- !app_assoc. reflexivity.
  - (* status polls until the chip is ready *)
    match type of Hf with
    | hal_follows _ _ _ (((?x ++ ?y) ++ ?z) ++ ?u) =>
        replace (((x ++ y) ++ z) ++ u) with (x ++ (y ++ z ++ u)) in Hf
          by (rewrite <- !app_assoc; reflexivity)
    end.
    apply hal_follows_app in Hf. destruct Hf as [Hpoll Hf].
    edestruct (poll_loop c cmd h acb 0 (hd 0%nat polls)
                 SPIFLASH_OP_WRITE_sDATA T (wrap32 (a + cz)) (l - cz) (p + cz)
                 cbb (page_program cmd) (address_bytes c a ++ tailz) m _ cbl
                 eq_refl Hpoll)
      as (srb & Hrdy & Rp).
    pose proof (triggers_chain _ _ _ _ _ R3 Rp) as R4. clear R3 Rp.
    cbn [app hal_follows] in Hf. destruct Hf as (_ & Hf).
    destruct (Z.eq_dec (l - cz) 0) as [Hdone|Hmore].
    + rewrite Hdone in *. rewrite page_split_done in *.
      eexists. eexists. split; [|split].
      * eapply triggers_snoc; [exact R4 | | reflexivity].
        apply trigger_write_check_done. exact Hrdy.
      * reflexivity.
      * cbn [w_trace chunks_script chunk_script fst snd app map]. fold T.
        rewrite ET. cbn [app map fst].
        rewrite !map_app. cbn [app map fst]. rewrite <- !app_assoc. reflexivity.
    + assert (0 < l - cz) as Hl' by lia.
      assert (Z.to_nat (l - cz) <= fuel)%nat as Hfuel' by lia.
      rewrite (wrap32_small (a + cz)) in R4 by lia.
      destruct (chunks_script_head c cmd dz m (p + cz) fuel (page_sz c)
                  (a + cz) (l - cz) (tl polls) [(HalCs 0, ExpOk)] Hl' Hfuel')
        as (sc & Hsc).
      pose proof Hf as Hf2. rewrite Hsc in Hf2.
      cbn [hal_follows] in Hf2. destruct Hf2 as (_ & [Hok_wren _] & _).
      destruct (IH (a + cz) (l - cz) (p + cz) (backoff (hd 0%nat polls) T) srb
                  (address_bytes c a ++ tailz) _ (tl polls)
                  ltac:(lia) Hl' ltac:(lia) Hfuel'
                  ltac:(rewrite length_app, length_address_bytes by assumption; lia)
                  ltac:(apply drop_address_bytes; assumption)
                  Hf)
        as (n & w' & Hrun & Hidle & Htr).
      eexists. exists w'. split; [|split].
      * eapply triggers_chain; [|exact Hrun].
        eapply triggers_snoc; [exact R4 | | reflexivity].
        apply trigger_write_check_more; assumption.
      * exact Hidle.
      * rewrite Htr.
        cbn [chunks_script chunk_script fst snd app map]. fold T.
        rewrite ET. cbn [app map fst].
        rewrite !map_app. cbn [app map fst]. rewrite <- !app_assoc. reflexivity.
Qed.
End WriteRun.

Lemma page_split_spec (fuel : nat) : forall P a len,
  0 < P -> 0 <= len -> (Z.to_nat len <= fuel)%nat ->
  split_at_pages P a len (page_split fuel P a len).
Proof.
  induction fuel as [|fuel IH]; intros P a len HP Hlen Hfuel.
  - cbn. lia.
  - cbn [page_split]. destruct (len <=? 0) eqn:E.
    + apply Z.leb_le in E. cbn. lia.
    + apply Z.leb_gt in E.
      pose proof (Z.mod_pos_bound a P HP) as Hmod.
      cbn [split_at_pages].
      split; [reflexivity|]. split; [lia|]. split; [lia|]. split.
      * intros Hne.
        destruct (Z.le_gt_cases len (P - a mod P)) as [Hle|Hgt].
        -- exfalso. apply Hne. rewrite Z.min_l by lia.
           replace (len - len) with 0 by lia. apply page_split_done.
        -- rewrite Z.min_r by lia.
           replace (a + (P - a mod P)) with (a - a mod P + 1 * P) by lia.
           rewrite Z.mod_add by lia.
           rewrite (Z.div_mod a P) at 1 by lia.
           replace (P * (a / P) + a mod P - a mod P) with ((a / P) * P) by lia.
           apply Z.mod_mul. lia.
      * apply IH; lia.
Qed.

Lemma page_split_sum (fuel : nat) : forall P a len,
  0 < P -> 0 <= len -> (Z.to_nat len <= fuel)%nat ->
  fold_right Z.add 0 (map snd (page_split fuel P a len)) = len.
Proof.
  induction fuel as [|fuel IH]; intros P a len HP Hlen Hfuel.
  - cbn. lia.
  - cbn [page_split]. destruct (len <=? 0) eqn:E.
    + apply Z.leb_le in E. cbn. lia.
    + apply Z.leb_gt in E.
      pose proof (Z.mod_pos_bound a P HP) as Hmod.
      cbn [map snd fold_right]. rewrite IH by lia. lia.
Qed.

Lemma length_mem_bytes m p n : 0 <= n -> Z.of_nat (length (mem_bytes m p n)) = n.
Proof. intros H. unfold mem_bytes. rewrite length_map, length_seqZ. lia. Qed.

Lemma payload_sizes_poll_script rdsr t n : forall tl_,
  payload_sizes false (map fst (poll_script rdsr t n) ++ HalCs 0 :: tl_)
  = payload_sizes false tl_.
Proof.
  revert t. induction n as [|n IH]; intros t tl_.
  - reflexivity.
  - cbn [poll_script map fst app payload_sizes]. apply IH.
Qed.

Lemma payload_sizes_chunks c cmd dummy m (chs : list (Z * Z)) :
  forall p polls,
    Forall (fun ch => 0 <= snd ch) chs ->
    payload_sizes false
      (map fst (chunks_script c cmd dummy m p chs polls ++ [(HalCs 0, ExpOk)]))
    = map snd chs.
Proof.
  induction chs as [|ch chs IH]; intros p polls Hpos.
  - reflexivity.
  - inversion Hpos as [|? ? Hch Hchs]; subst.
    cbn [chunks_script chunk_script app map fst snd payload_sizes].
    rewrite length_mem_bytes by exact Hch. f_equal.
    destruct (page_program_ms c =? 0).
    + cbn [app]. apply IH. exact Hchs.
    + rewrite <- !app_assoc. rewrite !map_app. cbn [map fst app].
      rewrite payload_sizes_poll_script.
      specialize (IH (p + snd ch) (tl polls) Hchs).
      rewrite map_app in IH. exact IH.
Qed.

Lemma page_split_sizes_pos (fuel : nat) : forall P a len,
  0 < P -> Forall (fun ch => 0 <= snd ch) (page_split fuel P a len).
Proof.
  induction fuel as [|fuel IH]; intros P a len HP.
  - constructor.
  - cbn [page_split]. destruct (len <=? 0) eqn:E; [constructor|].
    apply Z.leb_gt in E. pose proof (Z.mod_pos_bound a P HP).
    constructor; [cbn; lia | apply IH; exact HP].
Qed.


(** C3 (as amended): on a blocking driver in its clean idle state, with a
    page size that is a power of two, a write of len > 0 bytes that stays
    inside the 32-bit address space, on a host whose transfers succeed
    and whose status polls end (the [polls] give the number of busy
    answers after each chunk), returns OK once the fuel covers the run and
    makes exactly the host calls of [write_script]: for each chunk of the
    split of [addr, addr+len) at the multiples of page_sz, a write-enable
    frame, the page-program opcode with the address of the running cursor,
    the chunk's bytes from the caller's buffer, then the busy wait.  The
    payload sizes are the sizes of the split, they add up to len, and the
    split is the one at the page boundaries. *)
Theorem write_page_split (w : world) (a len buf k : Z) (polls : list nat) :
  op (w_spi w) = SPIFLASH_OP_IDLE ->
  async (w_spi w) = SPIFLASH_SYNCHRONOUS ->
  could_be_busy (w_spi w) = 0 ->
  busy_pre_check (w_spi w) = 0 ->
  busy_check_wait (w_spi w) = BCW_IDLE ->
  length (tx_internal_buf (w_spi w)) = 16%nat ->
  0 <= k < 32 ->
  page_sz (cfg (w_spi w)) = 2 ^ k ->
  0 <= addr_sz (cfg (w_spi w)) ->
  0 <= addr_dummy_sz (cfg (w_spi w)) ->
  1 + addr_sz (cfg (w_spi w)) + addr_dummy_sz (cfg (w_spi w)) <= 16 ->
  0 <= page_program (cmd_tbl (w_spi w)) < 256 ->
  0 <= a -> 0 < len -> a + len <= 2 ^ 32 ->
  hal_follows (hal (w_spi w)) (sr_busy_bit (cmd_tbl (w_spi w))) (w_trace w)
    (write_script (cfg (w_spi w)) (cmd_tbl (w_spi w))
       (tx_internal_buf (w_spi w)) (w_mem w) a len buf polls) ->
  exists n w',
    (forall fuel, (n <= fuel)%nat ->
       SPIFLASH_write a len buf fuel w = Some (SPIFLASH_OK, w')) /\
    op (w_spi w') = SPIFLASH_OP_IDLE /\
    w_trace w'
    = w_trace w
      ++ map fst (write_script (cfg (w_spi w)) (cmd_tbl (w_spi w))
                    (tx_internal_buf (w_spi w)) (w_mem w) a len buf polls) /\
    payload_sizes false
      (map fst (write_script (cfg (w_spi w)) (cmd_tbl (w_spi w))
                  (tx_internal_buf (w_spi w)) (w_mem w) a len buf polls))
    = map snd (page_chunks (page_sz (cfg (w_spi w))) a len) /\
    fold_right Z.add 0 (map snd (page_chunks (page_sz (cfg (w_spi w))) a len))
    = len /\
    split_at_pages (page_sz (cfg (w_spi w))) a len
      (page_chunks (page_sz (cfg (w_spi w))) a len).
Proof.
  destruct w as [s m tr cbl].
  destruct s as [c cmd h acb amode o wp ad ln p cbb pre bcw scratch].
  cbn [w_spi w_trace w_mem tx_internal_buf op busy_pre_check busy_check_wait
       wait_period_ms hal cmd_tbl cfg async could_be_busy].
  intros -> -> -> -> -> Hlen Hk HP Hasz Hdsz Hfit Hpp Ha Hl Hend Hf.
  destruct scratch as [|b rest]; [discriminate Hlen|].
  assert (0 < page_sz c) as HPpos by (rewrite HP; apply Z.pow_pos_nonneg; lia).
  unfold write_script, dummy_bytes in *.
  replace (Z.to_nat (1 + addr_sz c)) with (S (Z.to_nat (addr_sz c))) in * by lia.
  cbn [drop] in *.
  set (tailz := drop (Z.to_nat (addr_sz c)) rest) in *.
  unfold page_chunks in *.
  pose proof Hf as Hf2.
  destruct (chunks_script_head c cmd
              (take (Z.to_nat (addr_dummy_sz c)) tailz) m buf (Z.to_nat len)
              (page_sz c) a len polls [(HalCs 0, ExpOk)] Hl (Nat.le_refl _))
    as (sc & Hsc).
  rewrite Hsc in Hf2. cbn [hal_follows] in Hf2.
  destruct Hf2 as (_ & [Hok_wren _] & _).
  destruct (write_loop c cmd h acb 0 m cbl k tailz Hk HP Hasz Hdsz Hpp
              (Z.to_nat len) a len buf wp b rest tr polls
              Ha Hl Hend (Nat.le_refl _) ltac:(cbn in Hlen; lia) eq_refl Hf)
    as (n & w' & Hrun & Hidle & Htr).
  exists n. eexists. split; [|split; [|split; [|split; [|split]]]].
  - intros fuel Hfuel.
    unfold SPIFLASH_write, _spiflash_exe, _spiflash_begin_async, bind.
    cbn. rewrite Hok_wren.
    replace fuel with (n + (fuel - n))%nat by lia.
    rewrite (exe_loop_triggers n _ _ _ Hrun).
    rewrite exe_loop_done by (rewrite Hidle; reflexivity).
    reflexivity.
  - cbn. destruct (op (w_spi w')); [reflexivity|discriminate Hidle..].
  - cbn [w_spi w_trace upd_spi snd]. exact Htr.
  - apply payload_sizes_chunks. apply page_split_sizes_pos. exact HPpos.
  - apply page_split_sum; lia.
  - apply page_split_spec; lia.
Qed.

Lemma write_page_split_witness :
  exists n w',
    (forall fuel, (n <= fuel)%nat ->
       SPIFLASH_write 0x180 300 0 fuel world_be3 = Some (SPIFLASH_OK, w')) /\
    op (w_spi w') = SPIFLASH_OP_IDLE /\
    w_trace w'
    = w_trace world_be3
      ++ map fst (write_script (cfg (w_spi world_be3))
                    (cmd_tbl (w_spi world_be3))
                    (tx_internal_buf (w_spi world_be3)) (w_mem world_be3)
                    0x180 300 0 [0%nat; 0%nat]) /\
    payload_sizes false
      (map fst (write_script (cfg (w_spi world_be3))
                  (cmd_tbl (w_spi world_be3))
                  (tx_internal_buf (w_spi world_be3)) (w_mem world_be3)
                  0x180 300 0 [0%nat; 0%nat]))
    = map snd (page_chunks (page_sz (cfg (w_spi world_be3))) 0x180 300) /\
    fold_right Z.add 0
      (map snd (page_chunks (page_sz (cfg (w_spi world_be3))) 0x180 300))
    = 300 /\
    split_at_pages (page_sz (cfg (w_spi world_be3))) 0x180 300
      (page_chunks (page_sz (cfg (w_spi world_be3))) 0x180 300).
Proof.
  apply (write_page_split world_be3 0x180 300 0 8 [0%nat; 0%nat]);
    try reflexivity; try lia.
  - vm_compute. discriminate.
  - vm_compute. discriminate.
  - vm_compute. split; [discriminate | reflexivity].
  - vm_compute. repeat split.
Defined.

(** The split of scenario S2: 300 bytes at 0x180 with 256-byte pages. *)
Lemma page_chunks_s2 : page_chunks 256 0x180 300 = [(0x180, 128); (0x200, 172)].
Proof. vm_compute. reflexivity. Qed.

(** C3 as stated fails when the page size is not a power of two: the
    engine takes [addr & (page_sz - 1)] for the offset in the page.  With
    264-byte pages a write of 300 bytes at address 8 is sent as
    264 + 8 + 8 + 8 + 8 + 4 bytes, the first payload running across the
    page boundary at 264; the split at the multiples of 264 is 256 + 44. *)
Lemma write_page_split_fails_for_page_264 :
  match SPIFLASH_write 8 300 0 100 world_page264 with
  | Some (res, w') =>
      res = SPIFLASH_OK /\
      payload_sizes false (w_trace w') = [264; 8; 8; 8; 8; 4] /\
      map snd (page_chunks 264 8 300) = [256; 44] /\
      payload_sizes false (w_trace w') <> map snd (page_chunks 264 8 300)
  | None => False
  end.
Proof. vm_compute. repeat split. discriminate. Qed.

(** ** The scratch buffer stays clean

    With at least one address byte, no operation writes a non-zero byte
    after the address area of the scratch buffer: the register and status
    writes use bytes 0 and 1, the commands with an address bytes 0 to
    [addr_sz]. *)

Section Scratch.
Variable c : spiflash_config_t.
Hypothesis Hasz : 1 <= addr_sz c.
























End Scratch.

Lemma world_ok_init c cmd h cb amode m :
  world_ok c (init_world (SPIFLASH_init c cmd h cb amode) m).
Proof.
  split; [reflexivity|]. split; [reflexivity|].
  cbn [init_world w_spi SPIFLASH_init tx_internal_buf].
  apply Forall_drop, Forall_forall. intros x Hx.
  apply elem_of_replicate in Hx. tauto.
Qed.

Lemma all_zero_replicate (l : list Z) :
  Forall (fun x => x = 0) l -> l = replicate (length l) 0.
Proof.
  induction 1 as [|x l -> _ IH]; [reflexivity|]. cbn. f_equal. exact IH.
Qed.

Lemma set_tx_nonneg (i v : Z) (s : spiflash_t) :
  0 <= i ->
  set_tx i v s
  = set_tx_internal_buf (<[Z.to_nat i := wrap8 v]> (tx_internal_buf s)) s.
Proof.
  intros Hi. unfold set_tx. destruct (Z.ltb_spec i 0); [lia|reflexivity].
Qed.

Lemma insert_tail (n : nat) (v x : Z) (l : list Z) :
  <[S n := v]> (x :: l) = x :: <[n := v]> l.
Proof. reflexivity. Qed.

Lemma clean_frame c a x (rest : list Z) :
  1 <= addr_sz c -> 0 <= addr_dummy_sz c ->
  1 + addr_sz c + 1 + addr_dummy_sz c <= 16 ->
  length rest = 15%nat ->
  Forall (fun y => y = 0) (drop (Z.to_nat (addr_sz c)) rest) ->
  take (Z.to_nat (1 + addr_sz c + 1 + addr_dummy_sz c))
    (<[Z.to_nat (1 + addr_sz c + 1) := wrap8 0]>
       (x :: address_bytes c a ++ drop (Z.to_nat (addr_sz c)) rest))
  = x :: address_bytes c a ++ replicate (Z.to_nat (1 + addr_dummy_sz c)) 0.
Proof.
  intros Hsz Hdz Hfit Hlen Hz.
  rewrite (all_zero_replicate _ Hz), length_drop, Hlen.
  replace (Z.to_nat (1 + addr_sz c + 1))
    with (S (length (address_bytes c a) + 1))
    by (rewrite length_address_bytes; lia).
  rewrite insert_tail, insert_app_r, insert_replicate.
  replace (Z.to_nat (1 + addr_sz c + 1 + addr_dummy_sz c))
    with (S (length (address_bytes c a) + Z.to_nat (1 + addr_dummy_sz c)))
    by (rewrite length_address_bytes; lia).
  cbn [take]. rewrite take_app_add', take_replicate by reflexivity.
  do 3 f_equal. lia.
Qed.
(** ** The fast-read frame on a clean scratch buffer *)

Section FastRead.
Variables (c : spiflash_config_t) (cmd : spiflash_cmd_tbl_t)
  (h : spiflash_hal_t) (acb : bool).
Hypothesis Hsz : 1 <= addr_sz c.
Hypothesis Hdz : 0 <= addr_dummy_sz c.
Hypothesis Hfit : 1 + addr_sz c + 1 + addr_dummy_sz c <= 16.

Lemma begin_async_fast_read amode wp a l p cbb bcw b rest m tr cbl :
  length rest = 15%nat ->
  Forall (fun y => y = 0) (drop (Z.to_nat (addr_sz c)) rest) ->
  let tr' := (tr ++ [HalCs 1])
             ++ [HalTxrx (fast_read_frame c cmd a) (RxCaller p) l] in
  exists buf',
    _spiflash_begin_async
      (Build_world
         (Build_spiflash_t c cmd h acb amode SPIFLASH_OP_FAST_READ wp a l p
            cbb 0 bcw (b :: rest)) m tr cbl)
    = (fst (h tr'),
       Build_world
         (Build_spiflash_t c cmd h acb amode SPIFLASH_OP_FAST_READ wp a l p
            cbb 0 bcw buf')
         (mem_store p l (snd (h tr')) m) tr' cbl).
Proof.
  intros Hlen Hz tr'. eexists.
  unfold _spiflash_begin_async, _spiflash_compose_address, bind.
  cbn -[compose_loop]. rewrite !compose_loop_buf. cbn -[compose_loop].
  rewrite set_tx_nonneg by lia.
  unfold tx_frame. cbn -[compose_buf].
  rewrite insert_head, command_frame_buf by lia.
  rewrite clean_frame by first [lia | assumption].
  reflexivity.
Qed.

Lemma trigger_fast_read_done wp a l p cbb buf m tr cbl :
  SPIFLASH_async_trigger SPIFLASH_OK
    (Build_world
       (Build_spiflash_t c cmd h acb 0 SPIFLASH_OP_FAST_READ wp a l p
          cbb 0 BCW_IDLE buf) m tr cbl)
  = (SPIFLASH_OK,
     Build_world
       (Build_spiflash_t c cmd h acb 0 SPIFLASH_OP_IDLE 0 a l p
          cbb 0 BCW_IDLE buf) m (tr ++ [HalCs 0]) cbl).
Proof. reflexivity. Qed.

End FastRead.
Lemma fast_read_sends_clean_frame c (w : world) (a len buf : Z) (fuel : nat) :
  world_ok c w -> quiescent (w_spi w) ->
  1 <= addr_sz c -> 0 <= addr_dummy_sz c ->
  1 + addr_sz c + 1 + addr_dummy_sz c <= 16 ->
  read_data_fast (cmd_tbl (w_spi w)) <> 0 ->
  (1 <= fuel)%nat ->
  exists res w' rest,
    SPIFLASH_fast_read a len buf fuel w = Some (res, w') /\
    w_trace w'
    = w_trace w
      ++ HalCs 1
         :: HalTxrx (fast_read_frame c (cmd_tbl (w_spi w)) a) (RxCaller buf) len
         :: rest.
Proof.
  intros [Hc [Hlen Hz]] (Hop & Hcbb & Hpre & Hbcw) Hsz Hdz Hfit Hfast Hfuel.
  destruct w as [[c' cmd h acb amode o wp a0 l0 p0 cbb pre bcw scratch] m tr cbl].
  cbn in Hc, Hlen, Hz, Hop, Hcbb, Hpre, Hbcw, Hfast |- *.
  subst c' o cbb pre bcw.
  destruct scratch as [|b rest]; [discriminate Hlen|].
  cbn [length] in Hlen.
  replace (Z.to_nat (1 + addr_sz c)) with (S (Z.to_nat (addr_sz c))) in Hz
    by lia.
  cbn [drop] in Hz.
  unfold SPIFLASH_fast_read, _spiflash_exe, bind.
  cbn -[_spiflash_begin_async exe_loop].
  rewrite (proj2 (Z.eqb_neq _ _) Hfast).
  cbv [set_op set_wr_len set_wr_buf set_addr cfg cmd_tbl hal async_cb async
       op wait_period_ms addr wr_len wr_buf could_be_busy busy_pre_check
       busy_check_wait tx_internal_buf].
  destruct (begin_async_fast_read c cmd h acb Hsz Hdz Hfit amode wp a len buf
              0 BCW_IDLE b rest m tr cbl ltac:(lia) Hz) as [buf' Hb].
  cbv zeta in Hb.
  destruct (amode =? 0) eqn:Em; cbn [negb].
  - apply Z.eqb_eq in Em. subst amode. rewrite Hb. cbn [fst snd].
    destruct fuel as [|fuel]; [lia|].
    match goal with
    | |- context [exe_loop _ ?r _] => destruct (r =? SPIFLASH_OK) eqn:Eres
    end.
    + rewrite exe_loop_more by (cbn; rewrite Eres; reflexivity).
      apply Z.eqb_eq in Eres. rewrite Eres, trigger_fast_read_done.
      cbn [fst snd]. rewrite exe_loop_done by reflexivity.
      do 3 eexists. split; [reflexivity|]. cbn.
      rewrite <- !app_assoc. reflexivity.
    + rewrite exe_loop_done by (cbn; rewrite Eres; reflexivity).
      do 2 eexists. exists []. split; [reflexivity|]. cbn.
      rewrite <- !app_assoc. reflexivity.
  - rewrite Hb. do 2 eexists. exists []. split; [reflexivity|]. cbn.
    rewrite <- !app_assoc. reflexivity.
Qed.



(** The frame of a 16-byte fast read at 0x002000 on a freshly initialised
    three-byte big-endian driver. *)
Lemma fast_read_frame_be3 :
  exists res w' rest,
    SPIFLASH_fast_read 0x002000 16 0x100 1 world_be3 = Some (res, w') /\
    w_trace w'
    = w_trace world_be3
      ++ HalCs 1
         :: HalTxrx [0x0b; 0x00; 0x20; 0x00; 0x00] (RxCaller 0x100) 16
         :: rest.
Proof.
  refine (fast_read_sends_clean_frame cfg_be3 world_be3 0x002000 16 0x100 1
            _ _ _ _ _ _ _).
  - apply world_ok_init.
  - repeat split.
  - cbn; lia.
  - cbn; lia.
  - cbn; lia.
  - discriminate.
  - lia.
Qed.



Ltac unfold_entry_in H :=
  cbn [run_request] in H;
  unfold SPIFLASH_write, SPIFLASH_read, SPIFLASH_fast_read, SPIFLASH_erase,
    SPIFLASH_chip_erase, SPIFLASH_write_sr, SPIFLASH_read_sr,
    SPIFLASH_read_sr_busy, SPIFLASH_read_jedec_id, SPIFLASH_read_product_id,
    SPIFLASH_read_reg, SPIFLASH_write_reg in H.

Ltac quiet_world w c :=
  let c' := fresh "c'" in
  let cmd := fresh "cmd" in let h := fresh "h" in let acb := fresh "acb" in
  let amode := fresh "amode" in let o := fresh "o" in
  let wp := fresh "wp" in let a0 := fresh "a0" in let l0 := fresh "l0" in
  let p0 := fresh "p0" in let cbb := fresh "cbb" in let pre := fresh "pre" in
  let bcw := fresh "bcw" in let scratch := fresh "scratch" in
  let m := fresh "m" in let tr := fresh "tr" in let cbl := fresh "cbl" in
  destruct w as [[c' cmd h acb amode o wp a0 l0 p0 cbb pre bcw scratch] m tr cbl];
  cbn [w_spi w_mem w_trace w_cb cfg cmd_tbl hal async_cb async op
       wait_period_ms addr wr_len wr_buf could_be_busy busy_pre_check
       busy_check_wait tx_internal_buf] in *.

Ltac seeded :=
  cbv [set_op set_wr_len set_wr_buf set_addr set_wait_period_ms
       set_busy_check_wait set_busy_pre_check set_tx_internal_buf
       cfg cmd_tbl hal async_cb async op wait_period_ms addr wr_len wr_buf
       could_be_busy busy_pre_check busy_check_wait tx_internal_buf].

(** ** The trailing-zero count on even values *)

(** X1: for an even, non-zero 32-bit value [_spiflash_clz] is the number
    of trailing zero bits: 2^n divides the value and the quotient is odd. *)
Theorem clz_counts_trailing_zeros (v : Z) :
  0 < v < 2 ^ 32 -> Z.even v = true ->
  1 <= _spiflash_clz v <= 31 /\
  v mod 2 ^ _spiflash_clz v = 0 /\
  Z.odd (v / 2 ^ _spiflash_clz v) = true.
Proof.
  intros Hv Heven.
  destruct v as [|p|p]; [lia| |lia].
  destruct (pos_odd_part p) as (j & m & Hj & Hodd & Hm & Hp).
  rewrite Hp in *.
  assert (1 <= j) as Hj1.
  { destruct (Z.eq_dec j 0) as [->|]; [|lia].
    rewrite Z.pow_0_r, Z.mul_1_l in Heven.
    rewrite <- Z.negb_odd, Hodd in Heven. discriminate Heven. }
  rewrite clz_even by (try assumption; lia).
  assert (0 < 2 ^ j) as Hpj by (apply Z.pow_pos_nonneg; lia).
  assert (j < 32) as Hj32.
  { destruct (Z.lt_ge_cases j 32) as [|Hge]; [assumption|].
    assert (2 ^ 32 <= 2 ^ j) by (apply Z.pow_le_mono_r; lia). nia. }
  split; [lia|]. split.
  - rewrite Z.mul_comm. apply Z.mod_mul. lia.
  - rewrite Z.mul_comm, Z.div_mul by lia. exact Hodd.
Qed.

Lemma clz_counts_trailing_zeros_witness :
  1 <= _spiflash_clz 0x12000 <= 31 /\
  0x12000 mod 2 ^ _spiflash_clz 0x12000 = 0 /\
  Z.odd (0x12000 / 2 ^ _spiflash_clz 0x12000) = true.
Proof. apply (clz_counts_trailing_zeros 0x12000); [lia | reflexivity]. Defined.

(** ** The address bytes in the scratch buffer *)

Lemma compose_address_buf (s : spiflash_t) (a off : Z) :
  0 <= addr_sz (cfg s) -> 0 <= off ->
  (Z.to_nat (off + addr_sz (cfg s)) <= length (tx_internal_buf s))%nat ->
  _spiflash_compose_address a off s
  = set_tx_internal_buf
      (take (Z.to_nat off) (tx_internal_buf s)
       ++ address_bytes (cfg s) a
       ++ drop (Z.to_nat (off + addr_sz (cfg s))) (tx_internal_buf s)) s.
Proof.
  intros Hsz Hoff Hlen.
  unfold _spiflash_compose_address. rewrite compose_loop_buf. f_equal.
  set (buf := tx_internal_buf s) in *.
  pose proof (compose_buf_spec (cfg s) a off (Z.to_nat (addr_sz (cfg s))) 0
                (take (Z.to_nat off) buf)
                (take (Z.to_nat (addr_sz (cfg s))) (drop (Z.to_nat off) buf))
                (drop (Z.to_nat (off + addr_sz (cfg s))) buf)) as H.
  rewrite Z2Nat.id in H by lia.
  replace (drop (Z.to_nat (off + addr_sz (cfg s))) buf)
    with (drop (Z.to_nat (addr_sz (cfg s))) (drop (Z.to_nat off) buf)) in H |- *
    by (rewrite drop_drop; f_equal; lia).
  rewrite !take_drop in H.
  apply H.
  - lia.
  - rewrite length_take. f_equal; lia.
  - rewrite length_take, length_drop. lia.
Qed.

(** X2: [_spiflash_compose_address] writes the [addr_sz] address bytes at
    the given offset of the scratch buffer and nothing else: the bytes
    before and after them, the length of the buffer and every other field
    of the control block stay as they were. *)
Theorem compose_address_touches_address_bytes_only (s : spiflash_t)
    (a off : Z) :
  0 <= addr_sz (cfg s) -> 0 <= off ->
  (Z.to_nat (off + addr_sz (cfg s)) <= length (tx_internal_buf s))%nat ->
  let s' := _spiflash_compose_address a off s in
  take (Z.to_nat off) (tx_internal_buf s')
  = take (Z.to_nat off) (tx_internal_buf s) /\
  drop (Z.to_nat (off + addr_sz (cfg s))) (tx_internal_buf s')
  = drop (Z.to_nat (off + addr_sz (cfg s))) (tx_internal_buf s) /\
  length (tx_internal_buf s') = length (tx_internal_buf s) /\
  set_tx_internal_buf (tx_internal_buf s) s' = s.
Proof.
  intros Hsz Hoff Hlen s'. subst s'.
  rewrite compose_address_buf by assumption.
  set (buf := tx_internal_buf s) in *.
  assert (length (take (Z.to_nat off) buf) = Z.to_nat off) as Ht
    by (rewrite length_take; lia).
  destruct s as [c ? ? ? ? ? ? ? ? ? ? ? ? sbuf]; cbn in *. subst buf.
  repeat split.
  - rewrite take_app_le by lia. rewrite take_take. f_equal. lia.
  - replace (Z.to_nat (off + addr_sz c))
      with (length (take (Z.to_nat off) sbuf)
            + length (address_bytes c a))%nat at 1
      by (rewrite Ht, length_address_bytes by lia; lia).
    rewrite drop_app_add', drop_app_length by reflexivity. reflexivity.
  - rewrite !length_app, Ht, length_address_bytes, length_drop by lia. lia.
Qed.

Lemma compose_address_touches_address_bytes_only_witness :
  let s := w_spi world_be3 in
  let s' := _spiflash_compose_address 0x123456 1 s in
  take (Z.to_nat 1) (tx_internal_buf s')
  = take (Z.to_nat 1) (tx_internal_buf s) /\
  drop (Z.to_nat (1 + addr_sz (cfg s))) (tx_internal_buf s')
  = drop (Z.to_nat (1 + addr_sz (cfg s))) (tx_internal_buf s) /\
  length (tx_internal_buf s') = length (tx_internal_buf s) /\
  set_tx_internal_buf (tx_internal_buf s) s' = s.
Proof.
  apply (compose_address_touches_address_bytes_only (w_spi world_be3)
           0x123456 1); cbn; lia.
Defined.

Lemma le_value_address_bytes (a : Z) (n : nat) :
  forall i, 0 <= i -> 0 <= a ->
    le_value (map (fun j => Z.land (Z.shiftr a (8 * j)) 255)
                (seqZ i (Z.of_nat n)))
    = Z.shiftr a (8 * i) mod 2 ^ (8 * Z.of_nat n).
Proof.
  induction n as [|n IH]; intros i Hi Ha.
  - change (8 * Z.of_nat 0) with 0. rewrite Z.pow_0_r, Z.mod_1_r.
    reflexivity.
  - rewrite seqZ_S. cbn [map le_value]. rewrite IH by lia.
    replace (8 * Z.of_nat (S n)) with (8 + 8 * Z.of_nat n) by lia.
    rewrite Z.pow_add_r by lia.
    rewrite Z.rem_mul_r by (try apply Z.pow_pos_nonneg; lia).
    change 255 with (Z.ones 8). rewrite Z.land_ones by lia.
    rewrite <- (Z.shiftr_div_pow2 _ 8) by lia.
    rewrite Z.shiftr_shiftr by lia.
    do 4 f_equal. lia.
Qed.

Lemma be_value_address_bytes (a : Z) (n : nat) :
  forall acc i, 0 <= a ->
    be_value_from acc
      (map (fun j => Z.land (Z.shiftr a (8 * (i + Z.of_nat n - 1 - j))) 255)
         (seqZ i (Z.of_nat n)))
    = acc * 2 ^ (8 * Z.of_nat n) + a mod 2 ^ (8 * Z.of_nat n).
Proof.
  induction n as [|n IH]; intros acc i Ha.
  - change (seqZ i (Z.of_nat 0)) with (@nil Z). cbn [map be_value_from].
    change (8 * Z.of_nat 0) with 0. rewrite Z.pow_0_r, Z.mod_1_r. lia.
  - rewrite seqZ_S. cbn [map be_value_from].
    replace (i + Z.of_nat (S n) - 1 - i) with (Z.of_nat n) by lia.
    rewrite (map_ext_in _
               (fun j => Z.land
                  (Z.shiftr a (8 * (i + 1 + Z.of_nat n - 1 - j))) 255))
      by (intros j _; do 3 f_equal; lia).
    rewrite IH by lia.
    replace (8 * Z.of_nat (S n)) with (8 * Z.of_nat n + 8) by lia.
    rewrite (Z.pow_add_r 2 (8 * Z.of_nat n) 8) by lia.
    assert (0 < 2 ^ (8 * Z.of_nat n)) by (apply Z.pow_pos_nonneg; lia).
    rewrite (Z.rem_mul_r a (2 ^ (8 * Z.of_nat n)) (2 ^ 8)) by lia.
    change 255 with (Z.ones 8). rewrite Z.land_ones by lia.
    rewrite Z.shiftr_div_pow2 by lia.
    ring.
Qed.

(** X3: the address bytes that [_spiflash_compose_address] stores read
    back, in the configured byte order, as the address modulo
    2^(8*addr_sz): the encoding loses the high bytes and nothing else. *)
Theorem compose_address_round_trip (s : spiflash_t) (a off : Z) :
  0 <= addr_sz (cfg s) <= 4 -> 0 <= a < 2 ^ 32 -> 0 <= off ->
  (Z.to_nat (off + addr_sz (cfg s)) <= length (tx_internal_buf s))%nat ->
  let bytes :=
    take (Z.to_nat (addr_sz (cfg s)))
      (drop (Z.to_nat off)
         (tx_internal_buf (_spiflash_compose_address a off s))) in
  (if addr_endian (cfg s) =? 0 then le_value bytes else be_value bytes)
  = a mod 2 ^ (8 * addr_sz (cfg s)).
Proof.
  intros Hsz Ha Hoff Hlen bytes.
  assert (bytes = address_bytes (cfg s) a) as ->.
  { subst bytes. rewrite compose_address_buf by (try assumption; lia).
    destruct s as [c ? ? ? ? ? ? ? ? ? ? ? ? sbuf]; cbn in *.
    assert (length (take (Z.to_nat off) sbuf) = Z.to_nat off) as Ht
      by (rewrite length_take; lia).
    rewrite <- Ht at 1. rewrite drop_app_length.
    rewrite <- (length_address_bytes c a) at 1 by lia.
    apply take_app_length. }
  unfold address_bytes, address_byte, be_value.
  rewrite <- (Z2Nat.id (addr_sz (cfg s))) by lia.
  destruct (addr_endian (cfg s) =? 0).
  - rewrite le_value_address_bytes by lia.
    rewrite Z.shiftr_0_r. reflexivity.
  - rewrite (map_ext_in _
               (fun j => Z.land
                  (Z.shiftr a
                     (8 * (0 + Z.of_nat (Z.to_nat (addr_sz (cfg s))) - 1 - j)))
                  255))
      by (intros j _; do 3 f_equal; lia).
    rewrite be_value_address_bytes by lia. lia.
Qed.

Lemma compose_address_round_trip_witness :
  let s := w_spi world_be3 in
  let bytes :=
    take (Z.to_nat (addr_sz (cfg s)))
      (drop (Z.to_nat 1)
         (tx_internal_buf (_spiflash_compose_address 0x01020304 1 s))) in
  (if addr_endian (cfg s) =? 0 then le_value bytes else be_value bytes)
  = 0x01020304 mod 2 ^ (8 * addr_sz (cfg s)).
Proof.
  apply (compose_address_round_trip (w_spi world_be3) 0x01020304 1);
    cbn; lia.
Defined.

(** ** The erase planner in full *)

(** The answer of the planner is 0 or a supported size [2^k] that passes
    its two tests, the largest such; and then the length is a multiple of
    the smallest supported size. *)
Lemma planner_result (c : spiflash_cmd_tbl_t) (a len : Z) :
  _spiflash_get_largest_erase_area c a len = 0 \/
  exists k0 ks k,
    supported_logs c = k0 :: ks /\ In k (k0 :: ks) /\
    _spiflash_get_largest_erase_area c a len = 2 ^ k /\
    len mod 2 ^ k0 = 0 /\
    passes (_spiflash_clz a) len k = true /\
    forall k', In k' (k0 :: ks) ->
               passes (_spiflash_clz a) len k' = true -> k' <= k.
Proof.
  rewrite largest_erase_area_scan.
  pose proof (supported_logs_range c) as Hrange.
  pose proof (supported_logs_sorted c) as Hsorted.
  destruct (supported_logs c) as [|k0 ks] eqn:Eks; [left; reflexivity|].
  assert (12 <= k0 <= 16) as Hk0 by (apply Hrange; left; reflexivity).
  rewrite Z.land_ones by lia.
  destruct (len mod 2 ^ k0 =? 0) eqn:E; [|left; reflexivity].
  apply Z.eqb_eq in E. cbn [negb].
  destruct (scan_blocks_spec (_spiflash_clz a) len (k0 :: ks) 0 Hsorted)
    as [[Hr _]|(k & Hin & Hr & Hpass & Hmax)]; [left; exact Hr|].
  right. exists k0, ks, k. repeat split; assumption.
Qed.

Lemma planner_accepts (c : spiflash_cmd_tbl_t) (a len k0 : Z) (ks : list Z) :
  supported_logs c = k0 :: ks ->
  len mod 2 ^ k0 = 0 ->
  passes (_spiflash_clz a) len k0 = true ->
  _spiflash_get_largest_erase_area c a len <> 0.
Proof.
  intros Eks Hmod Hpass.
  rewrite largest_erase_area_scan.
  pose proof (supported_logs_range c) as Hrange.
  pose proof (supported_logs_sorted c) as Hsorted.
  rewrite Eks in *.
  assert (12 <= k0 <= 16) as Hk0 by (apply Hrange; left; reflexivity).
  rewrite Z.land_ones by lia.
  rewrite (proj2 (Z.eqb_eq _ _) Hmod). cbn [negb].
  destruct (scan_blocks_spec (_spiflash_clz a) len (k0 :: ks) 0 Hsorted)
    as [[_ Hnone]|(k & Hin & Hr & _)].
  - rewrite (Hnone k0) in Hpass by (left; reflexivity). discriminate Hpass.
  - rewrite Hr. apply Z.pow_nonzero; [lia|].
    apply Hrange in Hin. lia.
Qed.

Lemma erase_cmd_of_supported (c : spiflash_cmd_tbl_t) (k : Z) :
  In k (supported_logs c) -> _spiflash_get_erase_cmd c (2 ^ k) <> 0.
Proof.
  unfold supported_logs, _spiflash_get_erase_cmd.
  destruct (block_erase_4 c =? 0) eqn:E4, (block_erase_8 c =? 0) eqn:E8,
    (block_erase_16 c =? 0) eqn:E16, (block_erase_32 c =? 0) eqn:E32,
    (block_erase_64 c =? 0) eqn:E64;
    cbn [app In]; intros H;
    repeat (destruct H as [<-|H]; [cbn; apply Z.eqb_neq; assumption|]);
    contradiction.
Qed.

Lemma planner_choice_supported (c : spiflash_cmd_tbl_t)
    (a len : Z) :
  _spiflash_get_largest_erase_area c a len <> 0 ->
  In (_spiflash_get_largest_erase_area c a len) (supported_blocks c) /\
  _spiflash_get_largest_erase_area c a len <= len.
Proof.
  intros Hnz.
  destruct (planner_result c a len)
    as [H0|(k0 & ks & k & Eks & Hin & Hr & Hmod & Hpass & _)];
    [contradiction|].
  rewrite Hr. rewrite <- Eks in Hin. split.
  - apply in_map. exact Hin.
  - unfold passes in Hpass. apply andb_prop in Hpass.
    destruct Hpass as [_ Hle]. rewrite Z.geb_leb in Hle.
    apply Z.leb_le. exact Hle.
Qed.

(** X4: a size the planner answers is one the command table has an erase
    opcode for, and it is not larger than the length: the erase step never
    fails for want of an opcode on a size the planner chose. *)
Theorem planner_choice_has_erase_command (c : spiflash_cmd_tbl_t)
    (a len : Z) :
  _spiflash_get_largest_erase_area c a len <> 0 ->
  _spiflash_get_erase_cmd c (_spiflash_get_largest_erase_area c a len) <> 0 /\
  In (_spiflash_get_largest_erase_area c a len) (supported_blocks c) /\
  _spiflash_get_largest_erase_area c a len <= len.
Proof.
  intros Hnz. split; [|apply planner_choice_supported; exact Hnz].
  destruct (planner_result c a len)
    as [H0|(k0 & ks & k & Eks & Hin & Hr & _)]; [contradiction|].
  rewrite Hr. rewrite <- Eks in Hin.
  apply erase_cmd_of_supported. exact Hin.
Qed.

Lemma planner_choice_has_erase_command_witness :
  _spiflash_get_erase_cmd SPIFLASH_CMD_TBL_STANDARD
    (_spiflash_get_largest_erase_area SPIFLASH_CMD_TBL_STANDARD 0x8000 0x9000)
    <> 0 /\
  In (_spiflash_get_largest_erase_area SPIFLASH_CMD_TBL_STANDARD 0x8000 0x9000)
    (supported_blocks SPIFLASH_CMD_TBL_STANDARD) /\
  _spiflash_get_largest_erase_area SPIFLASH_CMD_TBL_STANDARD 0x8000 0x9000
    <= 0x9000.
Proof.
  apply (planner_choice_has_erase_command SPIFLASH_CMD_TBL_STANDARD
           0x8000 0x9000).
  vm_compute. discriminate.
Defined.

(** X5: an erase at an even address that is not a multiple of the
    smallest supported erase size returns ErasureUnaligned, and the world
    (control block, caller memory, host calls, callbacks) is the one
    before the call. *)
Theorem erase_unaligned_address_rejected (w : world) (a len blk : Z)
    (fuel : nat) :
  op (w_spi w) = SPIFLASH_OP_IDLE ->
  smallest_supported_block (cmd_tbl (w_spi w)) = Some blk ->
  Z.even a = true -> 0 <= a < 2 ^ 32 ->
  a mod blk <> 0 ->
  SPIFLASH_erase a len fuel w = Some (SPIFLASH_ERR_ERASE_UNALIGNED, w).
Proof.
  intros Hop Hblk Heven Ha Hmod.
  unfold SPIFLASH_erase. rewrite Hop. cbn [is_idle negb].
  destruct (planner_result (cmd_tbl (w_spi w)) a len)
    as [H0|(k0 & ks & k & Eks & Hin & Hr & _ & Hpass & _)].
  - rewrite H0. reflexivity.
  - exfalso.
    pose proof (supported_logs_range (cmd_tbl (w_spi w))) as Hrange.
    pose proof (supported_logs_sorted (cmd_tbl (w_spi w))) as Hsorted.
    unfold smallest_supported_block, supported_blocks in Hblk.
    rewrite Eks in *. cbn in Hblk. injection Hblk as <-.
    assert (12 <= k0 <= 16) as Hk0 by (apply Hrange; left; reflexivity).
    assert (12 <= k <= 16) as Hk by (apply Hrange; exact Hin).
    assert (k0 <= k) as Hle.
    { destruct Hin as [->|Hin]; [lia|].
      inversion Hsorted as [|? ? _ Hlt]; subst.
      rewrite Forall_forall in Hlt.
      specialize (Hlt k (proj2 (list_elem_of_In _ _) Hin)). lia. }
    unfold passes in Hpass. apply andb_prop in Hpass.
    destruct Hpass as [Hal _].
    rewrite clz_alignment in Hal by (try assumption; lia).
    apply Z.eqb_eq in Hal. apply Hmod.
    apply Z.mod_divide in Hal; [|apply Z.pow_nonzero; lia].
    apply Z.mod_divide; [apply Z.pow_nonzero; lia|].
    apply Z.divide_trans with (2 ^ k); [|exact Hal].
    exists (2 ^ (k - k0)). rewrite <- Z.pow_add_r by lia. f_equal. lia.
Qed.

Lemma erase_unaligned_address_rejected_witness :
  SPIFLASH_erase 0x1800 0x1000 0 world_be3
  = Some (SPIFLASH_ERR_ERASE_UNALIGNED, world_be3).
Proof.
  apply (erase_unaligned_address_rejected world_be3 0x1800 0x1000 4096 0).
  - reflexivity.
  - reflexivity.
  - reflexivity.
  - lia.
  - vm_compute. discriminate.
Defined.

(** ** The erase plan *)

Lemma supported_block_bounds (c : spiflash_cmd_tbl_t) (blk : Z) :
  In blk (supported_blocks c) -> 4096 <= blk <= 65536 /\ blk mod 4096 = 0.
Proof.
  unfold supported_blocks. intros H.
  apply in_map_iff in H. destruct H as (k & <- & Hin).
  apply supported_logs_range in Hin.
  assert (k = 12 \/ k = 13 \/ k = 14 \/ k = 15 \/ k = 16) as Hk by lia.
  destruct Hk as [->|[->|[->|[->| ->]]]]; cbn; split; (lia || reflexivity).
Qed.

Lemma smallest_log_least (c : spiflash_cmd_tbl_t) (k0 k : Z) (ks : list Z) :
  supported_logs c = k0 :: ks -> In k (k0 :: ks) -> 12 <= k0 <= k /\ k <= 16.
Proof.
  intros Eks Hin.
  pose proof (supported_logs_range c) as Hrange.
  pose proof (supported_logs_sorted c) as Hsorted.
  rewrite Eks in *.
  assert (12 <= k0 <= 16) by (apply Hrange; left; reflexivity).
  assert (12 <= k <= 16) by (apply Hrange; exact Hin).
  destruct Hin as [->|Hin]; [lia|].
  inversion Hsorted as [|? ? _ Hlt]; subst.
  rewrite Forall_forall in Hlt.
  specialize (Hlt k (proj2 (list_elem_of_In _ _) Hin)). lia.
Qed.

Lemma pow2_divide (j k : Z) : 0 <= j <= k -> (2 ^ j | 2 ^ k).
Proof.
  intros H. exists (2 ^ (k - j)). rewrite <- Z.pow_add_r by lia. f_equal. lia.
Qed.

Lemma clz_of_odd (v : Z) : Z.odd v = true -> _spiflash_clz v = 32.
Proof.
  intros Hodd. unfold _spiflash_clz.
  replace (Z.land v (wrap32 (- v))) with 1; [reflexivity|].
  unfold wrap32. rewrite <- Z.land_ones, Z.land_assoc by lia.
  rewrite lowest_bit_of_odd by exact Hodd. reflexivity.
Qed.

(** After a planned block the planner has an answer for what remains. *)
Lemma planner_progress (c : spiflash_cmd_tbl_t) (a len : Z) :
  0 <= a < 2 ^ 32 ->
  _spiflash_get_largest_erase_area c a len <> 0 ->
  len - _spiflash_get_largest_erase_area c a len <> 0 ->
  _spiflash_get_largest_erase_area c
    (wrap32 (a + _spiflash_get_largest_erase_area c a len))
    (len - _spiflash_get_largest_erase_area c a len) <> 0.
Proof.
  intros Ha Hnz Hrem.
  destruct (planner_result c a len)
    as [H0|(k0 & ks & k & Eks & Hin & Hr & Hmod & Hpass & _)];
    [contradiction|].
  rewrite Hr in *.
  destruct (smallest_log_least c k0 k ks Eks Hin) as [Hk0 Hk].
  unfold passes in Hpass. apply andb_prop in Hpass.
  destruct Hpass as [Hal Hle].
  rewrite Z.geb_leb in Hal, Hle. apply Z.leb_le in Hal, Hle.
  assert (0 < 2 ^ k0) as Hp0 by (apply Z.pow_pos_nonneg; lia).
  assert (0 < 2 ^ k) as Hpk by (apply Z.pow_pos_nonneg; lia).
  destruct (pow2_divide k0 k ltac:(lia)) as [q Hq].
  assert ((len - 2 ^ k) mod 2 ^ k0 = 0) as Hmod'.
  { apply Z.mod_divide; [lia|]. apply Z.mod_divide in Hmod; [|lia].
    apply Z.divide_sub_r; [exact Hmod|]. exists q. exact Hq. }
  apply (planner_accepts c _ _ k0 ks Eks Hmod').
  unfold passes. apply andb_true_intro. split.
  - (* alignment of the new cursor *)
    set (a' := wrap32 (a + 2 ^ k)).
    assert (0 <= a' < 2 ^ 32) as Ha' by (apply Z.mod_pos_bound; lia).
    destruct (Z.odd a') eqn:Eodd.
    + rewrite clz_of_odd by exact Eodd. rewrite Z.geb_leb. apply Z.leb_le. lia.
    + assert (Z.even a' = true) as Heven' by (rewrite <- Z.negb_odd, Eodd; reflexivity).
      rewrite clz_alignment by (try assumption; lia).
      apply Z.eqb_eq.
      (* the old cursor is even, so aligned to 2^k *)
      assert (Z.odd a' = Z.odd a) as Hpar.
      { subst a'. unfold wrap32. rewrite <- !Z.bit0_odd.
        rewrite Z.mod_pow2_bits_low by lia.
        rewrite !Z.bit0_odd, Z.odd_add.
        replace (Z.odd (2 ^ k)) with false
          by (symmetry; replace k with (Z.succ (k - 1)) by lia;
              rewrite Z.pow_succ_r by lia; apply Z.odd_mul).
        apply xorb_false_r. }
      assert (Z.even a = true) as Heven
        by (rewrite <- Z.negb_odd, <- Hpar, Eodd; reflexivity).
      assert (a mod 2 ^ k = 0) as Hak.
      { pose proof (clz_alignment a k Heven Ha ltac:(lia)) as Hc.
        rewrite Z.geb_leb in Hc.
        rewrite (proj2 (Z.leb_le _ _) Hal) in Hc.
        symmetry in Hc. apply Z.eqb_eq in Hc. exact Hc. }
      apply Z.mod_divide; [lia|].
      apply Z.mod_divide in Hak; [|lia].
      subst a'. unfold wrap32. rewrite Z.mod_eq by lia.
      apply Z.divide_sub_r.
      * apply Z.divide_add_r.
        -- apply Z.divide_trans with (2 ^ k); [exists q; exact Hq|exact Hak].
        -- exists q. exact Hq.
      * apply Z.divide_mul_l. apply pow2_divide. lia.
  - rewrite Z.geb_leb. apply Z.leb_le.
    apply Z.mod_divide in Hmod'; [|lia]. destruct Hmod' as [r Hr'].
    assert (0 < len - 2 ^ k) as Hpos by lia.
    rewrite Hr' in Hpos |- *.
    assert (0 < r) by (apply (Z.mul_pos_cancel_r r (2 ^ k0)); lia).
    generalize dependent (2 ^ k0). intros; nia.
Qed.

Lemma erase_plan_done (fuel : nat) (c : spiflash_cmd_tbl_t) (a : Z) :
  erase_plan fuel c a 0 = [].
Proof. destruct fuel; reflexivity. Qed.

Lemma erase_cover_sum (c : spiflash_cmd_tbl_t) (plan : list (Z * Z)) :
  forall a len,
    erase_cover c a len plan -> fold_right Z.add 0 (map snd plan) = len.
Proof.
  induction plan as [|[s blk] plan IH]; intros a len H; cbn in H |- *.
  - symmetry. exact H.
  - destruct H as (_ & _ & _ & _ & H). rewrite (IH _ _ H). lia.
Qed.

(** X6: the blocks the engine erases for an accepted erase request: each
    is a supported erase size that fits in what remains, they follow one
    another from the start address, together they cover exactly [len]
    bytes, and on an even cursor the block is the largest supported size
    that divides the cursor and fits. *)
Theorem erase_plan_covers (c : spiflash_cmd_tbl_t) (fuel : nat) :
  forall a len,
    0 <= a < 2 ^ 32 -> 0 <= len < 2 ^ 32 ->
    _spiflash_get_largest_erase_area c a len <> 0 ->
    (Z.to_nat (len / 4096) <= fuel)%nat ->
    erase_cover c a len (erase_plan fuel c a len) /\
    fold_right Z.add 0 (map snd (erase_plan fuel c a len)) = len.
Proof.
  enough (forall a len,
            0 <= a < 2 ^ 32 -> 0 <= len < 2 ^ 32 ->
            _spiflash_get_largest_erase_area c a len <> 0 ->
            (Z.to_nat (len / 4096) <= fuel)%nat ->
            erase_cover c a len (erase_plan fuel c a len)) as Hcover.
  { intros a len Ha Hlen Hnz Hfuel.
    pose proof (Hcover a len Ha Hlen Hnz Hfuel) as H.
    split; [exact H|]. apply (erase_cover_sum c _ a len H). }
  induction fuel as [|fuel IH]; intros a len Ha Hlen Hnz Hfuel.
  - exfalso.
    destruct (planner_choice_supported c a len Hnz) as [Hin Hle].
    apply supported_block_bounds in Hin.
    assert (1 <= len / 4096) by (apply Z.div_le_lower_bound; lia). lia.
  - destruct (planner_choice_supported c a len Hnz) as [Hin Hle].
    pose proof (supported_block_bounds c _ Hin) as [Hblk Hdiv].
    cbn [erase_plan].
    replace (len =? 0) with false by (symmetry; apply Z.eqb_neq; lia).
    set (blk := _spiflash_get_largest_erase_area c a len) in *.
    cbn [erase_cover]. split; [reflexivity|]. split; [exact Hin|].
    split; [exact Hle|]. split.
    + intros Heven.
      destruct (planner_choice_even_address c a len Heven Ha Hnz)
        as (b & Hb & _ & Hmod & _ & Hmax).
      fold blk in Hb. subst b. split; assumption.
    + rewrite (wrap32_small (len - blk)) by lia.
      destruct (Z.eq_dec (len - blk) 0) as [E|E].
      * rewrite E, erase_plan_done. reflexivity.
      * apply IH.
        -- apply Z.mod_pos_bound. lia.
        -- lia.
        -- apply planner_progress; assumption.
        -- assert (len / 4096 = (len - blk) / 4096 + blk / 4096) as Hsplit.
           { apply Z.mod_divide in Hdiv; [|lia]. destruct Hdiv as [q Hq].
             rewrite Hq. rewrite Z.div_mul by lia.
             replace len with ((len - q * 4096) + q * 4096) at 1 by lia.
             apply Z.div_add. lia. }
           assert (1 <= blk / 4096) by (apply Z.div_le_lower_bound; lia).
           assert (0 <= (len - blk) / 4096) by (apply Z.div_pos; lia).
           lia.
Qed.

Lemma erase_plan_covers_witness :
  erase_cover SPIFLASH_CMD_TBL_STANDARD 0x7000 0x12000
    (erase_plan 18 SPIFLASH_CMD_TBL_STANDARD 0x7000 0x12000) /\
  fold_right Z.add 0
    (map snd (erase_plan 18 SPIFLASH_CMD_TBL_STANDARD 0x7000 0x12000))
  = 0x12000.
Proof.
  apply (erase_plan_covers SPIFLASH_CMD_TBL_STANDARD 18 0x7000 0x12000).
  - lia.
  - lia.
  - vm_compute. discriminate.
  - vm_compute. lia.
Defined.

(** ** What no operation changes *)

Lemma begin_async_fixed w :
  fixed_part (w_spi (snd (_spiflash_begin_async w))) = fixed_part (w_spi w)
  /\ w_cb (snd (_spiflash_begin_async w)) = w_cb w.
Proof.
  destruct w as [s m tr cbl].
  destruct s as [c cmd h acb amode o wp ad ln p cbb pre bcw buf].
  unfold _spiflash_begin_async, bind, _spiflash_compose_address.
  destruct o, (negb (pre =? 0)) eqn:Epre;
    begin_cbn; rewrite ?Epre; begin_cbn; try (split; reflexivity).
  all: try destruct (_spiflash_get_erase_cmd _ _ =? 0); try (split; reflexivity).
  all: begin_cbn; rewrite !compose_loop_buf; unfold set_tx;
    try destruct (1 + addr_sz c + 1 <? 0); split; reflexivity.
Qed.

Lemma end_async_results_fixed r w :
  fixed_part (w_spi (snd (end_async_results r w))) = fixed_part (w_spi w)
  /\ w_cb (snd (end_async_results r w)) = w_cb w.
Proof.
  destruct w as [s m tr cbl].
  destruct s as [c cmd h acb amode o wp ad ln p cbb pre bcw buf].
  unfold end_async_results, bind.
  destruct o, (r =? SPIFLASH_OK) eqn:Er; engine_cbn; rewrite ?Er; engine_cbn;
    try (split; reflexivity).
  all: try (destruct (ln =? 0); engine_cbn; rewrite ?Er; engine_cbn;
            try (split; reflexivity)).
  all: match goal with
       | |- context [_spiflash_begin_async ?w2] =>
           exact (begin_async_fixed w2)
       end.
Qed.

Lemma end_async_fixed e w :
  fixed_part (w_spi (snd (_spiflash_end_async e w))) = fixed_part (w_spi w)
  /\ w_cb (snd (_spiflash_end_async e w)) = w_cb w.
Proof.
  destruct w as [s m tr cbl].
  destruct s as [c cmd h acb amode o wp ad ln p cbb pre bcw buf].
  unfold _spiflash_end_async, bind, _spiflash_is_hwbusy, sr_data.
  destruct (negb (e =? SPIFLASH_OK)); [split; reflexivity|].
  engine_cbn.
  destruct (negb (pre =? 0)).
  { destruct (negb (Z.land (nth 0 buf 0) (sr_busy_bit cmd) =? 0));
      [split; reflexivity|].
    match goal with
    | |- context [_spiflash_begin_async ?w2] => exact (begin_async_fixed w2)
    end. }
  destruct (bcw =? BCW_WAIT); [split; reflexivity|].
  destruct (bcw =? BCW_READ_SR).
  { engine_cbn. unfold set_sr_data, set_tx. cbn. split; reflexivity. }
  destruct (bcw =? BCW_CHECK).
  - engine_cbn.
    destruct (negb (Z.land (nth 0 buf 0) (sr_busy_bit cmd) =? 0));
      [split; reflexivity|].
    match goal with
    | |- context [end_async_results _ ?w2] =>
        exact (end_async_results_fixed e w2)
    end.
  - match goal with
    | |- context [end_async_results _ ?w2] =>
        exact (end_async_results_fixed e w2)
    end.
Qed.

Lemma trigger_fixed e w :
  fixed_part (w_spi (snd (SPIFLASH_async_trigger e w))) = fixed_part (w_spi w).
Proof.
  destruct (end_async_fixed e w) as [Hf _]. revert Hf.
  unfold SPIFLASH_async_trigger, bind.
  destruct (_spiflash_end_async e w) as [res [s m tr cbl]].
  destruct s as [c cmd h acb amode o wp ad ln p cbb pre bcw buf].
  cbn.
  destruct (negb (res =? SPIFLASH_OK)), (is_idle o), (negb (amode =? 0)), acb;
    cbn; intros H; exact H.
Qed.

Lemma trigger_cb_log e w :
  w_cb (snd (SPIFLASH_async_trigger e w))
  = w_cb w
    ++ trigger_callback (async (w_spi w)) (async_cb (w_spi w)) e w.
Proof.
  destruct (end_async_fixed e w) as [Hf Hcb]. revert Hf Hcb.
  unfold SPIFLASH_async_trigger, trigger_callback, bind, fixed_part.
  destruct (_spiflash_end_async e w) as [res [s m tr cbl]].
  destruct s as [c cmd h acb amode o wp ad ln p cbb pre bcw buf].
  cbn. intros Hf ->. injection Hf as _ _ _ <- <- _.
  destruct (negb (res =? SPIFLASH_OK)), (is_idle o), (negb (amode =? 0)), acb;
    cbn; rewrite ?app_nil_r; reflexivity.
Qed.

Lemma fixed_part_async (s s' : spiflash_t) :
  fixed_part s' = fixed_part s ->
  async s' = async s /\ async_cb s' = async_cb s.
Proof. unfold fixed_part. intros H. injection H as _ _ _ -> -> _. split; reflexivity. Qed.

Lemma exe_loop_fixed (fuel : nat) :
  forall res w r w',
    exe_loop fuel res w = Some (r, w') ->
    fixed_part (w_spi w') = fixed_part (w_spi w) /\
    (async (w_spi w) = 0 -> w_cb w' = w_cb w).
Proof.
  induction fuel as [|fuel IH]; intros res w r w' H; cbn [exe_loop] in H;
    destruct ((res =? SPIFLASH_OK) && negb (is_idle (op (w_spi w))));
    try discriminate H; try (injection H as <- <-; split; reflexivity).
  apply IH in H. destruct H as [Hf Hcb].
  pose proof (trigger_fixed res w) as Hf1.
  split; [congruence|].
  intros Ha. rewrite Hcb.
  - rewrite trigger_cb_log, Ha, trigger_callback_sync. apply app_nil_r.
  - rewrite (proj1 (fixed_part_async _ _ Hf1)). exact Ha.
Qed.

Lemma exe_fixed (fuel : nat) (w : world) r w' :
  _spiflash_exe fuel w = Some (r, w') ->
  fixed_part (w_spi w') = fixed_part (w_spi w) /\ w_cb w' = w_cb w.
Proof.
  unfold _spiflash_exe. cbv zeta.
  set (w1 := if negb (could_be_busy (w_spi w) =? 0)
             then snd (upd_spi (set_busy_pre_check 1) w) else w).
  assert (fixed_part (w_spi w1) = fixed_part (w_spi w) /\ w_cb w1 = w_cb w)
    as [Hf1 Hc1].
  { subst w1. destruct (negb (could_be_busy (w_spi w) =? 0));
      split; reflexivity. }
  clearbody w1.
  destruct (begin_async_fixed w1) as [Hf2 Hc2].
  destruct (negb (async (w_spi w1) =? 0)) eqn:Ea.
  - intros H. injection H as H.
    replace w' with (snd (_spiflash_begin_async w1)) by (rewrite H; reflexivity).
    split; congruence.
  - destruct (exe_loop fuel _ _) as [[r1 w2]|] eqn:E; [|discriminate].
    intros H. injection H as <- <-.
    apply exe_loop_fixed in E. destruct E as [Hf3 Hc3].
    cbn [snd upd_spi w_spi w_cb]. split.
    + transitivity (fixed_part (w_spi w2)); [reflexivity|]. congruence.
    + rewrite Hc3; [congruence|].
      apply negb_false_iff, Z.eqb_eq in Ea.
      rewrite (proj1 (fixed_part_async _ _ Hf2)). exact Ea.
Qed.

Lemma run_request_fixed (r : request) (fuel : nat) (w : world) res w' :
  run_request r fuel w = Some (res, w') ->
  fixed_part (w_spi w') = fixed_part (w_spi w) /\ w_cb w' = w_cb w.
Proof.
  intros H.
  destruct r; unfold_entry; unfold_entry_in H;
    (destruct (negb (is_idle (op (w_spi w))));
     [injection H as <- <-; split; reflexivity|]);
    try (destruct (_spiflash_get_largest_erase_area _ _ _ =? 0);
         [injection H as <- <-; split; reflexivity|]);
    apply exe_fixed in H; destruct H as [Hf Hc];
    rewrite Hf, Hc; unfold bind, set_sr_data, set_reg_nbr, set_tx;
    repeat match goal with |- context [if ?b then _ else _] => destruct b end;
    split; reflexivity.
Qed.

(** X7: no request and no completion changes what [SPIFLASH_init] set up:
    the configuration, the command table, the host functions, the
    callback, the mode and the [could_be_busy] flag are the same in every
    world a host can reach. *)
Theorem configuration_is_never_changed (w0 w : world) :
  reachable w0 w -> fixed_part (w_spi w) = fixed_part (w_spi w0).
Proof.
  induction 1 as [|w w' _ IH Hs]; [reflexivity|].
  rewrite <- IH. destruct Hs as [r fuel w res w' H|e w].
  - apply (run_request_fixed r fuel w res w' H).
  - apply trigger_fixed.
Qed.

(** X8: a public request never invokes the completion callback, in
    either mode: the callbacks delivered are the same after the request
    returns as before. *)
Theorem requests_never_call_back (r : request) (fuel : nat) (w : world) :
  match run_request r fuel w with
  | Some (_, w') => w_cb w' = w_cb w
  | None => True
  end.
Proof.
  destruct (run_request r fuel w) as [[res w']|] eqn:E; [|exact I].
  apply (run_request_fixed r fuel w res w' E).
Qed.

(** X9: what [SPIFLASH_async_trigger] does with the callback.  On a
    blocking driver, or with no callback given, it never invokes it.  On
    an asynchronous driver with a callback it invokes it once, with the
    result code it returns, exactly when the driver is idle afterwards,
    and not at all while the operation goes on; after a successful end the
    operation passed to the callback is Idle. *)
Theorem trigger_callback_discipline (e : Z) (w : world) :
  let q := SPIFLASH_async_trigger e w in
  (async (w_spi w) = 0 \/ async_cb (w_spi w) = false ->
   w_cb (snd q) = w_cb w) /\
  (async (w_spi w) <> 0 -> async_cb (w_spi w) = true ->
   if is_idle (op (w_spi (snd q)))
   then exists o,
          w_cb (snd q) = w_cb w ++ [(o, fst q)] /\
          (fst q = SPIFLASH_OK -> o = SPIFLASH_OP_IDLE)
   else w_cb (snd q) = w_cb w /\ fst q = SPIFLASH_OK).
Proof.
  cbv zeta. rewrite trigger_cb_log.
  destruct (trigger_stop e w) as [Hres Hstop]. cbv zeta in Hres, Hstop.
  rewrite Hstop, Hres. unfold trigger_callback.
  set (p := _spiflash_end_async e w).
  split.
  - intros [Ha|Hcb]; [rewrite Ha|rewrite Hcb]; cbn [Z.eqb negb andb];
      rewrite ?andb_false_r; apply app_nil_r.
  - intros Ha Hcb. apply Z.eqb_neq in Ha. rewrite Ha, Hcb. cbn [negb andb].
    rewrite andb_true_r.
    destruct (fst p =? SPIFLASH_OK) eqn:Eres; cbn [negb orb].
    + apply Z.eqb_eq in Eres.
      destruct (op (w_spi (snd p))) eqn:Eop; cbn [is_idle];
        try (split; [apply app_nil_r|exact Eres]).
      eexists. split; [reflexivity|]. intros _. reflexivity.
    + eexists. split; [reflexivity|]. intros H.
      rewrite H in Eres. discriminate Eres.
Qed.

Lemma exe_loop_exit (fuel : nat) :
  forall res w r w',
    exe_loop fuel res w = Some (r, w') ->
    (r =? SPIFLASH_OK) && negb (is_idle (op (w_spi w'))) = false.
Proof.
  induction fuel as [|fuel IH]; intros res w r w' H; cbn [exe_loop] in H;
    destruct ((res =? SPIFLASH_OK) && negb (is_idle (op (w_spi w)))) eqn:E;
    try discriminate H; try (injection H as <- <-; exact E).
  eapply IH. exact H.
Qed.

Lemma blocking_exe_ok (fuel : nat) (w : world) w' :
  async (w_spi w) = 0 ->
  _spiflash_exe fuel w = Some (SPIFLASH_OK, w') ->
  op (w_spi w') = SPIFLASH_OP_IDLE /\ wait_period_ms (w_spi w') = 0 /\
  busy_pre_check (w_spi w') = 0 /\ busy_check_wait (w_spi w') = BCW_IDLE.
Proof.
  intros Ha. unfold _spiflash_exe. cbv zeta.
  set (w1 := if negb (could_be_busy (w_spi w) =? 0)
             then snd (upd_spi (set_busy_pre_check 1) w) else w).
  assert (async (w_spi w1) = 0) as Ha1.
  { subst w1. destruct (negb (could_be_busy (w_spi w) =? 0)); exact Ha. }
  clearbody w1. rewrite Ha1. cbn [Z.eqb negb].
  destruct (exe_loop fuel _ _) as [[r1 w2]|] eqn:E; [|discriminate].
  intros H. injection H as -> <-.
  apply exe_loop_exit in E. cbn [Z.eqb andb] in E.
  apply negb_false_iff in E.
  cbn. repeat split.
  destruct (op (w_spi w2)); try discriminate E. reflexivity.
Qed.

(** X10: a blocking request that returns OK has finished: the driver is
    idle, so the next request is not refused as busy, and the wait state
    of the engine is cleared. *)
Theorem blocking_ok_leaves_driver_idle (r : request) (fuel : nat)
    (w : world) :
  async (w_spi w) = SPIFLASH_SYNCHRONOUS ->
  match run_request r fuel w with
  | Some (res, w') =>
      res = SPIFLASH_OK ->
      SPIFLASH_is_busy w' = SPIFLASH_OK /\
      wait_period_ms (w_spi w') = 0 /\
      busy_pre_check (w_spi w') = 0 /\ busy_check_wait (w_spi w') = BCW_IDLE
  | None => True
  end.
Proof.
  intros Ha.
  destruct (run_request r fuel w) as [[res w']|] eqn:E; [|exact I].
  intros ->.
  assert (op (w_spi w') = SPIFLASH_OP_IDLE /\ wait_period_ms (w_spi w') = 0 /\
          busy_pre_check (w_spi w') = 0 /\ busy_check_wait (w_spi w') = BCW_IDLE)
    as (Hop & Hrest).
  { destruct r; unfold_entry_in E;
      (destruct (negb (is_idle (op (w_spi w)))); [discriminate E|]);
      try (destruct (_spiflash_get_largest_erase_area _ _ _ =? 0);
           [discriminate E|]);
      (eapply blocking_exe_ok; [|exact E]);
      unfold bind, set_sr_data, set_reg_nbr, set_tx;
      repeat match goal with |- context [if ?b then _ else _] => destruct b end;
      exact Ha. }
  split; [|exact Hrest]. unfold SPIFLASH_is_busy. rewrite Hop. reflexivity.
Qed.

Lemma blocking_ok_leaves_driver_idle_witness :
  async (w_spi world_be3) = SPIFLASH_SYNCHRONOUS /\
  match run_request (ReqRead 0x1000 4 0x100) 3 world_be3 with
  | Some (res, w') =>
      res = SPIFLASH_OK ->
      SPIFLASH_is_busy w' = SPIFLASH_OK /\
      wait_period_ms (w_spi w') = 0 /\
      busy_pre_check (w_spi w') = 0 /\ busy_check_wait (w_spi w') = BCW_IDLE
  | None => True
  end.
Proof.
  split; [reflexivity|].
  apply (blocking_ok_leaves_driver_idle (ReqRead 0x1000 4 0x100) 3 world_be3).
  reflexivity.
Defined.

Lemma configuration_is_never_changed_witness :
  fixed_part (w_spi (snd (SPIFLASH_async_trigger SPIFLASH_OK world_writing)))
  = fixed_part (w_spi world_writing).
Proof.
  apply (configuration_is_never_changed world_writing).
  eapply reach_step; [apply reach_start|apply host_trigger].
Defined.

(** ** Caller memory *)

Ltac outside_window H :=
  cbn [w_mem snd fst]; unfold mem_store;
  lazymatch goal with
  | |- (if (?p <=? ?x) && (?x <? ?q) then _ else _) = _ =>
      destruct (Z.leb_spec p x), (Z.ltb_spec x q); cbn [andb];
      first [reflexivity | exfalso; apply H; unfold in_window; cbn; lia]
  | |- (if ?x =? ?p then _ else _) = _ =>
      destruct (Z.eqb_spec x p);
      first [reflexivity | exfalso; apply H; unfold in_window; cbn; lia]
  | |- _ => reflexivity
  end.

Ltac mem_split H := split; [outside_window H|reflexivity].

Lemma begin_async_mem w x :
  ~ in_window (rx_window (w_spi w)) x ->
  w_mem (snd (_spiflash_begin_async w)) x = w_mem w x /\
  rx_window (w_spi (snd (_spiflash_begin_async w))) = rx_window (w_spi w).
Proof.
  destruct w as [s m tr cbl].
  destruct s as [c cmd h acb amode o wp ad ln p cbb pre bcw buf].
  unfold _spiflash_begin_async, bind, _spiflash_compose_address.
  destruct o, (negb (pre =? 0)) eqn:Epre;
    unfold rx_window; intros H;
    begin_cbn; rewrite ?Epre; begin_cbn;
    cbn [op wr_buf wr_len rd_buf rd_len id_dst sr_dst] in H;
    try destruct (_spiflash_get_erase_cmd _ _ =? 0);
    begin_cbn; rewrite ?compose_loop_buf; unfold set_tx;
    try destruct (1 + addr_sz c + 1 <? 0); begin_cbn;
    mem_split H.
Qed.

Lemma window_empty (x : Z) : ~ in_window (0, 0) x.
Proof. unfold in_window. cbn. lia. Qed.

Lemma begin_async_mem_out w x :
  ~ in_window (rx_window (w_spi w)) x ->
  w_mem (snd (_spiflash_begin_async w)) x = w_mem w x /\
  ~ in_window (rx_window (w_spi (snd (_spiflash_begin_async w)))) x.
Proof.
  intros H. destruct (begin_async_mem w x H) as [Hm Hw].
  rewrite Hw. split; assumption.
Qed.

Lemma end_async_results_mem r w x :
  ~ in_window (rx_window (w_spi w)) x ->
  w_mem (snd (end_async_results r w)) x = w_mem w x /\
  ~ in_window (rx_window (w_spi (snd (end_async_results r w)))) x.
Proof.
  destruct w as [s m tr cbl].
  destruct s as [c cmd h acb amode o wp ad ln p cbb pre bcw buf].
  unfold end_async_results, bind.
  destruct o, (r =? SPIFLASH_OK) eqn:Er;
    unfold rx_window at 1; intros H;
    engine_cbn; rewrite ?Er; engine_cbn;
    cbn [op wr_buf wr_len rd_buf rd_len id_dst sr_dst] in H;
    try (destruct (ln =? 0); engine_cbn; rewrite ?Er; engine_cbn);
    try (split; [outside_window H|apply window_empty]).
  all: match goal with
       | |- context [_spiflash_begin_async ?w2] =>
           apply (begin_async_mem_out w2 x); apply window_empty
       end.
Qed.

Lemma end_async_mem e w x :
  ~ in_window (rx_window (w_spi w)) x ->
  w_mem (snd (_spiflash_end_async e w)) x = w_mem w x /\
  ~ in_window (rx_window (w_spi (snd (_spiflash_end_async e w)))) x.
Proof.
  destruct w as [s m tr cbl].
  destruct s as [c cmd h acb amode o wp ad ln p cbb pre bcw buf].
  unfold _spiflash_end_async, bind, _spiflash_is_hwbusy, sr_data.
  intros H.
  destruct (negb (e =? SPIFLASH_OK)); [split; [reflexivity|exact H]|].
  engine_cbn.
  destruct (negb (pre =? 0)).
  { destruct (negb (Z.land (nth 0 buf 0) (sr_busy_bit cmd) =? 0));
      [split; [reflexivity|exact H]|].
    match goal with
    | |- context [_spiflash_begin_async ?w2] =>
        apply (begin_async_mem_out w2 x); exact H
    end. }
  destruct (bcw =? BCW_WAIT); [split; [reflexivity|exact H]|].
  destruct (bcw =? BCW_READ_SR).
  { engine_cbn. unfold set_sr_data, set_tx. cbn. split; [reflexivity|exact H]. }
  destruct (bcw =? BCW_CHECK).
  - engine_cbn.
    destruct (negb (Z.land (nth 0 buf 0) (sr_busy_bit cmd) =? 0));
      [split; [reflexivity|exact H]|].
    match goal with
    | |- context [end_async_results _ ?w2] =>
        apply (end_async_results_mem e w2 x); exact H
    end.
  - match goal with
    | |- context [end_async_results _ ?w2] =>
        apply (end_async_results_mem e w2 x); exact H
    end.
Qed.

Lemma trigger_mem e w x :
  ~ in_window (rx_window (w_spi w)) x ->
  w_mem (snd (SPIFLASH_async_trigger e w)) x = w_mem w x /\
  ~ in_window (rx_window (w_spi (snd (SPIFLASH_async_trigger e w)))) x.
Proof.
  intros H. destruct (end_async_mem e w x H) as [Hm Hw]. revert Hm Hw.
  unfold SPIFLASH_async_trigger, bind.
  destruct (_spiflash_end_async e w) as [res [s m tr cbl]].
  destruct s as [c cmd h acb amode o wp ad ln p cbb pre bcw buf].
  cbn.
  destruct (negb (res =? SPIFLASH_OK)), (is_idle o) eqn:Ei,
    (negb (amode =? 0)), acb;
    cbn; intros Hm Hw; (split; [exact Hm|]).
  all: first [exact Hw | apply window_empty].
Qed.

Lemma exe_loop_mem (fuel : nat) (x : Z) :
  forall res w r w',
    ~ in_window (rx_window (w_spi w)) x ->
    exe_loop fuel res w = Some (r, w') ->
    w_mem w' x = w_mem w x.
Proof.
  induction fuel as [|fuel IH]; intros res w r w' Hout H; cbn [exe_loop] in H;
    destruct ((res =? SPIFLASH_OK) && negb (is_idle (op (w_spi w))));
    try discriminate H; try (injection H as <- <-; reflexivity).
  destruct (trigger_mem res w x Hout) as [Hm Hw].
  rewrite <- Hm. eapply IH; [exact Hw|exact H].
Qed.

Lemma exe_mem (fuel : nat) (w : world) (x : Z) r w' :
  ~ in_window (rx_window (w_spi w)) x ->
  _spiflash_exe fuel w = Some (r, w') ->
  w_mem w' x = w_mem w x.
Proof.
  intros Hout. unfold _spiflash_exe. cbv zeta.
  set (w1 := if negb (could_be_busy (w_spi w) =? 0)
             then snd (upd_spi (set_busy_pre_check 1) w) else w).
  assert (w_mem w1 = w_mem w /\ rx_window (w_spi w1) = rx_window (w_spi w))
    as [Hm1 Hw1].
  { subst w1. destruct (negb (could_be_busy (w_spi w) =? 0));
      split; reflexivity. }
  clearbody w1. rewrite <- Hw1 in Hout. rewrite <- Hm1.
  destruct (begin_async_mem_out w1 x Hout) as [Hm2 Hw2].
  destruct (negb (async (w_spi w1) =? 0)).
  - intros H. injection H as H.
    replace w' with (snd (_spiflash_begin_async w1)) by (rewrite H; reflexivity).
    exact Hm2.
  - destruct (exe_loop fuel _ _) as [[r1 w2]|] eqn:E; [|discriminate].
    intros H. injection H as <- <-.
    cbn [snd upd_spi w_mem]. rewrite <- Hm2.
    eapply exe_loop_mem; [exact Hw2|exact E].
Qed.

(** X11: a request stores into caller memory only inside the destination
    it was given: the [len] bytes of the buffer of a read or fast read,
    the one byte of a status or register read, the three bytes of an id
    read.  A write, an erase, a status or register write changes no byte
    of caller memory at all. *)
Theorem request_stores_only_in_its_destination (r : request) (fuel : nat)
    (w : world) (x : Z) :
  ~ in_window (request_window r) x ->
  match run_request r fuel w with
  | Some (_, w') => w_mem w' x = w_mem w x
  | None => True
  end.
Proof.
  intros Hout.
  destruct (run_request r fuel w) as [[res w']|] eqn:E; [|exact I].
  destruct r; unfold_entry_in E;
    (destruct (negb (is_idle (op (w_spi w))));
     [injection E as <- <-; reflexivity|]);
    try (destruct (_spiflash_get_largest_erase_area _ _ _ =? 0);
         [injection E as <- <-; reflexivity|]);
    (apply (exe_mem _ _ x) in E; [rewrite E|]);
    unfold bind, set_sr_data, set_reg_nbr, set_tx, rx_window;
    repeat match goal with |- context [if ?b then _ else _] => destruct b end;
    first [reflexivity | exact Hout | apply window_empty].
Qed.

Lemma request_stores_only_in_its_destination_witness :
  ~ in_window (request_window (ReqRead 0x1000 4 0x100)) 0x104 /\
  match run_request (ReqRead 0x1000 4 0x100) 3 world_be3 with
  | Some (_, w') => w_mem w' 0x104 = w_mem world_be3 0x104
  | None => True
  end.
Proof.
  assert (~ in_window (request_window (ReqRead 0x1000 4 0x100)) 0x104) as H
    by (unfold in_window; cbn; lia).
  split; [exact H|].
  apply (request_stores_only_in_its_destination
           (ReqRead 0x1000 4 0x100) 3 world_be3 0x104 H).
Defined.

(** X12: a completion stores into caller memory only inside the
    destination of the operation in flight. *)
Theorem trigger_stores_only_in_the_destination (e : Z) (w : world) (x : Z) :
  ~ in_window (rx_window (w_spi w)) x ->
  w_mem (snd (SPIFLASH_async_trigger e w)) x = w_mem w x.
Proof. intros H. apply (trigger_mem e w x H). Qed.

Lemma trigger_stores_only_in_the_destination_witness :
  w_mem (snd (SPIFLASH_async_trigger SPIFLASH_OK world_writing)) 0x55
  = w_mem world_writing 0x55.
Proof.
  apply (trigger_stores_only_in_the_destination SPIFLASH_OK world_writing 0x55).
  unfold in_window. cbn. lia.
Defined.

(** ** Requests that are one transfer long *)

Section SingleTransfer.
Variables (c : spiflash_config_t) (cmd : spiflash_cmd_tbl_t)
  (h : spiflash_hal_t) (acb : bool).

Local Abbreviation st0 := (Build_spiflash_t c cmd h acb 0).

Lemma trigger_single_done o wp a l p cbb buf m tr cbl :
  single_transfer o = true ->
  SPIFLASH_async_trigger SPIFLASH_OK
    (Build_world (st0 o wp a l p cbb 0 BCW_IDLE buf) m tr cbl)
  = (SPIFLASH_OK,
     Build_world (st0 SPIFLASH_OP_IDLE 0 a l p cbb 0 BCW_IDLE buf)
       m (tr ++ [HalCs 0]) cbl).
Proof. destruct o; intros H; try discriminate H; reflexivity. Qed.

(** The blocking loop after the transfer of a one-transfer operation that
    answered [code], with the final [_spiflash_finalize]. *)
Lemma finish_single (fuel : nat) code o wp a l p cbb buf m tr cbl :
  single_transfer o = true ->
  match exe_loop (S fuel) code
          (Build_world (st0 o wp a l p cbb 0 BCW_IDLE buf) m tr cbl) with
  | Some (res, w') =>
      res = code /\
      w_mem w' = m /\
      w_trace w' = tr ++ (if code =? SPIFLASH_OK then [HalCs 0] else []) /\
      w_cb w' = cbl
  | None => False
  end.
Proof.
  intros Hs. destruct (code =? SPIFLASH_OK) eqn:E.
  - apply Z.eqb_eq in E. subst code.
    rewrite exe_loop_more by (destruct o; try discriminate Hs; reflexivity).
    rewrite trigger_single_done by exact Hs. cbn [fst snd].
    rewrite exe_loop_done by reflexivity. repeat split.
  - rewrite exe_loop_done by (rewrite E; reflexivity).
    cbn. rewrite app_nil_r. repeat split.
Qed.

End SingleTransfer.

Lemma take_zeros (n : nat) (l : list Z) :
  Forall (fun y => y = 0) l -> (n <= length l)%nat ->
  take n l = replicate n 0.
Proof.
  intros Hz Hn. rewrite (all_zero_replicate _ Hz), take_replicate.
  f_equal. lia.
Qed.

Section ReadFrames.
Variables (c : spiflash_config_t) (cmd : spiflash_cmd_tbl_t)
  (h : spiflash_hal_t) (acb : bool).
Hypothesis Hsz : 0 <= addr_sz c.
Hypothesis Hdz : 0 <= addr_dummy_sz c.

Lemma begin_async_read amode wp a l p cbb bcw b rest m tr cbl :
  1 + addr_sz c + addr_dummy_sz c <= 16 ->
  length rest = 15%nat ->
  Forall (fun y => y = 0) (drop (Z.to_nat (addr_sz c)) rest) ->
  let tr' := (tr ++ [HalCs 1])
             ++ [HalTxrx (read_frame c cmd a) (RxCaller p) l] in
  exists buf',
    _spiflash_begin_async
      (Build_world
         (Build_spiflash_t c cmd h acb amode SPIFLASH_OP_READ wp a l p
            cbb 0 bcw (b :: rest)) m tr cbl)
    = (fst (h tr'),
       Build_world
         (Build_spiflash_t c cmd h acb amode SPIFLASH_OP_READ wp a l p
            cbb 0 bcw buf')
         (mem_store p l (snd (h tr')) m) tr' cbl).
Proof.
  intros Hfit Hlen Hz tr'. eexists.
  unfold _spiflash_begin_async, _spiflash_compose_address, bind.
  cbn -[compose_loop]. rewrite !compose_loop_buf. cbn -[compose_loop].
  unfold tx_frame. cbn -[compose_buf].
  rewrite insert_head, command_frame_buf, command_frame by lia.
  rewrite take_zeros by (try assumption; rewrite length_drop; lia).
  reflexivity.
Qed.

End ReadFrames.

Lemma transfer_trace (h : spiflash_hal_t) (tr : list hal_event) tx rx n :
  ((tr ++ [HalCs 1]) ++ [HalTxrx tx rx n])
  ++ (if fst (h ((tr ++ [HalCs 1]) ++ [HalTxrx tx rx n])) =? SPIFLASH_OK
      then [HalCs 0] else [])
  = tr ++ transfer_calls h tr tx rx n.
Proof.
  unfold transfer_calls. rewrite <- !app_assoc. reflexivity.
Qed.

Lemma transfer_reply_eq (h : spiflash_hal_t) (tr : list hal_event) tx rx n :
  h ((tr ++ [HalCs 1]) ++ [HalTxrx tx rx n]) = transfer_reply h tr tx rx n.
Proof. unfold transfer_reply. rewrite <- app_assoc. reflexivity. Qed.

Ltac run_seeded :=
  unfold _spiflash_exe, bind;
  cbn -[_spiflash_begin_async exe_loop transfer_calls transfer_reply];
  cbv [set_op set_wr_len set_wr_buf set_addr set_wait_period_ms cfg cmd_tbl
       hal async_cb async op wait_period_ms addr wr_len wr_buf could_be_busy
       busy_pre_check busy_check_wait tx_internal_buf];
  cbn -[exe_loop transfer_calls transfer_reply].

Ltac one_transfer :=
  cbv zeta;
  match goal with
  | |- context [exe_loop (S ?fuel) ?code
                  (Build_world (Build_spiflash_t ?c ?cmd ?h ?acb 0 ?o ?wp ?a ?l
                                  ?p ?cbb 0 BCW_IDLE ?buf) ?m ?tr ?cbl)] =>
      let Hs := fresh "Hs" in
      let Hm := fresh "Hm" in
      let Htr := fresh "Htr" in
      pose proof (finish_single c cmd h acb fuel code o wp a l p cbb buf m tr
                    cbl eq_refl) as Hs;
      destruct (exe_loop (S fuel) code
                  (Build_world (Build_spiflash_t c cmd h acb 0 o wp a l
                                  p cbb 0 BCW_IDLE buf) m tr cbl))
        as [[? ?]|]; [|contradiction];
      destruct Hs as (-> & Hm & Htr & _);
      eexists; split; [rewrite <- ?transfer_reply_eq; reflexivity|];
      cbn [upd_spi snd w_trace w_mem];
      rewrite Htr, Hm, transfer_trace, <- ?transfer_reply_eq;
      split; reflexivity
  end.

(** X13: a blocking read on a driver at rest is one transfer: chip
    select, the frame of read opcode, address and zero dummy bytes with
    [len] bytes received into the caller's buffer, and the release of chip
    select when the transfer succeeded.  The request returns what the
    host returned for the transfer, and caller memory holds the received
    bytes from [buf] on. *)
Theorem blocking_read_is_one_transfer (c : spiflash_config_t) (w : world)
    (a len buf : Z) (fuel : nat) :
  world_ok c w -> quiescent (w_spi w) ->
  async (w_spi w) = SPIFLASH_SYNCHRONOUS ->
  0 <= addr_sz c -> 0 <= addr_dummy_sz c ->
  1 + addr_sz c + addr_dummy_sz c <= 16 ->
  (1 <= fuel)%nat ->
  let tx := read_frame c (cmd_tbl (w_spi w)) a in
  let reply :=
    transfer_reply (hal (w_spi w)) (w_trace w) tx (RxCaller buf) len in
  exists w',
    SPIFLASH_read a len buf fuel w = Some (fst reply, w') /\
    w_trace w'
    = w_trace w
      ++ transfer_calls (hal (w_spi w)) (w_trace w) tx (RxCaller buf) len /\
    w_mem w' = mem_store buf len (snd reply) (w_mem w).
Proof.
  intros [Hc [Hlen Hz]] (Hop & Hcbb & Hpre & Hbcw) Ha Hsz Hdz Hfit Hfuel.
  unfold SPIFLASH_SYNCHRONOUS in Ha.
  quiet_world w c. subst.
  destruct scratch as [|b rest]; [discriminate Hlen|].
  cbn [length] in Hlen.
  replace (Z.to_nat (1 + addr_sz c)) with (S (Z.to_nat (addr_sz c))) in Hz
    by lia.
  cbn [drop] in Hz.
  destruct fuel as [|fuel]; [lia|].
  unfold SPIFLASH_read, _spiflash_exe, bind.
  cbn -[_spiflash_begin_async exe_loop].
  cbv [set_op set_wr_len set_wr_buf set_addr cfg cmd_tbl hal async_cb async
       op wait_period_ms addr wr_len wr_buf could_be_busy busy_pre_check
       busy_check_wait tx_internal_buf].
  destruct (begin_async_read c cmd h acb Hsz Hdz 0 wp a len buf
              0 BCW_IDLE b rest m tr cbl Hfit ltac:(lia) Hz) as [buf' Hb].
  cbv zeta in Hb. rewrite Hb. cbn [fst snd].
  one_transfer.
Qed.

(** X14: a blocking fast read on a driver at rest whose scratch buffer is
    as the driver keeps it is one transfer of the fast-read frame (opcode,
    address, the mandatory dummy byte and the [addr_dummy_sz] dummy bytes,
    all zero) with [len] bytes received into the caller's buffer; with no
    fast-read opcode in the command table it is the transfer of a plain
    read.  The request returns what the host returned for the transfer. *)
Theorem blocking_fast_read_is_one_transfer (c : spiflash_config_t)
    (w : world) (a len buf : Z) (fuel : nat) :
  world_ok c w -> quiescent (w_spi w) ->
  async (w_spi w) = SPIFLASH_SYNCHRONOUS ->
  1 <= addr_sz c -> 0 <= addr_dummy_sz c ->
  1 + addr_sz c + 1 + addr_dummy_sz c <= 16 ->
  (1 <= fuel)%nat ->
  let tx :=
    if read_data_fast (cmd_tbl (w_spi w)) =? 0
    then read_frame c (cmd_tbl (w_spi w)) a
    else fast_read_frame c (cmd_tbl (w_spi w)) a in
  let reply :=
    transfer_reply (hal (w_spi w)) (w_trace w) tx (RxCaller buf) len in
  exists w',
    SPIFLASH_fast_read a len buf fuel w = Some (fst reply, w') /\
    w_trace w'
    = w_trace w
      ++ transfer_calls (hal (w_spi w)) (w_trace w) tx (RxCaller buf) len /\
    w_mem w' = mem_store buf len (snd reply) (w_mem w).
Proof.
  intros [Hc [Hlen Hz]] (Hop & Hcbb & Hpre & Hbcw) Ha Hsz Hdz Hfit Hfuel.
  unfold SPIFLASH_SYNCHRONOUS in Ha.
  quiet_world w c. subst.
  destruct scratch as [|b rest]; [discriminate Hlen|].
  cbn [length] in Hlen.
  replace (Z.to_nat (1 + addr_sz c)) with (S (Z.to_nat (addr_sz c))) in Hz
    by lia.
  cbn [drop] in Hz.
  destruct fuel as [|fuel]; [lia|].
  unfold SPIFLASH_fast_read, _spiflash_exe, bind.
  cbn -[_spiflash_begin_async exe_loop].
  destruct (read_data_fast cmd =? 0);
    cbv [set_op set_wr_len set_wr_buf set_addr cfg cmd_tbl hal async_cb async
         op wait_period_ms addr wr_len wr_buf could_be_busy busy_pre_check
         busy_check_wait tx_internal_buf].
  - destruct (begin_async_read c cmd h acb ltac:(lia) Hdz 0 wp a len buf
                0 BCW_IDLE b rest m tr cbl ltac:(lia) ltac:(lia) Hz)
      as [buf' Hb].
    cbv zeta in Hb. rewrite Hb. cbn [fst snd].
    one_transfer.
  - destruct (begin_async_fast_read c cmd h acb Hsz Hdz Hfit 0 wp a len buf
                0 BCW_IDLE b rest m tr cbl ltac:(lia) Hz) as [buf' Hb].
    cbv zeta in Hb. rewrite Hb. cbn [fst snd].
    one_transfer.
Qed.

(** X15: a blocking id read on a driver at rest is one transfer: the
    one-byte JEDEC-id (or device-id) opcode is sent and three bytes are
    received at the destination; the fourth byte of the 32-bit destination
    is not written.  The request returns what the host returned. *)
Theorem blocking_id_read_is_one_transfer (w : world) (dst : Z) (fuel : nat) :
  quiescent (w_spi w) ->
  async (w_spi w) = SPIFLASH_SYNCHRONOUS ->
  (1 <= fuel)%nat ->
  let h := hal (w_spi w) in
  let tr := w_trace w in
  (let tx := [jedec_id (cmd_tbl (w_spi w))] in
   exists w',
     SPIFLASH_read_jedec_id dst fuel w
     = Some (fst (transfer_reply h tr tx (RxCaller dst) 3), w') /\
     w_trace w' = tr ++ transfer_calls h tr tx (RxCaller dst) 3 /\
     w_mem w'
     = mem_store dst 3 (snd (transfer_reply h tr tx (RxCaller dst) 3))
         (w_mem w)) /\
  (let tx := [device_id (cmd_tbl (w_spi w))] in
   exists w',
     SPIFLASH_read_product_id dst fuel w
     = Some (fst (transfer_reply h tr tx (RxCaller dst) 3), w') /\
     w_trace w' = tr ++ transfer_calls h tr tx (RxCaller dst) 3 /\
     w_mem w'
     = mem_store dst 3 (snd (transfer_reply h tr tx (RxCaller dst) 3))
         (w_mem w)).
Proof.
  intros (Hop & Hcbb & Hpre & Hbcw) Ha Hfuel.
  unfold SPIFLASH_SYNCHRONOUS in Ha.
  quiet_world w c. subst.
  destruct fuel as [|fuel]; [lia|].
  split; cbv zeta;
    unfold SPIFLASH_read_jedec_id, SPIFLASH_read_product_id;
    run_seeded; one_transfer.
Qed.

(** X16: a blocking status read on a driver at rest is one transfer: the
    read-status opcode is sent and one byte is received at the
    destination, as the chip sent it. *)
Theorem blocking_read_sr_is_one_transfer (w : world) (dst : Z) (fuel : nat) :
  quiescent (w_spi w) ->
  async (w_spi w) = SPIFLASH_SYNCHRONOUS ->
  (1 <= fuel)%nat ->
  let h := hal (w_spi w) in
  let tr := w_trace w in
  let tx := [read_sr (cmd_tbl (w_spi w))] in
  exists w',
    SPIFLASH_read_sr dst fuel w
    = Some (fst (transfer_reply h tr tx (RxCaller dst) 1), w') /\
    w_trace w' = tr ++ transfer_calls h tr tx (RxCaller dst) 1 /\
    w_mem w'
    = mem_store dst 1 (snd (transfer_reply h tr tx (RxCaller dst) 1))
        (w_mem w).
Proof.
  intros (Hop & Hcbb & Hpre & Hbcw) Ha Hfuel.
  unfold SPIFLASH_SYNCHRONOUS in Ha.
  quiet_world w c. subst.
  destruct fuel as [|fuel]; [lia|].
  cbv zeta. unfold SPIFLASH_read_sr. run_seeded. one_transfer.
Qed.

(** X17: a blocking busy query on a driver at rest is one transfer of the
    read-status opcode; when it succeeds the destination byte is 1 if the
    busy bit of the command table is set in the status byte the chip sent
    and 0 if it is not, and no other byte of caller memory changes. *)
Theorem blocking_read_sr_busy_normalises (w : world) (dst : Z) (fuel : nat) :
  quiescent (w_spi w) ->
  async (w_spi w) = SPIFLASH_SYNCHRONOUS ->
  (1 <= fuel)%nat ->
  let h := hal (w_spi w) in
  let tr := w_trace w in
  let tx := [read_sr (cmd_tbl (w_spi w))] in
  let reply := transfer_reply h tr tx (RxCaller dst) 1 in
  exists w',
    SPIFLASH_read_sr_busy dst fuel w = Some (fst reply, w') /\
    w_trace w' = tr ++ transfer_calls h tr tx (RxCaller dst) 1 /\
    (fst reply = SPIFLASH_OK ->
     w_mem w' dst
     = if Z.land (wrap8 (nth 0 (snd reply) 0))
            (sr_busy_bit (cmd_tbl (w_spi w))) =? 0
       then 0 else 1) /\
    (forall x, x <> dst -> w_mem w' x = w_mem w x).
Proof.
  intros (Hop & Hcbb & Hpre & Hbcw) Ha Hfuel.
  unfold SPIFLASH_SYNCHRONOUS in Ha.
  quiet_world w c. subst.
  destruct fuel as [|fuel]; [lia|].
  cbv zeta. unfold SPIFLASH_read_sr_busy. run_seeded.
  rewrite !transfer_reply_eq.
  set (reply := transfer_reply h tr [read_sr cmd] (RxCaller dst) 1).
  assert (forall x, x <> dst -> mem_store dst 1 (snd reply) m x = m x) as Hout.
  { intros x Hx. unfold mem_store.
    destruct (Z.leb_spec dst x), (Z.ltb_spec x (dst + 1)); cbn [andb];
      try reflexivity; lia. }
  assert (mem_store dst 1 (snd reply) m dst = wrap8 (nth 0 (snd reply) 0))
    as Hin.
  { unfold mem_store. rewrite Z.leb_refl, (proj2 (Z.ltb_lt _ _)) by lia.
    cbn [andb]. rewrite Z.sub_diag. reflexivity. }
  destruct (fst reply =? SPIFLASH_OK) eqn:E.
  - apply Z.eqb_eq in E. rewrite E.
    rewrite exe_loop_more by reflexivity.
    cbn -[exe_loop transfer_calls transfer_reply mem_store].
    rewrite exe_loop_done by reflexivity.
    eexists. split; [reflexivity|].
    cbn [upd_spi snd w_trace w_mem]. split; [|split].
    + rewrite <- transfer_trace, transfer_reply_eq. fold reply.
      rewrite E. reflexivity.
    + intros _. rewrite Z.eqb_refl, Hin. reflexivity.
    + intros x Hx. rewrite (proj2 (Z.eqb_neq _ _) Hx). apply Hout. exact Hx.
  - rewrite exe_loop_done by (rewrite E; reflexivity).
    eexists. split; [reflexivity|].
    cbn [upd_spi snd w_trace w_mem]. split; [|split].
    + rewrite <- transfer_trace, transfer_reply_eq. fold reply.
      rewrite E. symmetry. apply app_nil_r.
    + intros H. rewrite H in E. discriminate E.
    + exact Hout.
Qed.

(** X18: a blocking register read on a driver at rest is one transfer:
    the register number is sent as one byte and one byte is received at
    the destination. *)
Theorem blocking_read_reg_is_one_transfer (w : world) (reg dst : Z)
    (fuel : nat) :
  quiescent (w_spi w) ->
  async (w_spi w) = SPIFLASH_SYNCHRONOUS ->
  length (tx_internal_buf (w_spi w)) = 16%nat ->
  (1 <= fuel)%nat ->
  let h := hal (w_spi w) in
  let tr := w_trace w in
  let tx := [wrap8 reg] in
  exists w',
    SPIFLASH_read_reg reg dst fuel w
    = Some (fst (transfer_reply h tr tx (RxCaller dst) 1), w') /\
    w_trace w' = tr ++ transfer_calls h tr tx (RxCaller dst) 1 /\
    w_mem w'
    = mem_store dst 1 (snd (transfer_reply h tr tx (RxCaller dst) 1))
        (w_mem w).
Proof.
  intros (Hop & Hcbb & Hpre & Hbcw) Ha Hlen Hfuel.
  unfold SPIFLASH_SYNCHRONOUS in Ha.
  quiet_world w c. subst.
  destruct scratch as [|b0 rest]; [discriminate Hlen|].
  destruct fuel as [|fuel]; [lia|].
  cbv zeta. unfold SPIFLASH_read_reg, set_reg_nbr, set_sr_data, set_tx,
    reg_nbr, sr_data.
  run_seeded. one_transfer.
Qed.

(** X19: a blocking register write without write enable on a driver at
    rest is one transfer of two bytes, the register number and the data,
    with nothing received and no wait; caller memory is not touched. *)
Theorem blocking_write_reg_plain_is_one_transfer (w : world)
    (reg data wait_ms : Z) (fuel : nat) :
  quiescent (w_spi w) ->
  async (w_spi w) = SPIFLASH_SYNCHRONOUS ->
  length (tx_internal_buf (w_spi w)) = 16%nat ->
  (1 <= fuel)%nat ->
  let h := hal (w_spi w) in
  let tr := w_trace w in
  let tx := [wrap8 reg; wrap8 data] in
  exists w',
    SPIFLASH_write_reg reg data 0 wait_ms fuel w
    = Some (fst (transfer_reply h tr tx RxNone 0), w') /\
    w_trace w' = tr ++ transfer_calls h tr tx RxNone 0 /\
    w_mem w' = w_mem w.
Proof.
  intros (Hop & Hcbb & Hpre & Hbcw) Ha Hlen Hfuel.
  unfold SPIFLASH_SYNCHRONOUS in Ha.
  quiet_world w c. subst.
  destruct scratch as [|b0 [|b1 rest]]; try discriminate Hlen.
  destruct fuel as [|fuel]; [lia|].
  cbv zeta. unfold SPIFLASH_write_reg, set_tx.
  run_seeded. unfold tx_frame.
  cbv [set_busy_check_wait cfg cmd_tbl hal async_cb async op wait_period_ms
       addr wr_len wr_buf could_be_busy busy_pre_check busy_check_wait
       tx_internal_buf].
  change (<[Z.to_nat 1:=wrap8 data]>
            (<[Z.to_nat 0:=wrap8 reg]> (b0 :: b1 :: rest)))
    with (wrap8 reg :: wrap8 data :: rest).
  change (take (Z.to_nat 2) (wrap8 reg :: wrap8 data :: rest))
    with [wrap8 reg; wrap8 data].
  one_transfer.
Qed.

Lemma blocking_read_is_one_transfer_witness :
  let w := world_be3 in
  let tx := read_frame cfg_be3 (cmd_tbl (w_spi w)) 0x1000 in
  let reply :=
    transfer_reply (hal (w_spi w)) (w_trace w) tx (RxCaller 0x100) 4 in
  exists w',
    SPIFLASH_read 0x1000 4 0x100 3 w = Some (fst reply, w') /\
    w_trace w'
    = w_trace w
      ++ transfer_calls (hal (w_spi w)) (w_trace w) tx (RxCaller 0x100) 4 /\
    w_mem w' = mem_store 0x100 4 (snd reply) (w_mem w).
Proof.
  apply (blocking_read_is_one_transfer cfg_be3 world_be3 0x1000 4 0x100 3).
  - split; [reflexivity|]. split; [reflexivity|]. cbn. repeat constructor.
  - repeat split.
  - reflexivity.
  - cbn; lia.
  - cbn; lia.
  - cbn; lia.
  - lia.
Defined.

Lemma blocking_fast_read_is_one_transfer_witness :
  let w := world_be3 in
  let tx :=
    if read_data_fast (cmd_tbl (w_spi w)) =? 0
    then read_frame cfg_be3 (cmd_tbl (w_spi w)) 0x2000
    else fast_read_frame cfg_be3 (cmd_tbl (w_spi w)) 0x2000 in
  let reply :=
    transfer_reply (hal (w_spi w)) (w_trace w) tx (RxCaller 0x100) 16 in
  exists w',
    SPIFLASH_fast_read 0x2000 16 0x100 3 w = Some (fst reply, w') /\
    w_trace w'
    = w_trace w
      ++ transfer_calls (hal (w_spi w)) (w_trace w) tx (RxCaller 0x100) 16 /\
    w_mem w' = mem_store 0x100 16 (snd reply) (w_mem w).
Proof.
  apply (blocking_fast_read_is_one_transfer cfg_be3 world_be3 0x2000 16
           0x100 3).
  - split; [reflexivity|]. split; [reflexivity|]. cbn. repeat constructor.
  - repeat split.
  - reflexivity.
  - cbn; lia.
  - cbn; lia.
  - cbn; lia.
  - lia.
Defined.

Lemma blocking_id_read_is_one_transfer_witness :
  let w := world_be3 in
  let h := hal (w_spi w) in
  let tr := w_trace w in
  (let tx := [jedec_id (cmd_tbl (w_spi w))] in
   exists w',
     SPIFLASH_read_jedec_id 0x100 2 w
     = Some (fst (transfer_reply h tr tx (RxCaller 0x100) 3), w') /\
     w_trace w' = tr ++ transfer_calls h tr tx (RxCaller 0x100) 3 /\
     w_mem w'
     = mem_store 0x100 3 (snd (transfer_reply h tr tx (RxCaller 0x100) 3))
         (w_mem w)) /\
  (let tx := [device_id (cmd_tbl (w_spi w))] in
   exists w',
     SPIFLASH_read_product_id 0x100 2 w
     = Some (fst (transfer_reply h tr tx (RxCaller 0x100) 3), w') /\
     w_trace w' = tr ++ transfer_calls h tr tx (RxCaller 0x100) 3 /\
     w_mem w'
     = mem_store 0x100 3 (snd (transfer_reply h tr tx (RxCaller 0x100) 3))
         (w_mem w)).
Proof.
  apply (blocking_id_read_is_one_transfer world_be3 0x100 2).
  - repeat split.
  - reflexivity.
  - lia.
Defined.

Lemma blocking_read_sr_is_one_transfer_witness :
  let w := world_be3 in
  let h := hal (w_spi w) in
  let tr := w_trace w in
  let tx := [read_sr (cmd_tbl (w_spi w))] in
  exists w',
    SPIFLASH_read_sr 0x100 2 w
    = Some (fst (transfer_reply h tr tx (RxCaller 0x100) 1), w') /\
    w_trace w' = tr ++ transfer_calls h tr tx (RxCaller 0x100) 1 /\
    w_mem w'
    = mem_store 0x100 1 (snd (transfer_reply h tr tx (RxCaller 0x100) 1))
        (w_mem w).
Proof.
  apply (blocking_read_sr_is_one_transfer world_be3 0x100 2).
  - repeat split.
  - reflexivity.
  - lia.
Defined.

Lemma blocking_read_sr_busy_normalises_witness :
  let w := world_be3 in
  let h := hal (w_spi w) in
  let tr := w_trace w in
  let tx := [read_sr (cmd_tbl (w_spi w))] in
  let reply := transfer_reply h tr tx (RxCaller 0x100) 1 in
  exists w',
    SPIFLASH_read_sr_busy 0x100 2 w = Some (fst reply, w') /\
    w_trace w' = tr ++ transfer_calls h tr tx (RxCaller 0x100) 1 /\
    (fst reply = SPIFLASH_OK ->
     w_mem w' 0x100
     = if Z.land (wrap8 (nth 0 (snd reply) 0))
            (sr_busy_bit (cmd_tbl (w_spi w))) =? 0
       then 0 else 1) /\
    (forall x, x <> 0x100 -> w_mem w' x = w_mem w x).
Proof.
  apply (blocking_read_sr_busy_normalises world_be3 0x100 2).
  - repeat split.
  - reflexivity.
  - lia.
Defined.

Lemma blocking_read_reg_is_one_transfer_witness :
  let w := world_be3 in
  let h := hal (w_spi w) in
  let tr := w_trace w in
  let tx := [wrap8 0x15] in
  exists w',
    SPIFLASH_read_reg 0x15 0x100 2 w
    = Some (fst (transfer_reply h tr tx (RxCaller 0x100) 1), w') /\
    w_trace w' = tr ++ transfer_calls h tr tx (RxCaller 0x100) 1 /\
    w_mem w'
    = mem_store 0x100 1 (snd (transfer_reply h tr tx (RxCaller 0x100) 1))
        (w_mem w).
Proof.
  apply (blocking_read_reg_is_one_transfer world_be3 0x15 0x100 2).
  - repeat split.
  - reflexivity.
  - reflexivity.
  - lia.
Defined.

Lemma blocking_write_reg_plain_is_one_transfer_witness :
  let w := world_be3 in
  let h := hal (w_spi w) in
  let tr := w_trace w in
  let tx := [wrap8 0x11; wrap8 0x80] in
  exists w',
    SPIFLASH_write_reg 0x11 0x80 0 50 2 w
    = Some (fst (transfer_reply h tr tx RxNone 0), w') /\
    w_trace w' = tr ++ transfer_calls h tr tx RxNone 0 /\
    w_mem w' = w_mem w.
Proof.
  apply (blocking_write_reg_plain_is_one_transfer world_be3 0x11 0x80 50 2).
  - repeat split.
  - reflexivity.
  - reflexivity.
  - lia.
Defined.

(** ** Commands under write enable *)

Lemma wrap8_idem (z : Z) : wrap8 (wrap8 z) = wrap8 z.
Proof. unfold wrap8. apply Z.mod_mod. lia. Qed.

Lemma last_step_in_flight o l : last_step o l = true -> is_idle o = false.
Proof. destruct o; intros H; try discriminate H; reflexivity. Qed.

Section LastStep.
Variables (c : spiflash_config_t) (cmd : spiflash_cmd_tbl_t)
  (h : spiflash_hal_t) (acb : bool) (cbb : Z) (m : Z -> Z)
  (cbl : list (spiflash_op_t * Z)).

Local Abbreviation st0 := (Build_spiflash_t c cmd h acb 0).

Lemma results_last_step o wp a l p buf tr :
  last_step o l = true ->
  end_async_results SPIFLASH_OK
    (Build_world (st0 o wp a l p cbb 0 BCW_IDLE buf) m tr cbl)
  = (SPIFLASH_OK,
     Build_world (st0 SPIFLASH_OP_IDLE 0 a l p cbb 0 BCW_IDLE buf)
       m (tr ++ [HalCs 0]) cbl).
Proof.
  intros H. unfold end_async_results, bind.
  destruct o; try discriminate H; cbn in H |- *; rewrite ?H; reflexivity.
Qed.

Lemma trigger_last_idle o wp a l p buf tr :
  last_step o l = true ->
  SPIFLASH_async_trigger SPIFLASH_OK
    (Build_world (st0 o wp a l p cbb 0 BCW_IDLE buf) m tr cbl)
  = (SPIFLASH_OK,
     Build_world (st0 SPIFLASH_OP_IDLE 0 a l p cbb 0 BCW_IDLE buf)
       m (tr ++ [HalCs 0]) cbl).
Proof.
  intros H. unfold SPIFLASH_async_trigger, bind.
  rewrite end_async_bcw_idle, results_last_step by exact H. reflexivity.
Qed.

Lemma trigger_last_check o wp a l p b0 rest tr :
  last_step o l = true ->
  Z.land b0 (sr_busy_bit cmd) = 0 ->
  SPIFLASH_async_trigger SPIFLASH_OK
    (Build_world (st0 o wp a l p cbb 0 BCW_CHECK (b0 :: rest)) m tr cbl)
  = (SPIFLASH_OK,
     Build_world (st0 SPIFLASH_OP_IDLE 0 a l p cbb 0 BCW_IDLE (b0 :: rest))
       m ((tr ++ [HalCs 0]) ++ [HalCs 0]) cbl).
Proof.
  intros H Hrdy. unfold SPIFLASH_async_trigger, bind.
  rewrite end_async_bcw_check_ready, results_last_step by assumption.
  reflexivity.
Qed.

(** From the completion of the last command of an operation to its end:
    the busy wait, then the engine goes idle and releases chip select. *)
Lemma wait_and_finish (n : nat) o t a l p b rest tr :
  last_step o l = true ->
  hal_follows h (sr_busy_bit cmd) tr (wait_script (read_sr cmd) t n) ->
  exists k b',
    triggers k
      (Build_world (st0 o t a l p cbb 0 BCW_WAIT (b :: rest)) m tr cbl)
    = Some
        (Build_world
           (st0 SPIFLASH_OP_IDLE 0 a l p cbb 0 BCW_IDLE (b' :: rest)) m
           (tr ++ map fst (wait_script (read_sr cmd) t n ++ [(HalCs 0, ExpOk)]))
           cbl).
Proof.
  intros Hlast Hf.
  pose proof (last_step_in_flight o l Hlast) as Hi.
  pose proof (trigger_bcw_wait c cmd h acb 0 o t a l p cbb (b :: rest) m tr
                cbl Hi) as HA.
  pose proof (triggers_one _ _ HA Hi) as R1. clear HA.
  unfold wait_script in *.
  destruct (t =? 0) eqn:Et.
  - exists 2%nat, b.
    eapply (triggers_snoc 1); [exact R1| |exact Hi].
    rewrite trigger_last_idle by exact Hlast.
    cbn [app map fst]. rewrite <- !app_assoc. reflexivity.
  - apply hal_follows_app in Hf. destruct Hf as [_ Hf].
    cbn [map fst app] in Hf.
    apply hal_follows_app in Hf. destruct Hf as [Hpoll _].
    replace (tr ++ [HalCs 0; HalWait t])
      with ((tr ++ [HalCs 0]) ++ [HalWait t]) in Hpoll
      by (rewrite <- app_assoc; reflexivity).
    destruct (poll_loop c cmd h acb 0 n o t a l p cbb b rest m _ cbl Hi Hpoll)
      as (srb & Hrdy & Rp).
    pose proof (triggers_chain _ _ _ _ _ R1 Rp) as R2. clear R1 Rp.
    eexists. exists srb.
    eapply triggers_snoc; [exact R2| |exact Hi].
    rewrite trigger_last_check by assumption.
    rewrite !map_app. cbn [app map fst]. rewrite <- !app_assoc.
    reflexivity.
Qed.

End LastStep.

Lemma exe_loop_run (k fuel : nat) (w w' : world) :
  triggers k w = Some w' ->
  is_idle (op (w_spi w')) = true ->
  (k <= fuel)%nat ->
  exe_loop fuel SPIFLASH_OK w = Some (SPIFLASH_OK, w').
Proof.
  intros Hrun Hidle Hfuel.
  replace fuel with (k + (fuel - k))%nat by lia.
  rewrite (exe_loop_triggers k _ _ _ Hrun).
  apply exe_loop_done. rewrite Hidle. reflexivity.
Qed.

Section CommandSteps.
Variables (c : spiflash_config_t) (cmd : spiflash_cmd_tbl_t)
  (h : spiflash_hal_t) (acb : bool) (cbb : Z) (m : Z -> Z)
  (cbl : list (spiflash_op_t * Z)).

Local Abbreviation st0 := (Build_spiflash_t c cmd h acb 0).

Lemma trigger_write_sr_wren wp a l p b0 b1 rest tr :
  fst (h (((tr ++ [HalCs 0]) ++ [HalCs 1])
          ++ [HalTxrx [wrap8 (write_sr cmd); wrap8 b0] RxNone 0]))
    = SPIFLASH_OK ->
  SPIFLASH_async_trigger SPIFLASH_OK
    (Build_world
       (st0 SPIFLASH_OP_WRITE_SR_sWREN wp a l p cbb 0 BCW_IDLE
          (b0 :: b1 :: rest)) m tr cbl)
  = (SPIFLASH_OK,
     Build_world
       (st0 SPIFLASH_OP_WRITE_SR_sDATA (sr_write_ms c) a l p cbb 0 BCW_WAIT
          (wrap8 (write_sr cmd) :: wrap8 b0 :: rest)) m
       (((tr ++ [HalCs 0]) ++ [HalCs 1])
        ++ [HalTxrx [wrap8 (write_sr cmd); wrap8 b0] RxNone 0]) cbl).
Proof.
  intros Hok.
  unfold SPIFLASH_async_trigger, _spiflash_end_async, end_async_results,
    _spiflash_begin_async, bind.
  cbn. unfold tx_frame. cbn.
  change (<[Z.to_nat 0:=wrap8 (write_sr cmd)]>
            (<[Z.to_nat 1:=wrap8 b0]> (b0 :: b1 :: rest)))
    with (wrap8 (write_sr cmd) :: wrap8 b0 :: rest).
  change (take (Z.to_nat 2) (wrap8 (write_sr cmd) :: wrap8 b0 :: rest))
    with [wrap8 (write_sr cmd); wrap8 b0].
  rewrite Hok. reflexivity.
Qed.

Lemma trigger_chip_erase_wren wp a l p b0 rest tr :
  fst (h (((tr ++ [HalCs 0]) ++ [HalCs 1])
          ++ [HalTxrx [wrap8 (chip_erase cmd)] RxNone 0]))
    = SPIFLASH_OK ->
  SPIFLASH_async_trigger SPIFLASH_OK
    (Build_world
       (st0 SPIFLASH_OP_ERASE_CHIP_sWREN wp a l p cbb 0 BCW_IDLE
          (b0 :: rest)) m tr cbl)
  = (SPIFLASH_OK,
     Build_world
       (st0 SPIFLASH_OP_ERASE_CHIP_sERAS (chip_erase_ms c) a l p cbb 0
          BCW_WAIT (wrap8 (chip_erase cmd) :: rest)) m
       (((tr ++ [HalCs 0]) ++ [HalCs 1])
        ++ [HalTxrx [wrap8 (chip_erase cmd)] RxNone 0]) cbl).
Proof.
  intros Hok.
  unfold SPIFLASH_async_trigger, _spiflash_end_async, end_async_results,
    _spiflash_begin_async, bind.
  cbn. unfold tx_frame. cbn.
  change (<[Z.to_nat 0:=wrap8 (chip_erase cmd)]> (b0 :: rest))
    with (wrap8 (chip_erase cmd) :: rest).
  change (take (Z.to_nat 1) (wrap8 (chip_erase cmd) :: rest))
    with [wrap8 (chip_erase cmd)].
  rewrite Hok. reflexivity.
Qed.

Lemma trigger_write_reg_wren wp a l p b0 b1 rest tr :
  fst (h (((tr ++ [HalCs 0]) ++ [HalCs 1])
          ++ [HalTxrx [b0; b1] RxNone 0]))
    = SPIFLASH_OK ->
  SPIFLASH_async_trigger SPIFLASH_OK
    (Build_world
       (st0 SPIFLASH_OP_WRITE_REG_sWREN wp a l p cbb 0 BCW_IDLE
          (b0 :: b1 :: rest)) m tr cbl)
  = (SPIFLASH_OK,
     Build_world
       (st0 SPIFLASH_OP_WRITE_REG_sDATAWAIT wp a l p cbb 0 BCW_WAIT
          (b0 :: b1 :: rest)) m
       (((tr ++ [HalCs 0]) ++ [HalCs 1])
        ++ [HalTxrx [b0; b1] RxNone 0]) cbl).
Proof.
  intros Hok.
  unfold SPIFLASH_async_trigger, _spiflash_end_async, end_async_results,
    _spiflash_begin_async, bind.
  cbn. unfold tx_frame. cbn.
  change (take (Z.to_nat 2) (b0 :: b1 :: rest)) with [b0; b1].
  rewrite Hok. reflexivity.
Qed.

End CommandSteps.

(** X20: a blocking status write on a driver at rest, on a host whose
    transfers succeed and whose status polls end after [n] busy answers:
    the write-enable frame, the two-byte frame of write-status opcode and
    status value, the wait of [sr_write_ms] with its status polls (none
    when [sr_write_ms] is 0), and the release of chip select.  The request
    returns OK, the driver is idle again and caller memory is as it
    was. *)
Theorem blocking_write_sr_sequence (w : world) (sr : Z) (n : nat) :
  quiescent (w_spi w) ->
  async (w_spi w) = SPIFLASH_SYNCHRONOUS ->
  length (tx_internal_buf (w_spi w)) = 16%nat ->
  let cmd := cmd_tbl (w_spi w) in
  let script :=
    command_script cmd [wrap8 (write_sr cmd); wrap8 sr]
      (sr_write_ms (cfg (w_spi w))) n
    ++ [(HalCs 0, ExpOk)] in
  hal_follows (hal (w_spi w)) (sr_busy_bit cmd) (w_trace w) script ->
  exists k w',
    (forall fuel, (k <= fuel)%nat ->
       SPIFLASH_write_sr sr fuel w = Some (SPIFLASH_OK, w')) /\
    w_trace w' = w_trace w ++ map fst script /\
    w_mem w' = w_mem w /\
    SPIFLASH_is_busy w' = SPIFLASH_OK.
Proof.
  intros (Hop & Hcbb & Hpre & Hbcw) Ha Hlen.
  unfold SPIFLASH_SYNCHRONOUS in Ha.
  quiet_world w c. subst.
  destruct scratch as [|b0 [|b1 rest]]; try discriminate Hlen.
  cbv zeta. unfold command_script. rewrite <- app_assoc.
  intros Hf. cbn [app hal_follows] in Hf.
  destruct Hf as (_ & [Hok_wren _] & _ & _ & [Hok_frame _] & Hwait).
  apply hal_follows_app in Hwait. destruct Hwait as [Hwait _].
  pose proof (trigger_write_sr_wren c' cmd h acb 0 m cbl wp a0 l0 p0
                (wrap8 sr) b1 rest
                ((tr ++ [HalCs 1]) ++ [HalTxrx [write_enable cmd] RxNone 0]))
    as HA.
  rewrite wrap8_idem in HA. specialize (HA Hok_frame).
  pose proof (triggers_one _ _ HA eq_refl) as R1. clear HA.
  destruct (wait_and_finish c' cmd h acb 0 m cbl n
              SPIFLASH_OP_WRITE_SR_sDATA (sr_write_ms c') a0 l0 p0
              (wrap8 (write_sr cmd)) (wrap8 sr :: rest) _ eq_refl Hwait)
    as (k & b' & R2).
  pose proof (triggers_chain _ _ _ _ _ R1 R2) as R3. clear R1 R2.
  eexists. eexists. split; [|split; [|split]].
  - intros fuel Hfuel.
    unfold SPIFLASH_write_sr, _spiflash_exe, _spiflash_begin_async, bind,
      set_sr_data, set_tx.
    cbn -[exe_loop]. seeded. cbn -[exe_loop].
    rewrite ?insert_head, Hok_wren.
    rewrite (exe_loop_run _ fuel _ _ R3 eq_refl Hfuel). reflexivity.
  - cbn [upd_spi snd w_trace]. rewrite !map_app. cbn [app map fst].
    rewrite <- !app_assoc. reflexivity.
  - reflexivity.
  - reflexivity.
Qed.

Lemma blocking_write_sr_sequence_witness :
  let w := world_be3 in
  let cmd := cmd_tbl (w_spi w) in
  let script :=
    command_script cmd [wrap8 (write_sr cmd); wrap8 0x02]
      (sr_write_ms (cfg (w_spi w))) 0
    ++ [(HalCs 0, ExpOk)] in
  exists k w',
    (forall fuel, (k <= fuel)%nat ->
       SPIFLASH_write_sr 0x02 fuel w = Some (SPIFLASH_OK, w')) /\
    w_trace w' = w_trace w ++ map fst script /\
    w_mem w' = w_mem w /\
    SPIFLASH_is_busy w' = SPIFLASH_OK.
Proof.
  apply (blocking_write_sr_sequence world_be3 0x02 0).
  - repeat split.
  - reflexivity.
  - reflexivity.
  - vm_compute. repeat split.
Defined.

(** X21: a blocking chip erase on a driver at rest, on a host whose
    transfers succeed and whose status polls end after [n] busy answers:
    the write-enable frame, the one-byte chip-erase frame, the wait of
    [chip_erase_ms] with its status polls (none when it is 0), and the
    release of chip select.  The request returns OK, the driver is idle
    again and caller memory is as it was. *)
Theorem blocking_chip_erase_sequence (w : world) (n : nat) :
  quiescent (w_spi w) ->
  async (w_spi w) = SPIFLASH_SYNCHRONOUS ->
  length (tx_internal_buf (w_spi w)) = 16%nat ->
  let cmd := cmd_tbl (w_spi w) in
  let script :=
    command_script cmd [wrap8 (chip_erase cmd)]
      (chip_erase_ms (cfg (w_spi w))) n
    ++ [(HalCs 0, ExpOk)] in
  hal_follows (hal (w_spi w)) (sr_busy_bit cmd) (w_trace w) script ->
  exists k w',
    (forall fuel, (k <= fuel)%nat ->
       SPIFLASH_chip_erase fuel w = Some (SPIFLASH_OK, w')) /\
    w_trace w' = w_trace w ++ map fst script /\
    w_mem w' = w_mem w /\
    SPIFLASH_is_busy w' = SPIFLASH_OK.
Proof.
  intros (Hop & Hcbb & Hpre & Hbcw) Ha Hlen.
  unfold SPIFLASH_SYNCHRONOUS in Ha.
  quiet_world w c. subst.
  destruct scratch as [|b0 rest]; try discriminate Hlen.
  cbv zeta. unfold command_script. rewrite <- app_assoc.
  intros Hf. cbn [app hal_follows] in Hf.
  destruct Hf as (_ & [Hok_wren _] & _ & _ & [Hok_frame _] & Hwait).
  apply hal_follows_app in Hwait. destruct Hwait as [Hwait _].
  pose proof (trigger_chip_erase_wren c' cmd h acb 0 m cbl wp a0 l0 p0
                b0 rest
                ((tr ++ [HalCs 1]) ++ [HalTxrx [write_enable cmd] RxNone 0])
                Hok_frame)
    as HA.
  pose proof (triggers_one _ _ HA eq_refl) as R1. clear HA.
  destruct (wait_and_finish c' cmd h acb 0 m cbl n
              SPIFLASH_OP_ERASE_CHIP_sERAS (chip_erase_ms c') a0 l0 p0
              (wrap8 (chip_erase cmd)) rest _ eq_refl Hwait)
    as (k & b' & R2).
  pose proof (triggers_chain _ _ _ _ _ R1 R2) as R3. clear R1 R2.
  eexists. eexists. split; [|split; [|split]].
  - intros fuel Hfuel.
    unfold SPIFLASH_chip_erase, _spiflash_exe, _spiflash_begin_async, bind.
    cbn -[exe_loop]. seeded. cbn -[exe_loop]. rewrite Hok_wren.
    rewrite (exe_loop_run _ fuel _ _ R3 eq_refl Hfuel). reflexivity.
  - cbn [upd_spi snd w_trace]. rewrite !map_app. cbn [app map fst].
    rewrite <- !app_assoc. reflexivity.
  - reflexivity.
  - reflexivity.
Qed.

Lemma blocking_chip_erase_sequence_witness :
  let w := world_be3 in
  let cmd := cmd_tbl (w_spi w) in
  let script :=
    command_script cmd [wrap8 (chip_erase cmd)]
      (chip_erase_ms (cfg (w_spi w))) 0
    ++ [(HalCs 0, ExpOk)] in
  exists k w',
    (forall fuel, (k <= fuel)%nat ->
       SPIFLASH_chip_erase fuel w = Some (SPIFLASH_OK, w')) /\
    w_trace w' = w_trace w ++ map fst script /\
    w_mem w' = w_mem w /\
    SPIFLASH_is_busy w' = SPIFLASH_OK.
Proof.
  apply (blocking_chip_erase_sequence world_be3 0).
  - repeat split.
  - reflexivity.
  - reflexivity.
  - vm_compute. repeat split.
Defined.

(** X22: a blocking register write under write enable on a driver at
    rest, on a host whose transfers succeed and whose status polls end
    after [n] busy answers: the write-enable frame, the two-byte frame of
    register number and data, the wait of the caller's [wait_ms] with its
    status polls (none when [wait_ms] is 0), and the release of chip
    select.  The request returns OK, the driver is idle again and caller
    memory is as it was. *)
Theorem blocking_write_reg_sequence (w : world) (reg data write_en wait_ms : Z)
    (n : nat) :
  quiescent (w_spi w) ->
  async (w_spi w) = SPIFLASH_SYNCHRONOUS ->
  length (tx_internal_buf (w_spi w)) = 16%nat ->
  write_en <> 0 ->
  let cmd := cmd_tbl (w_spi w) in
  let script :=
    command_script cmd [wrap8 reg; wrap8 data] wait_ms n
    ++ [(HalCs 0, ExpOk)] in
  hal_follows (hal (w_spi w)) (sr_busy_bit cmd) (w_trace w) script ->
  exists k w',
    (forall fuel, (k <= fuel)%nat ->
       SPIFLASH_write_reg reg data write_en wait_ms fuel w
       = Some (SPIFLASH_OK, w')) /\
    w_trace w' = w_trace w ++ map fst script /\
    w_mem w' = w_mem w /\
    SPIFLASH_is_busy w' = SPIFLASH_OK.
Proof.
  intros (Hop & Hcbb & Hpre & Hbcw) Ha Hlen Hen.
  unfold SPIFLASH_SYNCHRONOUS in Ha.
  quiet_world w c. subst.
  destruct scratch as [|b0 [|b1 rest]]; try discriminate Hlen.
  cbv zeta. unfold command_script. rewrite <- app_assoc.
  intros Hf. cbn [app hal_follows] in Hf.
  destruct Hf as (_ & [Hok_wren _] & _ & _ & [Hok_frame _] & Hwait).
  apply hal_follows_app in Hwait. destruct Hwait as [Hwait _].
  pose proof (trigger_write_reg_wren c' cmd h acb 0 m cbl wait_ms a0 l0 p0
                (wrap8 reg) (wrap8 data) rest
                ((tr ++ [HalCs 1]) ++ [HalTxrx [write_enable cmd] RxNone 0])
                Hok_frame)
    as HA.
  pose proof (triggers_one _ _ HA eq_refl) as R1. clear HA.
  destruct (wait_and_finish c' cmd h acb 0 m cbl n
              SPIFLASH_OP_WRITE_REG_sDATAWAIT wait_ms a0 l0 p0
              (wrap8 reg) (wrap8 data :: rest) _ eq_refl Hwait)
    as (k & b' & R2).
  pose proof (triggers_chain _ _ _ _ _ R1 R2) as R3. clear R1 R2.
  eexists. eexists. split; [|split; [|split]].
  - intros fuel Hfuel.
    unfold SPIFLASH_write_reg, _spiflash_exe, _spiflash_begin_async, bind,
      set_tx.
    rewrite (proj2 (Z.eqb_neq _ _) Hen).
    cbn -[exe_loop]. seeded. cbn -[exe_loop].
    change (<[Z.to_nat 1:=wrap8 data]>
              (<[Z.to_nat 0:=wrap8 reg]> (b0 :: b1 :: rest)))
      with (wrap8 reg :: wrap8 data :: rest).
    rewrite Hok_wren.
    rewrite (exe_loop_run _ fuel _ _ R3 eq_refl Hfuel). reflexivity.
  - cbn [upd_spi snd w_trace]. rewrite !map_app. cbn [app map fst].
    rewrite <- !app_assoc. reflexivity.
  - reflexivity.
  - reflexivity.
Qed.

Lemma blocking_write_reg_sequence_witness :
  let w := world_be3 in
  let cmd := cmd_tbl (w_spi w) in
  let script :=
    command_script cmd [wrap8 0x11; wrap8 0x80] 5 0
    ++ [(HalCs 0, ExpOk)] in
  exists k w',
    (forall fuel, (k <= fuel)%nat ->
       SPIFLASH_write_reg 0x11 0x80 1 5 fuel w = Some (SPIFLASH_OK, w')) /\
    w_trace w' = w_trace w ++ map fst script /\
    w_mem w' = w_mem w /\
    SPIFLASH_is_busy w' = SPIFLASH_OK.
Proof.
  apply (blocking_write_reg_sequence world_be3 0x11 0x80 1 5 0).
  - repeat split.
  - reflexivity.
  - reflexivity.
  - discriminate.
  - vm_compute. repeat split.
Defined.

(** ** Block erase *)

Section WaitThrough.
Variables (c : spiflash_config_t) (cmd : spiflash_cmd_tbl_t)
  (h : spiflash_hal_t) (acb : bool) (cbb : Z) (m : Z -> Z)
  (cbl : list (spiflash_op_t * Z)).

Local Abbreviation st0 := (Build_spiflash_t c cmd h acb 0).

Lemma trigger_check_ready o wp a l p b0 rest tr :
  Z.land b0 (sr_busy_bit cmd) = 0 ->
  SPIFLASH_async_trigger SPIFLASH_OK
    (Build_world (st0 o wp a l p cbb 0 BCW_CHECK (b0 :: rest)) m tr cbl)
  = SPIFLASH_async_trigger SPIFLASH_OK
      (Build_world (st0 o wp a l p cbb 0 BCW_IDLE (b0 :: rest)) m
         (tr ++ [HalCs 0]) cbl).
Proof.
  intros Hrdy. unfold SPIFLASH_async_trigger, bind.
  rewrite end_async_bcw_check_ready, end_async_bcw_idle by exact Hrdy.
  reflexivity.
Qed.

(** The busy wait of a step: the completions up to the one that handles
    the result of the step, which sees the sub-machine idle. *)
Lemma wait_through (n : nat) o t a l p b rest tr :
  is_idle o = false ->
  hal_follows h (sr_busy_bit cmd) tr (wait_script (read_sr cmd) t n) ->
  exists k w1 wp' b',
    triggers k
      (Build_world (st0 o t a l p cbb 0 BCW_WAIT (b :: rest)) m tr cbl)
    = Some w1 /\
    is_idle (op (w_spi w1)) = false /\
    SPIFLASH_async_trigger SPIFLASH_OK w1
    = SPIFLASH_async_trigger SPIFLASH_OK
        (Build_world (st0 o wp' a l p cbb 0 BCW_IDLE (b' :: rest)) m
           (tr ++ map fst (wait_script (read_sr cmd) t n)) cbl).
Proof.
  intros Hi Hf.
  pose proof (trigger_bcw_wait c cmd h acb 0 o t a l p cbb (b :: rest) m tr
                cbl Hi) as HA.
  pose proof (triggers_one _ _ HA Hi) as R1. clear HA.
  unfold wait_script in *.
  destruct (t =? 0) eqn:Et.
  - exists 1%nat. eexists. exists t, b. split; [exact R1|].
    split; [exact Hi|].
    cbn [app map fst]. rewrite <- !app_assoc. reflexivity.
  - apply hal_follows_app in Hf. destruct Hf as [_ Hf].
    cbn [map fst app] in Hf.
    apply hal_follows_app in Hf. destruct Hf as [Hpoll _].
    replace (tr ++ [HalCs 0; HalWait t])
      with ((tr ++ [HalCs 0]) ++ [HalWait t]) in Hpoll
      by (rewrite <- app_assoc; reflexivity).
    destruct (poll_loop c cmd h acb 0 n o t a l p cbb b rest m _ cbl Hi Hpoll)
      as (srb & Hrdy & Rp).
    pose proof (triggers_chain _ _ _ _ _ R1 Rp) as R2. clear R1 Rp.
    eexists. eexists. exists (backoff n t), srb. split; [exact R2|].
    split; [exact Hi|].
    rewrite trigger_check_ready by exact Hrdy.
    rewrite !map_app. cbn [app map fst]. rewrite <- !app_assoc.
    reflexivity.
Qed.

Lemma trigger_erase_wren wp a l p b rest tr :
  _spiflash_get_erase_cmd cmd (_spiflash_get_largest_erase_area cmd a l)
    <> 0 ->
  let blk := _spiflash_get_largest_erase_area cmd a l in
  let buf' :=
    compose_buf c (Z.to_nat (addr_sz c)) 0 a 1
      (wrap8 (_spiflash_get_erase_cmd cmd blk) :: rest) in
  let tr' :=
    ((tr ++ [HalCs 0]) ++ [HalCs 1])
    ++ [HalTxrx (take (Z.to_nat (1 + addr_sz c + addr_dummy_sz c)) buf')
          RxNone 0] in
  fst (h tr') = SPIFLASH_OK ->
  SPIFLASH_async_trigger SPIFLASH_OK
    (Build_world
       (st0 SPIFLASH_OP_ERASE_BLOCK_sWREN wp a l p cbb 0 BCW_IDLE (b :: rest))
       m tr cbl)
  = (SPIFLASH_OK,
     Build_world
       (st0 SPIFLASH_OP_ERASE_BLOCK_sERAS (_spiflash_get_erase_time c blk)
          (wrap32 (a + blk)) (wrap32 (l - blk)) p cbb 0 BCW_WAIT buf')
       m tr' cbl).
Proof.
  intros Hcmd. cbv zeta. intros Hok. apply Z.eqb_neq in Hcmd.
  unfold SPIFLASH_async_trigger, _spiflash_end_async, end_async_results,
    _spiflash_begin_async, _spiflash_compose_address, bind.
  cbn -[compose_loop _spiflash_get_largest_erase_area
        _spiflash_get_erase_cmd _spiflash_get_erase_time].
  rewrite Hcmd.
  cbn -[compose_loop _spiflash_get_largest_erase_area
        _spiflash_get_erase_cmd _spiflash_get_erase_time].
  rewrite !compose_loop_buf.
  cbn -[compose_loop compose_buf _spiflash_get_largest_erase_area
        _spiflash_get_erase_cmd _spiflash_get_erase_time].
  unfold tx_frame.
  cbn -[compose_loop compose_buf _spiflash_get_largest_erase_area
        _spiflash_get_erase_cmd _spiflash_get_erase_time].
  rewrite !insert_head, Hok. reflexivity.
Qed.

Lemma trigger_erase_more wp a l p buf tr :
  l <> 0 ->
  fst (h ((tr ++ [HalCs 1]) ++ [HalTxrx [write_enable cmd] RxNone 0]))
    = SPIFLASH_OK ->
  SPIFLASH_async_trigger SPIFLASH_OK
    (Build_world
       (st0 SPIFLASH_OP_ERASE_BLOCK_sERAS wp a l p cbb 0 BCW_IDLE buf)
       m tr cbl)
  = (SPIFLASH_OK,
     Build_world
       (st0 SPIFLASH_OP_ERASE_BLOCK_sWREN wp a l p cbb 0 BCW_IDLE buf)
       m ((tr ++ [HalCs 1]) ++ [HalTxrx [write_enable cmd] RxNone 0]) cbl).
Proof.
  intros Hl Hok. apply Z.eqb_neq in Hl.
  unfold SPIFLASH_async_trigger, _spiflash_end_async, end_async_results,
    _spiflash_begin_async, bind.
  cbn. rewrite Hl. cbn. rewrite Hok. reflexivity.
Qed.

End WaitThrough.

Lemma planner_choice_opcode (cmd : spiflash_cmd_tbl_t) (a len : Z) :
  _spiflash_get_largest_erase_area cmd a len <> 0 ->
  _spiflash_get_erase_cmd cmd (_spiflash_get_largest_erase_area cmd a len)
    <> 0.
Proof.
  intros Hnz.
  destruct (planner_result cmd a len)
    as [H0|(k0 & ks & k & Eks & Hin & Hr & _)]; [contradiction|].
  rewrite Hr. rewrite <- Eks in Hin.
  apply erase_cmd_of_supported. exact Hin.
Qed.

Lemma erase_blocks_script_head c cmd dummy fuel a l polls tail :
  l <> 0 -> (1 <= fuel)%nat ->
  exists sc,
    erase_blocks_script c cmd dummy (erase_plan fuel cmd a l) polls ++ tail
    = (HalCs 1, ExpOk) :: (HalTxrx [write_enable cmd] RxNone 0, ExpOk) :: sc.
Proof.
  intros Hl Hfuel. destruct fuel as [|fuel]; [lia|].
  cbn [erase_plan]. rewrite (proj2 (Z.eqb_neq _ _) Hl).
  cbn [erase_blocks_script erase_block_script command_script app].
  eexists. reflexivity.
Qed.

Section EraseRun.
Variables (c : spiflash_config_t) (cmd : spiflash_cmd_tbl_t)
  (h : spiflash_hal_t) (acb : bool) (cbb : Z) (m : Z -> Z)
  (cbl : list (spiflash_op_t * Z)) (tailz : list Z).
Hypotheses (Hasz : 0 <= addr_sz c) (Hdsz : 0 <= addr_dummy_sz c).

Local Abbreviation st0 := (Build_spiflash_t c cmd h acb 0).
Local Abbreviation dz := (take (Z.to_nat (addr_dummy_sz c)) tailz).

Lemma erase_loop (fuel : nat) :
  forall a l p wp b rest tr polls,
    0 <= a < 2 ^ 32 -> 0 <= l < 2 ^ 32 ->
    _spiflash_get_largest_erase_area cmd a l <> 0 ->
    (Z.to_nat (l / 4096) <= fuel)%nat ->
    (Z.to_nat (addr_sz c) <= length rest)%nat ->
    drop (Z.to_nat (addr_sz c)) rest = tailz ->
    hal_follows h (sr_busy_bit cmd) tr
      (erase_blocks_script c cmd dz (erase_plan fuel cmd a l) polls
       ++ [(HalCs 0, ExpOk)]) ->
    exists n w',
      triggers n
        (Build_world
           (st0 SPIFLASH_OP_ERASE_BLOCK_sWREN wp a l p cbb 0 BCW_IDLE
              (b :: rest))
           m ((tr ++ [HalCs 1]) ++ [HalTxrx [write_enable cmd] RxNone 0]) cbl)
      = Some w' /\
      is_idle (op (w_spi w')) = true /\
      w_trace w'
      = tr ++ map fst
          (erase_blocks_script c cmd dz (erase_plan fuel cmd a l) polls
           ++ [(HalCs 0, ExpOk)]) /\
      w_mem w' = m.
Proof.
  induction fuel as [|fuel IH];
    intros a l p wp b rest tr polls Ha Hl Hnz Hfuel Hrest Htail Hf.
  - exfalso.
    destruct (planner_choice_supported cmd a l Hnz) as [Hin Hle].
    apply supported_block_bounds in Hin.
    assert (1 <= l / 4096) by (apply Z.div_le_lower_bound; lia). lia.
  - destruct (planner_choice_supported cmd a l Hnz) as [Hin Hle].
    pose proof (supported_block_bounds cmd _ Hin) as [Hblk Hdiv].
    pose proof (planner_choice_opcode cmd a l Hnz) as Hcmd.
    pose proof (planner_progress cmd a l Ha Hnz) as Hprog.
    cbn [erase_plan] in Hf |- *.
    replace (l =? 0) with false in Hf |- *
      by (symmetry; apply Z.eqb_neq; lia).
    set (blk := _spiflash_get_largest_erase_area cmd a l) in *.
    rewrite (wrap32_small (l - blk)) in Hf |- * by lia.
    set (a' := wrap32 (a + blk)) in *.
    assert (0 <= a' < 2 ^ 32) as Ha' by (apply Z.mod_pos_bound; lia).
    set (T := _spiflash_get_erase_time c blk) in *.
    set (opc := wrap8 (_spiflash_get_erase_cmd cmd blk)) in *.
    cbn [erase_blocks_script erase_block_script command_script fst snd app
         hal_follows] in Hf.
    fold T in Hf. fold opc in Hf.
    destruct Hf as (_ & [_ _] & _ & _ & [Hok_frame _] & Hf).
    (* the frame in the scratch buffer *)
    assert (compose_buf c (Z.to_nat (addr_sz c)) 0 a 1 (opc :: rest)
            = opc :: address_bytes c a ++ tailz) as Hbuf.
    { rewrite command_frame_buf, Htail by assumption. reflexivity. }
    assert (take (Z.to_nat (1 + addr_sz c + addr_dummy_sz c))
              (opc :: address_bytes c a ++ tailz)
            = opc :: address_bytes c a ++ dz) as Hframe.
    { rewrite <- Htail. apply command_frame; assumption. }
    pose proof (trigger_erase_wren c cmd h acb cbb m cbl wp a l p b rest
                  ((tr ++ [HalCs 1]) ++ [HalTxrx [write_enable cmd] RxNone 0])
                  Hcmd) as HA.
    cbv zeta in HA. fold blk in HA. fold opc in HA. fold T in HA. fold a' in HA.
    rewrite Hbuf, Hframe in HA. specialize (HA Hok_frame).
    rewrite (wrap32_small (l - blk)) in HA by lia.
    pose proof (triggers_one _ _ HA eq_refl) as R1. clear HA.
    match type of Hf with
    | hal_follows _ _ _ ((?x ++ ?y) ++ ?z) =>
        replace ((x ++ y) ++ z) with (x ++ (y ++ z)) in Hf
          by (rewrite <- app_assoc; reflexivity)
    end.
    apply hal_follows_app in Hf. destruct Hf as [Hwait Hf].
    destruct (Z.eq_dec (l - blk) 0) as [Hdone|Hmore].
    + (* the last block *)
      rewrite Hdone in *. rewrite erase_plan_done in *.
      destruct (wait_and_finish c cmd h acb cbb m cbl (hd 0%nat polls)
                  SPIFLASH_OP_ERASE_BLOCK_sERAS T a' 0 p opc
                  (address_bytes c a ++ tailz) _ eq_refl Hwait)
        as (k & b' & R2).
      eexists. eexists. split; [|split; [|split]].
      * exact (triggers_chain _ _ _ _ _ R1 R2).
      * reflexivity.
      * cbn [w_trace erase_blocks_script erase_block_script command_script
             fst snd app map].
        fold T. fold opc. rewrite !map_app. cbn [app map fst].
        rewrite <- !app_assoc. reflexivity.
      * reflexivity.
    + (* more blocks *)
      destruct (wait_through c cmd h acb cbb m cbl (hd 0%nat polls)
                  SPIFLASH_OP_ERASE_BLOCK_sERAS T a' (l - blk) p opc
                  (address_bytes c a ++ tailz) _ eq_refl Hwait)
        as (k & w1 & wp' & b' & R2 & Hi1 & Hnext).
      assert (Z.to_nat ((l - blk) / 4096) <= fuel)%nat as Hfuel'.
      { assert (l / 4096 = (l - blk) / 4096 + blk / 4096) as Hsplit.
        { apply Z.mod_divide in Hdiv; [|lia]. destruct Hdiv as [q Hq].
          rewrite Hq. rewrite Z.div_mul by lia.
          replace l with ((l - q * 4096) + q * 4096) at 1 by lia.
          apply Z.div_add. lia. }
        assert (1 <= blk / 4096) by (apply Z.div_le_lower_bound; lia).
        assert (0 <= (l - blk) / 4096) by (apply Z.div_pos; lia).
        lia. }
      assert (1 <= fuel)%nat as Hfuel1.
      { destruct (planner_choice_supported cmd a' (l - blk) (Hprog Hmore))
          as [Hin' Hle'].
        apply supported_block_bounds in Hin'.
        assert (1 <= (l - blk) / 4096) by (apply Z.div_le_lower_bound; lia).
        lia. }
      destruct (erase_blocks_script_head c cmd dz fuel a' (l - blk) (tl polls)
                  [(HalCs 0, ExpOk)] Hmore Hfuel1) as (sc & Hsc).
      pose proof Hf as Hf2. rewrite Hsc in Hf2.
      cbn [hal_follows] in Hf2. destruct Hf2 as (_ & [Hok_wren _] & _).
      pose proof (trigger_erase_more c cmd h acb cbb m cbl wp' a' (l - blk) p
                    (b' :: address_bytes c a ++ tailz) _ Hmore Hok_wren) as HB.
      rewrite <- Hnext in HB.
      pose proof (triggers_snoc _ _ _ _ (triggers_chain _ _ _ _ _ R1 R2) HB Hi1)
        as R3.
      destruct (IH a' (l - blk) p wp' b' (address_bytes c a ++ tailz) _
                  (tl polls) Ha' ltac:(lia) (Hprog Hmore) Hfuel'
                  ltac:(rewrite length_app, length_address_bytes by assumption; lia)
                  ltac:(apply drop_address_bytes; assumption)
                  Hf)
        as (n & w' & Hrun & Hidle & Htr & Hmem).
      eexists. exists w'. split; [|split; [|split]].
      * exact (triggers_chain _ _ _ _ _ R3 Hrun).
      * exact Hidle.
      * rewrite Htr.
        cbn [erase_blocks_script erase_block_script command_script
             fst snd app map].
        fold T. fold opc. rewrite !map_app. cbn [app map fst].
        rewrite <- !app_assoc. reflexivity.
      * exact Hmem.
Qed.

End EraseRun.

(** X23: a blocking erase that the driver accepts, on a driver at rest and
    a host whose transfers succeed and whose status polls end: for each
    block the planner chooses, in order, the write-enable frame, the frame
    of that block size's erase opcode with the address of the cursor, and
    the wait of that size's nominal time with its status polls; the cursor
    and the remaining length move on by the block size until nothing
    remains, then chip select is released.  The request returns OK, the
    driver is idle again and caller memory is as it was. *)
Theorem blocking_erase_sequence (w : world) (a len : Z) (polls : list nat) :
  quiescent (w_spi w) ->
  async (w_spi w) = SPIFLASH_SYNCHRONOUS ->
  length (tx_internal_buf (w_spi w)) = 16%nat ->
  0 <= addr_sz (cfg (w_spi w)) ->
  0 <= addr_dummy_sz (cfg (w_spi w)) ->
  1 + addr_sz (cfg (w_spi w)) + addr_dummy_sz (cfg (w_spi w)) <= 16 ->
  0 <= a < 2 ^ 32 -> 0 <= len < 2 ^ 32 ->
  _spiflash_get_largest_erase_area (cmd_tbl (w_spi w)) a len <> 0 ->
  let script :=
    erase_script (cfg (w_spi w)) (cmd_tbl (w_spi w))
      (tx_internal_buf (w_spi w)) a len polls in
  hal_follows (hal (w_spi w)) (sr_busy_bit (cmd_tbl (w_spi w))) (w_trace w)
    script ->
  exists k w',
    (forall fuel, (k <= fuel)%nat ->
       SPIFLASH_erase a len fuel w = Some (SPIFLASH_OK, w')) /\
    w_trace w' = w_trace w ++ map fst script /\
    w_mem w' = w_mem w /\
    SPIFLASH_is_busy w' = SPIFLASH_OK.
Proof.
  intros (Hop & Hcbb & Hpre & Hbcw) Hmode Hlen Hasz Hdsz Hfit Ha Hl Hnz.
  unfold SPIFLASH_SYNCHRONOUS in Hmode.
  quiet_world w c. subst.
  destruct scratch as [|b rest]; [discriminate Hlen|].
  cbv zeta. unfold erase_script, dummy_bytes.
  replace (Z.to_nat (1 + addr_sz c')) with (S (Z.to_nat (addr_sz c'))) by lia.
  cbn [drop].
  set (tailz := drop (Z.to_nat (addr_sz c')) rest).
  intros Hf.
  assert (len <> 0) as Hlen0.
  { destruct (planner_choice_supported cmd a len Hnz) as [Hin Hle].
    apply supported_block_bounds in Hin. lia. }
  assert (1 <= Z.to_nat (len / 4096))%nat as Hfuel1.
  { destruct (planner_choice_supported cmd a len Hnz) as [Hin Hle].
    apply supported_block_bounds in Hin.
    assert (1 <= len / 4096) by (apply Z.div_le_lower_bound; lia). lia. }
  destruct (erase_blocks_script_head c' cmd
              (take (Z.to_nat (addr_dummy_sz c')) tailz)
              (Z.to_nat (len / 4096)) a len polls [(HalCs 0, ExpOk)]
              Hlen0 Hfuel1) as (sc & Hsc).
  pose proof Hf as Hf2. rewrite Hsc in Hf2. cbn [hal_follows] in Hf2.
  destruct Hf2 as (_ & [Hok_wren _] & _).
  destruct (erase_loop c' cmd h acb 0 m cbl tailz Hasz Hdsz
              (Z.to_nat (len / 4096)) a len p0 wp b rest tr polls
              Ha Hl Hnz (Nat.le_refl _) ltac:(cbn in Hlen; lia) eq_refl Hf)
    as (n & w' & Hrun & Hidle & Htr & Hmem).
  exists n. eexists. split; [|split; [|split]].
  - intros fuel Hfuel.
    unfold SPIFLASH_erase, _spiflash_exe, _spiflash_begin_async, bind.
    cbn -[exe_loop _spiflash_get_largest_erase_area].
    rewrite (proj2 (Z.eqb_neq _ _) Hnz).
    cbn -[exe_loop _spiflash_get_largest_erase_area]. seeded.
    cbn -[exe_loop _spiflash_get_largest_erase_area].
    rewrite Hok_wren.
    rewrite (exe_loop_run _ fuel _ _ Hrun Hidle Hfuel). reflexivity.
  - cbn [upd_spi snd w_trace]. exact Htr.
  - cbn [upd_spi snd w_mem]. exact Hmem.
  - unfold SPIFLASH_is_busy. cbn [upd_spi snd w_spi].
    change (op (_spiflash_finalize (w_spi w'))) with (op (w_spi w')).
    rewrite Hidle. reflexivity.
Qed.

Lemma blocking_erase_sequence_witness :
  let w := world_be3 in
  let script :=
    erase_script (cfg (w_spi w)) (cmd_tbl (w_spi w))
      (tx_internal_buf (w_spi w)) 0x7000 0x12000 [] in
  exists k w',
    (forall fuel, (k <= fuel)%nat ->
       SPIFLASH_erase 0x7000 0x12000 fuel w = Some (SPIFLASH_OK, w')) /\
    w_trace w' = w_trace w ++ map fst script /\
    w_mem w' = w_mem w /\
    SPIFLASH_is_busy w' = SPIFLASH_OK.
Proof.
  apply (blocking_erase_sequence world_be3 0x7000 0x12000 []).
  - repeat split.
  - reflexivity.
  - reflexivity.
  - cbn; lia.
  - cbn; lia.
  - cbn; lia.
  - lia.
  - lia.
  - vm_compute. discriminate.
  - vm_compute. repeat split.
Defined.

(** ** Completions with an error, and with nothing in flight *)

(** X24: a completion reported with an error code ends the operation in
    flight at once: [SPIFLASH_async_trigger] returns that code, makes no
    host call (chip select is left as it is), leaves caller memory alone,
    clears the wait state and sets the driver idle; an asynchronous driver
    with a callback passes the operation that was in flight and the code
    to the callback. *)
Theorem trigger_with_error_aborts (e : Z) (w : world) :
  e <> SPIFLASH_OK ->
  let q := SPIFLASH_async_trigger e w in
  fst q = e /\
  w_trace (snd q) = w_trace w /\
  w_mem (snd q) = w_mem w /\
  op (w_spi (snd q)) = SPIFLASH_OP_IDLE /\
  wait_period_ms (w_spi (snd q)) = 0 /\
  busy_pre_check (w_spi (snd q)) = 0 /\
  busy_check_wait (w_spi (snd q)) = BCW_IDLE /\
  w_cb (snd q)
  = w_cb w
    ++ (if negb (async (w_spi w) =? 0) && async_cb (w_spi w)
        then [(op (w_spi w), e)] else []).
Proof.
  intros He. apply Z.eqb_neq in He.
  destruct w as [s m tr cbl].
  destruct s as [c cmd h acb amode o wp ad ln p cbb pre bcw buf].
  unfold SPIFLASH_async_trigger, _spiflash_end_async, bind.
  cbn. rewrite He. cbn. rewrite He. cbn.
  destruct (negb (amode =? 0)), acb; cbn; rewrite ?app_nil_r;
    repeat split.
Qed.

Lemma trigger_with_error_aborts_witness :
  let q := SPIFLASH_async_trigger (-1) world_writing in
  fst q = -1 /\
  w_trace (snd q) = w_trace world_writing /\
  w_mem (snd q) = w_mem world_writing /\
  op (w_spi (snd q)) = SPIFLASH_OP_IDLE /\
  wait_period_ms (w_spi (snd q)) = 0 /\
  busy_pre_check (w_spi (snd q)) = 0 /\
  busy_check_wait (w_spi (snd q)) = BCW_IDLE /\
  w_cb (snd q)
  = w_cb world_writing
    ++ (if negb (async (w_spi world_writing) =? 0)
           && async_cb (w_spi world_writing)
        then [(op (w_spi world_writing), -1)] else []).
Proof.
  apply (trigger_with_error_aborts (-1) world_writing). discriminate.
Defined.

(** X25: whatever a completion finds, when [SPIFLASH_async_trigger]
    returns an error the driver is idle afterwards, and when it returns
    OK with the driver still busy the operation goes on. *)
Theorem trigger_error_leaves_driver_idle (e : Z) (w : world) :
  let q := SPIFLASH_async_trigger e w in
  (fst q <> SPIFLASH_OK -> SPIFLASH_is_busy (snd q) = SPIFLASH_OK) /\
  (SPIFLASH_is_busy (snd q) <> SPIFLASH_OK -> fst q = SPIFLASH_OK).
Proof.
  cbv zeta. destruct (trigger_stop e w) as [Hres Hstop].
  cbv zeta in Hres, Hstop. unfold SPIFLASH_is_busy. rewrite Hstop, <- Hres.
  destruct (fst (SPIFLASH_async_trigger e w) =? SPIFLASH_OK) eqn:E;
    cbn [negb orb].
  - apply Z.eqb_eq in E. split; [intros H; contradiction|intros _; exact E].
  - split; [reflexivity|intros H; contradiction].
Qed.

(** X26: a completion reported while nothing is in flight (driver at
    rest) is answered with the internal error: chip select is released,
    nothing else is called, and the driver stays idle. *)
Theorem trigger_with_nothing_in_flight (w : world) :
  quiescent (w_spi w) ->
  let q := SPIFLASH_async_trigger SPIFLASH_OK w in
  fst q = SPIFLASH_ERR_INTERNAL /\
  w_trace (snd q) = w_trace w ++ [HalCs 0] /\
  w_mem (snd q) = w_mem w /\
  SPIFLASH_is_busy (snd q) = SPIFLASH_OK.
Proof.
  intros (Hop & Hcbb & Hpre & Hbcw).
  quiet_world w c. subst.
  unfold SPIFLASH_async_trigger, _spiflash_end_async, end_async_results, bind.
  cbn. change (SPIFLASH_ERR_INTERNAL =? SPIFLASH_OK) with false. cbn.
  destruct (negb (amode =? 0)), acb; repeat split.
Qed.

Lemma trigger_with_nothing_in_flight_witness :
  let q := SPIFLASH_async_trigger SPIFLASH_OK world_be3 in
  fst q = SPIFLASH_ERR_INTERNAL /\
  w_trace (snd q) = w_trace world_be3 ++ [HalCs 0] /\
  w_mem (snd q) = w_mem world_be3 /\
  SPIFLASH_is_busy (snd q) = SPIFLASH_OK.
Proof.
  apply (trigger_with_nothing_in_flight world_be3). repeat split.
Defined.

(** ** The busy pre-check *)

Lemma exe_precheck_busy c cmd h acb o wp a l p cbb pre bcw b rest m tr cbl
    fuel :
  is_idle o = false -> cbb <> 0 ->
  reply_meets (sr_busy_bit cmd) ExpBusy
    (h ((tr ++ [HalCs 1]) ++ [HalTxrx [read_sr cmd] RxSrData 1])) ->
  _spiflash_exe (S fuel)
    (Build_world
       (Build_spiflash_t c cmd h acb 0 o wp a l p cbb pre bcw (b :: rest))
       m tr cbl)
  = Some
      (SPIFLASH_ERR_HW_BUSY,
       Build_world
         (Build_spiflash_t c cmd h acb 0 SPIFLASH_OP_IDLE 0 a l p cbb 0
            BCW_IDLE
            (wrap8 (nth 0 (snd (h ((tr ++ [HalCs 1])
                                   ++ [HalTxrx [read_sr cmd] RxSrData 1]))) 0)
             :: rest))
         m (((tr ++ [HalCs 1]) ++ [HalTxrx [read_sr cmd] RxSrData 1])
            ++ [HalCs 0]) cbl).
Proof.
  intros Hi Hcbb [Hok Hbusy]. apply Z.eqb_neq in Hcbb, Hbusy.
  unfold _spiflash_exe. cbn -[_spiflash_begin_async exe_loop].
  rewrite Hcbb. cbn [negb]. unfold upd_spi. seeded.
  cbn -[exe_loop _spiflash_begin_async].
  unfold _spiflash_begin_async, bind. cbn -[exe_loop].
  rewrite Hi. cbn -[exe_loop].
  rewrite Hok. seeded. change (Z.to_nat 0) with 0%nat. cbn -[exe_loop].
  rewrite exe_loop_more by (cbn; rewrite Hi; reflexivity).
  unfold SPIFLASH_async_trigger, _spiflash_end_async, bind.
  cbn -[exe_loop]. unfold _spiflash_is_hwbusy, sr_data. cbn -[exe_loop].
  rewrite Hbusy. cbn -[exe_loop].
  change (SPIFLASH_ERR_HW_BUSY =? SPIFLASH_OK) with false. cbn -[exe_loop].
  rewrite exe_loop_done by reflexivity. reflexivity.
Qed.

(** X27: the busy pre-check.  A blocking driver that was told the chip
    could be busy ([could_be_busy] set) answers an accepted request by
    reading the status register first; when the chip reports busy the
    request returns the hardware-busy error after exactly chip select,
    one status read and chip deselect: none of the request's own
    transfers is made, caller memory is untouched and the driver is idle
    again. *)
Theorem precheck_on_busy_chip_rejects (r : request) (w : world) (fuel : nat) :
  accepted r w = true ->
  could_be_busy (w_spi w) <> 0 ->
  async (w_spi w) = SPIFLASH_SYNCHRONOUS ->
  length (tx_internal_buf (w_spi w)) = 16%nat ->
  let e := HalTxrx [read_sr (cmd_tbl (w_spi w))] RxSrData 1 in
  reply_meets (sr_busy_bit (cmd_tbl (w_spi w))) ExpBusy
    (hal (w_spi w) (w_trace w ++ [HalCs 1; e])) ->
  exists w',
    run_request r (S fuel) w = Some (SPIFLASH_ERR_HW_BUSY, w') /\
    w_trace w' = w_trace w ++ [HalCs 1; e; HalCs 0] /\
    w_mem w' = w_mem w /\
    SPIFLASH_is_busy w' = SPIFLASH_OK /\
    busy_pre_check (w_spi w') = 0.
Proof.
  unfold accepted. intros Hacc Hcbb Ha Hlen.
  quiet_world w c. unfold SPIFLASH_SYNCHRONOUS in Ha. subst amode.
  destruct scratch as [|b rest]; [discriminate Hlen|]. clear Hlen.
  apply andb_prop in Hacc. destruct Hacc as [Hidle Hplan].
  destruct o; try discriminate Hidle. clear Hidle.
  cbv zeta.
  replace (tr ++ [HalCs 1; HalTxrx [read_sr cmd] RxSrData 1])
    with ((tr ++ [HalCs 1]) ++ [HalTxrx [read_sr cmd] RxSrData 1])
    by (rewrite <- app_assoc; reflexivity).
  replace (tr ++ [HalCs 1; HalTxrx [read_sr cmd] RxSrData 1; HalCs 0])
    with (((tr ++ [HalCs 1]) ++ [HalTxrx [read_sr cmd] RxSrData 1])
          ++ [HalCs 0])
    by (rewrite <- !app_assoc; reflexivity).
  intros Hr.
  destruct r; unfold_entry;
    cbn -[_spiflash_exe _spiflash_get_largest_erase_area];
    try (rewrite negb_true_iff in Hplan; rewrite Hplan);
    try match goal with
        | |- context [if ?x =? 0 then SPIFLASH_OP_WRITE_REG_DATA else _] =>
            destruct (x =? 0)
        | |- context [if ?x =? 0 then SPIFLASH_OP_READ else _] =>
            destruct (x =? 0)
        end;
    unfold bind; cbn -[_spiflash_exe];
    cbv [set_tx set_sr_data set_reg_nbr]; seeded;
    change (Z.to_nat 0) with 0%nat; change (Z.to_nat 1) with 1%nat;
    cbn -[_spiflash_exe];
    (erewrite exe_precheck_busy; [|reflexivity|exact Hcbb|exact Hr]);
    eexists; repeat split.
Qed.

Lemma precheck_on_busy_chip_rejects_witness :
  exists w',
    run_request (ReqWrite 0x1000 10 0) 1 world_could_be_busy
    = Some (SPIFLASH_ERR_HW_BUSY, w') /\
    w_trace w'
    = w_trace world_could_be_busy
      ++ [HalCs 1;
          HalTxrx [read_sr (cmd_tbl (w_spi world_could_be_busy))] RxSrData 1;
          HalCs 0] /\
    w_mem w' = w_mem world_could_be_busy /\
    SPIFLASH_is_busy w' = SPIFLASH_OK /\
    busy_pre_check (w_spi w') = 0.
Proof.
  apply (precheck_on_busy_chip_rejects (ReqWrite 0x1000 10 0)
           world_could_be_busy 0).
  - reflexivity.
  - discriminate.
  - reflexivity.
  - reflexivity.
  - vm_compute. split; [reflexivity|discriminate].
Defined.

(** ** A chip that stays busy *)

Lemma exe_loop_prefix (k : nat) : forall w w1,
  triggers k w = Some w1 ->
  (forall fuel, exe_loop fuel SPIFLASH_OK w1 = None) ->
  forall fuel, exe_loop fuel SPIFLASH_OK w = None.
Proof.
  induction k as [|k IH]; intros w w1 H Hstuck fuel.
  - injection H as ->. apply Hstuck.
  - cbn [triggers] in H.
    destruct (is_idle (op (w_spi w))) eqn:Ei; [discriminate H|].
    destruct (fst (SPIFLASH_async_trigger SPIFLASH_OK w) =? SPIFLASH_OK) eqn:Er;
      [|discriminate H].
    destruct fuel as [|fuel].
    + cbn [exe_loop]. rewrite Ei. reflexivity.
    + rewrite exe_loop_more by (rewrite Ei; reflexivity).
      apply Z.eqb_eq in Er. rewrite Er. exact (IH _ _ H Hstuck fuel).
Qed.

Lemma stuck_loop c cmd h acb (fuel : nat) :
  always_busy h (sr_busy_bit cmd) ->
  forall o wp a l p cbb b rest m tr cbl,
    is_idle o = false ->
    exe_loop fuel SPIFLASH_OK
      (Build_world
         (Build_spiflash_t c cmd h acb 0 o wp a l p cbb 0 BCW_READ_SR
            (b :: rest)) m tr cbl) = None /\
    (Z.land b (sr_busy_bit cmd) <> 0 ->
     exe_loop fuel SPIFLASH_OK
       (Build_world
          (Build_spiflash_t c cmd h acb 0 o wp a l p cbb 0 BCW_CHECK
             (b :: rest)) m tr cbl) = None).
Proof.
  intros Hh. induction fuel as [|fuel IH];
    intros o wp a l p cbb b rest m tr cbl Hi.
  - cbn. rewrite Hi. split; reflexivity.
  - split.
    + rewrite exe_loop_more by (cbn; rewrite Hi; reflexivity).
      rewrite trigger_bcw_read_sr by (first [exact Hi | apply Hh]).
      cbn [fst snd]. apply IH; [exact Hi|apply Hh].
    + intros Hb.
      rewrite exe_loop_more by (cbn; rewrite Hi; reflexivity).
      rewrite trigger_bcw_check_busy by assumption.
      cbn [fst snd]. apply IH. exact Hi.
Qed.

(** X28: the blocking loop has no timeout.  On a host whose transfers
    succeed but whose chip never reports ready, a blocking chip erase with
    a non-zero [chip_erase_ms] never returns: no number of turns of the
    loop in [_spiflash_exe] ends it. *)
Theorem blocking_chip_erase_never_times_out (w : world) :
  quiescent (w_spi w) ->
  async (w_spi w) = SPIFLASH_SYNCHRONOUS ->
  length (tx_internal_buf (w_spi w)) = 16%nat ->
  chip_erase_ms (cfg (w_spi w)) <> 0 ->
  always_busy (hal (w_spi w)) (sr_busy_bit (cmd_tbl (w_spi w))) ->
  forall fuel, SPIFLASH_chip_erase fuel w = None.
Proof.
  intros (Hop & Hcbb & Hpre & Hbcw) Ha Hlen Hms Hh fuel.
  unfold SPIFLASH_SYNCHRONOUS in Ha.
  quiet_world w c. subst.
  destruct scratch as [|b0 rest]; try discriminate Hlen.
  pose proof (trigger_chip_erase_wren c' cmd h acb 0 m cbl wp a0 l0 p0
                b0 rest
                ((tr ++ [HalCs 1]) ++ [HalTxrx [write_enable cmd] RxNone 0])
                (proj1 (Hh _)))
    as HA.
  pose proof (triggers_one _ _ HA eq_refl) as R1. clear HA.
  pose proof (trigger_bcw_wait c' cmd h acb 0 SPIFLASH_OP_ERASE_CHIP_sERAS
                (chip_erase_ms c') a0 l0 p0 0
                (wrap8 (chip_erase cmd) :: rest) m
                (((((tr ++ [HalCs 1]) ++ [HalTxrx [write_enable cmd] RxNone 0])
                   ++ [HalCs 0]) ++ [HalCs 1])
                 ++ [HalTxrx [wrap8 (chip_erase cmd)] RxNone 0]) cbl eq_refl)
    as HB.
  apply Z.eqb_neq in Hms. rewrite Hms in HB.
  pose proof (triggers_snoc _ _ _ _ R1 HB eq_refl) as R2. clear R1 HB.
  unfold SPIFLASH_chip_erase, _spiflash_exe, _spiflash_begin_async, bind.
  cbn -[exe_loop]. seeded. cbn -[exe_loop]. rewrite (proj1 (Hh _)).
  rewrite (exe_loop_prefix _ _ _ R2); [reflexivity|].
  intros fuel'. apply stuck_loop; [exact Hh|reflexivity].
Qed.

Lemma blocking_chip_erase_never_times_out_witness :
  SPIFLASH_chip_erase 1000 world_stuck = None.
Proof.
  apply (blocking_chip_erase_never_times_out world_stuck).
  - repeat split.
  - reflexivity.
  - reflexivity.
  - discriminate.
  - intros tr. split; [reflexivity|discriminate].
Defined.

(** ** The asynchronous entry *)

(** X29: in asynchronous mode an accepted request returns as soon as its
    first transfer is started: chip select is asserted, one transfer is
    started, and the request returns the code of that call whatever the
    fuel; the operation stays in flight (also when that code is an
    error) and the callback is not invoked. *)
Theorem async_request_starts_one_transfer (r : request) (w : world)
    (fuel : nat) :
  accepted r w = true ->
  async (w_spi w) <> 0 ->
  exists tx rx n w',
    let e := HalTxrx tx rx n in
    run_request r fuel w
    = Some (fst (hal (w_spi w) (w_trace w ++ [HalCs 1; e])), w') /\
    w_trace w' = w_trace w ++ [HalCs 1; e] /\
    SPIFLASH_is_busy w' = SPIFLASH_ERR_BUSY /\
    w_cb w' = w_cb w.
Proof.
  unfold accepted. intros Hacc Ha.
  quiet_world w c. apply Z.eqb_neq in Ha.
  apply andb_prop in Hacc. destruct Hacc as [Hidle Hplan].
  destruct o; try discriminate Hidle. clear Hidle.
  destruct r; unfold_entry;
    cbn -[_spiflash_exe _spiflash_get_largest_erase_area];
    try (rewrite negb_true_iff in Hplan; rewrite Hplan);
    try match goal with
        | |- context [if ?x =? 0 then SPIFLASH_OP_WRITE_REG_DATA else _] =>
            destruct (x =? 0)
        | |- context [if ?x =? 0 then SPIFLASH_OP_READ else _] =>
            destruct (x =? 0)
        end;
    unfold _spiflash_exe, bind;
    cbn -[_spiflash_begin_async];
    cbv [set_tx set_sr_data set_reg_nbr]; seeded;
    cbn -[_spiflash_begin_async];
    destruct (negb (cbb =? 0)) eqn:Ecbb;
    cbn -[_spiflash_begin_async]; seeded; cbn -[_spiflash_begin_async];
    rewrite ?Ha; cbn -[_spiflash_begin_async].
  all: unfold _spiflash_begin_async, _spiflash_compose_address, bind;
    begin_cbn; try destruct (negb (pre =? 0)); begin_cbn;
    rewrite ?compose_loop_buf; cbn -[compose_buf];
    unfold set_tx;
    try match goal with
        | |- context [if ?x <? 0 then _ else _] => destruct (x <? 0)
        end;
    seeded; cbn -[compose_buf];
    rewrite <- ?app_assoc; cbn [app];
    do 4 eexists; (split; [reflexivity|]); repeat split.
Qed.

Lemma async_request_starts_one_transfer_witness :
  exists tx rx n w',
    let e := HalTxrx tx rx n in
    run_request (ReqRead 0x1000 4 0x100) 0 world_async_ready
    = Some (fst (hal (w_spi world_async_ready)
                   (w_trace world_async_ready ++ [HalCs 1; e])), w') /\
    w_trace w' = w_trace world_async_ready ++ [HalCs 1; e] /\
    SPIFLASH_is_busy w' = SPIFLASH_ERR_BUSY /\
    w_cb w' = w_cb world_async_ready.
Proof.
  apply (async_request_starts_one_transfer (ReqRead 0x1000 4 0x100)
           world_async_ready 0).
  - reflexivity.
  - discriminate.
Defined.

(** ** The bytes a write sends *)

Lemma mem_bytes_app m p n1 n2 :
  0 <= n1 -> 0 <= n2 ->
  mem_bytes m p (n1 + n2) = mem_bytes m p n1 ++ mem_bytes m (p + n1) n2.
Proof.
  intros H1 H2. unfold mem_bytes.
  rewrite seqZ_app by assumption. rewrite map_app. f_equal.
  replace (0 + n1) with (n1 + 0) by lia.
  rewrite <- (fmap_add_seqZ n1 0 n2).
  change (Z.add n1 <$> seqZ 0 n2) with (map (Z.add n1) (seqZ 0 n2)).
  rewrite map_map. apply map_ext. intros i. f_equal. lia.
Qed.

Lemma payload_data_poll_script rdsr t n : forall tl_,
  payload_data false (map fst (poll_script rdsr t n) ++ HalCs 0 :: tl_)
  = payload_data false tl_.
Proof.
  revert t. induction n as [|n IH]; intros t tl_.
  - reflexivity.
  - cbn [poll_script map fst app payload_data]. apply IH.
Qed.

Lemma sizes_sum_nonneg (chs : list (Z * Z)) :
  Forall (fun ch => 0 <= snd ch) chs ->
  0 <= fold_right Z.add 0 (map snd chs).
Proof.
  induction 1 as [|ch chs Hch _ IH]; cbn [map fold_right]; lia.
Qed.

Lemma payload_data_chunks c cmd dummy m (chs : list (Z * Z)) :
  forall p polls,
    Forall (fun ch => 0 <= snd ch) chs ->
    concat (payload_data false
              (map fst (chunks_script c cmd dummy m p chs polls
                        ++ [(HalCs 0, ExpOk)])))
    = mem_bytes m p (fold_right Z.add 0 (map snd chs)).
Proof.
  induction chs as [|ch chs IH]; intros p polls Hpos.
  - reflexivity.
  - inversion Hpos as [|? ? Hch Hchs]; subst.
    cbn [map snd fold_right].
    rewrite mem_bytes_app by (try assumption; apply sizes_sum_nonneg, Hchs).
    cbn [chunks_script chunk_script app map fst snd payload_data concat].
    f_equal.
    destruct (page_program_ms c =? 0).
    + cbn [app]. apply IH. exact Hchs.
    + rewrite <- !app_assoc. rewrite !map_app. cbn [map fst app].
      rewrite payload_data_poll_script.
      specialize (IH (p + snd ch) (tl polls) Hchs).
      rewrite map_app in IH. exact IH.
Qed.

(** X30: a blocking write sends the caller's buffer.  Under the
    conditions of the page split (clean idle driver, page size a power of
    two, len > 0, the range inside the address space, a host that
    answers as [write_script] expects), the write returns OK and the
    page-program payloads among the host calls it makes, put end to end,
    are exactly the [len] bytes of caller memory from [buf] on, each byte
    once and in order. *)
Theorem write_sends_the_callers_bytes (w : world) (a len buf k : Z)
    (polls : list nat) :
  quiescent (w_spi w) ->
  async (w_spi w) = SPIFLASH_SYNCHRONOUS ->
  length (tx_internal_buf (w_spi w)) = 16%nat ->
  0 <= k < 32 ->
  page_sz (cfg (w_spi w)) = 2 ^ k ->
  0 <= addr_sz (cfg (w_spi w)) ->
  0 <= addr_dummy_sz (cfg (w_spi w)) ->
  1 + addr_sz (cfg (w_spi w)) + addr_dummy_sz (cfg (w_spi w)) <= 16 ->
  0 <= page_program (cmd_tbl (w_spi w)) < 256 ->
  0 <= a -> 0 < len -> a + len <= 2 ^ 32 ->
  hal_follows (hal (w_spi w)) (sr_busy_bit (cmd_tbl (w_spi w))) (w_trace w)
    (write_script (cfg (w_spi w)) (cmd_tbl (w_spi w))
       (tx_internal_buf (w_spi w)) (w_mem w) a len buf polls) ->
  exists n w' calls,
    (forall fuel, (n <= fuel)%nat ->
       SPIFLASH_write a len buf fuel w = Some (SPIFLASH_OK, w')) /\
    w_trace w' = w_trace w ++ calls /\
    concat (payload_data false calls) = mem_bytes (w_mem w) buf len.
Proof.
  intros (Hop & Hcbb & Hpre & Hbcw) Hamode.
  unfold SPIFLASH_SYNCHRONOUS in Hamode.
  destruct w as [s m tr cbl].
  destruct s as [c cmd h acb amode o wp ad ln p cbb pre bcw scratch].
  cbn [w_spi w_trace w_mem tx_internal_buf op busy_pre_check busy_check_wait
       wait_period_ms hal cmd_tbl cfg async could_be_busy] in *.
  subst.
  intros Hlen Hk HP Hasz Hdsz Hfit Hpp Ha Hl Hend Hf.
  destruct scratch as [|b rest]; [discriminate Hlen|].
  assert (0 < page_sz c) as HPpos by (rewrite HP; apply Z.pow_pos_nonneg; lia).
  unfold write_script, dummy_bytes in *.
  replace (Z.to_nat (1 + addr_sz c)) with (S (Z.to_nat (addr_sz c))) in * by lia.
  cbn [drop] in *.
  set (tailz := drop (Z.to_nat (addr_sz c)) rest) in *.
  unfold page_chunks in *.
  pose proof Hf as Hf2.
  destruct (chunks_script_head c cmd
              (take (Z.to_nat (addr_dummy_sz c)) tailz) m buf (Z.to_nat len)
              (page_sz c) a len polls [(HalCs 0, ExpOk)] Hl (Nat.le_refl _))
    as (sc & Hsc).
  rewrite Hsc in Hf2. cbn [hal_follows] in Hf2.
  destruct Hf2 as (_ & [Hok_wren _] & _).
  destruct (write_loop c cmd h acb 0 m cbl k tailz Hk HP Hasz Hdsz Hpp
              (Z.to_nat len) a len buf wp b rest tr polls
              Ha Hl Hend (Nat.le_refl _) ltac:(cbn in Hlen; lia) eq_refl Hf)
    as (n & w' & Hrun & Hidle & Htr).
  exists n. eexists. eexists. split; [|split].
  - intros fuel Hfuel.
    unfold SPIFLASH_write, _spiflash_exe, _spiflash_begin_async, bind.
    cbn. rewrite Hok_wren.
    replace fuel with (n + (fuel - n))%nat by lia.
    rewrite (exe_loop_triggers n _ _ _ Hrun).
    rewrite exe_loop_done by (rewrite Hidle; reflexivity).
    reflexivity.
  - cbn [w_spi w_trace upd_spi snd]. exact Htr.
  - rewrite payload_data_chunks by (apply page_split_sizes_pos; exact HPpos).
    f_equal. apply page_split_sum; lia.
Qed.

Lemma write_sends_the_callers_bytes_witness :
  exists n w' calls,
    (forall fuel, (n <= fuel)%nat ->
       SPIFLASH_write 0x180 300 0 fuel world_be3 = Some (SPIFLASH_OK, w')) /\
    w_trace w' = w_trace world_be3 ++ calls /\
    concat (payload_data false calls) = mem_bytes (w_mem world_be3) 0 300.
Proof.
  apply (write_sends_the_callers_bytes world_be3 0x180 300 0 8 [0%nat; 0%nat]).
  - repeat split.
  - reflexivity.
  - reflexivity.
  - lia.
  - reflexivity.
  - cbn; lia.
  - cbn; lia.
  - cbn; lia.
  - cbn; lia.
  - lia.
  - lia.
  - lia.
  - vm_compute. repeat split.
Defined.
